(** * heads_hands_game: a shallow embedding of [game.py]

    The combat core of the game ([Creature], [Player], [Monster] and the two
    validation helpers) is embedded as functions over an explicit store of
    objects.  Python objects are shared references, so a creature lives in a
    heap and methods take the reference [self]; [random] is a tape of raw
    draws; exceptions are the [Raise] branch of the result of a computation.
    Floating-point values are IEEE binary64 numbers, as specified by the
    standard library's [SpecFloat]. *)

From Stdlib Require Import ZArith Lia Bool List.
From Stdlib Require Import SpecFloat.
From stdpp Require Import base option gmap strings pretty.

Local Open Scope string_scope.
Local Open Scope Z_scope.

(** ** Python values *)

(** References to objects of the heap.  Every object of the heap is an
    instance of [Creature] or of one of its subclasses. *)
Abbreviation ref := positive (only parsing).

#[warnings="-register-all"]
Inductive pyval : Type :=
| VNone
| VBool (b : bool)
| VInt (z : Z)
| VFloat (f : spec_float)
| VStr (s : string)
| VTuple (l : list pyval)
| VList (l : list pyval)
| VObj (r : ref).

(** [isinstance(v, int)], with the integer the value stands for: [bool] is
    a subclass of [int], [True] is 1 and [False] is 0. *)
Definition as_int (v : pyval) : option Z :=
  match v with
  | VInt z => Some z
  | VBool b => Some (if b then 1 else 0)
  | _ => None
  end.

(** [str(v)] for an instance of [int], as an f-string formats it. *)
Definition str_int (v : pyval) : string :=
  match v with
  | VBool true => "True"
  | VBool false => "False"
  | VInt z => pretty z
  | _ => ""
  end.

(** ** Exceptions and results *)

Inductive exn : Type :=
| ArgumentError (msg : string)    (* class ArgumentError(ValueError) *)
| ValueError (msg : string)
| OverflowError (msg : string)
| AttributeError (msg : string)
| SystemError (msg : string).     (* a reference outside the heap: no Python program reaches it *)

Inductive result (A : Type) : Type :=
| Ok (a : A)
| Raise (e : exn).
Arguments Ok {A} a.
Arguments Raise {A} e.

Definition is_ok {A} (r : result A) : bool :=
  match r with Ok _ => true | Raise _ => false end.

Definition is_argument_error {A} (r : result A) : bool :=
  match r with Raise (ArgumentError _) => true | _ => false end.

(** ** The store *)

Inductive klass : Type := CCreature | CPlayer | CMonster.

Definition class_name (k : klass) : string :=
  match k with
  | CCreature => "Creature"
  | CPlayer => "Player"
  | CMonster => "Monster"
  end.

(** The attributes of an instance.  [_heals_used] exists on a [Player]
    only. *)
Record creature : Type := mkCreature {
  cls : klass;
  name : string;
  attack : Z;
  defense : Z;
  max_health : Z;
  health : Z;
  damage_range : Z * Z;
  _heals_used : option Z
}.

Definition set_health (c : creature) (h : Z) : creature :=
  {| cls := cls c; name := name c; attack := attack c; defense := defense c;
     max_health := max_health c; health := h; damage_range := damage_range c;
     _heals_used := _heals_used c |}.

Definition set_heals_used (c : creature) (k : Z) : creature :=
  {| cls := cls c; name := name c; attack := attack c; defense := defense c;
     max_health := max_health c; health := health c; damage_range := damage_range c;
     _heals_used := Some k |}.

(** The state of the module [random]: a tape of raw draws and the number of
    draws consumed so far. *)
Record rng : Type := mkRng { tape : nat -> Z; pos : nat }.

Record world : Type := mkWorld {
  heap : gmap positive creature;
  random : rng
}.

Definition with_heap (w : world) (h : gmap positive creature) : world :=
  {| heap := h; random := random w |}.

Definition with_random (w : world) (g : rng) : world :=
  {| heap := heap w; random := g |}.

(** ** Computations: state passing with exceptions

    An exception does not roll the store back: the world a computation
    leaves is returned in both cases. *)
Definition M (A : Type) : Type := world -> result A * world.

Definition ret {A} (a : A) : M A := fun w => (Ok a, w).

Definition raise {A} (e : exn) : M A := fun w => (Raise e, w).

Definition bind {A B} (m : M A) (k : A -> M B) : M B :=
  fun w =>
    match m w with
    | (Ok a, w') => k a w'
    | (Raise e, w') => (Raise e, w')
    end.

Notation "x <- m ;; k" := (bind m (fun x => k))
  (at level 100, m at next level, right associativity).

Definition lift {A} (r : result A) : M A := fun w => (r, w).

(** [self.field]: read the object behind a reference. *)
Definition deref (r : ref) : M creature :=
  fun w =>
    match heap w !! r with
    | Some c => (Ok c, w)
    | None => (Raise (SystemError "dangling reference"), w)
    end.

(** [self.field = v]: update the object behind a reference in place. *)
Definition modify (r : ref) (f : creature -> creature) : M unit :=
  fun w =>
    match heap w !! r with
    | Some c => (Ok tt, with_heap w (<[r := f c]> (heap w)))
    | None => (Raise (SystemError "dangling reference"), w)
    end.

(** [type(v).__name__] *)
Definition type_name (v : pyval) : M string :=
  match v with
  | VNone => ret "NoneType"
  | VBool _ => ret "bool"
  | VInt _ => ret "int"
  | VFloat _ => ret "float"
  | VStr _ => ret "str"
  | VTuple _ => ret "tuple"
  | VList _ => ret "list"
  | VObj r => c <- deref r ;; ret (class_name (cls c))
  end.

(** ** [random.randint]

    [random.randint(a, b)] draws an integer of [a..b], both ends included,
    and raises [ValueError] on an empty range, with the text of
    [randrange(a, b + 1)].  The draw consumes one raw value of the tape and
    reduces it into the range. *)
Definition randint (a b : Z) : M Z :=
  fun w =>
    if b <? a
    then (Raise (ValueError ("empty range for randrange() (" ++ pretty a ++ ", "
                               ++ pretty (b + 1) ++ ", " ++ pretty (b + 1 - a) ++ ")")), w)
    else
      let g := random w in
      (Ok (a + tape g (pos g) mod (b - a + 1)),
       with_random w {| tape := tape g; pos := S (pos g) |}).

(** ** Floating point: [int * float] and [int(float)] *)

Definition prec : Z := 53.
Definition emax : Z := 1024.

(** [float(n)] for an [int]: the nearest binary64 number, ties to even;
    [OverflowError] when it is out of range. *)
Definition float_of_int (n : Z) : result spec_float :=
  match binary_normalize prec emax n 0 false with
  | S754_infinity _ => Raise (OverflowError "int too large to convert to float")
  | f => Ok f
  end.

(** [int(x)] for a [float]: truncation towards zero. *)
Definition int_of_float (x : spec_float) : result Z :=
  match x with
  | S754_zero _ => Ok 0
  | S754_finite s m e => Ok (cond_Zopp s (Z.shiftl (Zpos m) e))
  | S754_infinity _ => Raise (OverflowError "cannot convert float infinity to integer")
  | S754_nan => Raise (ValueError "cannot convert float NaN to integer")
  end.

(** [n * x] for an [int] [n] and a [float] [x]. *)
Definition int_mul_float (n : Z) (x : spec_float) : result spec_float :=
  match float_of_int n with
  | Ok f => Ok (SFmul prec emax f x)
  | Raise e => Raise e
  end.

(** The literal [0.3]: the binary64 number nearest to 3/10. *)
Definition float_0_3 : spec_float :=
  Eval vm_compute in
    SFdiv prec emax (binary_normalize prec emax 3 0 false)
                    (binary_normalize prec emax 10 0 false).

(** ** Validation helpers *)

Definition _check_stat (name : string) (value : pyval) (min_v max_v : Z) : M unit :=
  match as_int value with
  | None =>
      t <- type_name value ;;
      raise (ArgumentError (name ++ " must be int, got " ++ t))
  | Some z =>
      if negb ((min_v <=? z) && (z <=? max_v))
      then raise (ArgumentError (name ++ " must be between " ++ pretty min_v ++ " and "
                                   ++ pretty max_v ++ ", got " ++ str_int value))
      else ret tt
  end.

Definition _check_damage_range (dmg : pyval) : M (Z * Z) :=
  match dmg with
  | VTuple [x; y] =>
      match as_int x, as_int y with
      | Some a, Some b =>
          if (a <? 1) || (b <? a)
          then raise (ArgumentError "damage_range values must be natural numbers with min <= max")
          else ret (a, b)
      | _, _ => raise (ArgumentError "damage_range must be a tuple of two ints (min, max)")
      end
  | _ => raise (ArgumentError "damage_range must be a tuple of two ints (min, max)")
  end.

(** ** class Creature *)

(** The body of [Creature.__init__]: the checks, in the order of the source,
    then the attributes of the new instance. *)
Definition Creature_init (k : klass)
    (v_name v_attack v_defense v_max_health v_damage_range : pyval) : M creature :=
  nm <- match v_name with
        | VStr s => if String.eqb s "" 
                    then raise (ArgumentError "name must be a non-empty string")
                    else ret s
        | _ => raise (ArgumentError "name must be a non-empty string")
        end ;;
  _ <- _check_stat "attack" v_attack 1 30 ;;
  _ <- _check_stat "defense" v_defense 1 30 ;;
  mh <- match as_int v_max_health with
        | Some z => if z <=? 0
                    then raise (ArgumentError "max_health must be a positive integer")
                    else ret z
        | None => raise (ArgumentError "max_health must be a positive integer")
        end ;;
  dr <- _check_damage_range v_damage_range ;;
  ret {| cls := k; name := nm;
         attack := default 0 (as_int v_attack);
         defense := default 0 (as_int v_defense);
         max_health := mh; health := mh; damage_range := dr;
         _heals_used := None |}.

(** A new object takes a reference that is not in use. *)
Definition alloc (c : creature) : M ref :=
  fun w =>
    let r := fresh (dom (heap w)) in
    (Ok r, with_heap w (<[r := c]> (heap w))).

(** [Creature(name, attack, defense, max_health, damage_range)] *)
Definition Creature (v_name v_attack v_defense v_max_health v_damage_range : pyval) : M ref :=
  c <- Creature_init CCreature v_name v_attack v_defense v_max_health v_damage_range ;;
  alloc c.

(** [Monster(...)]: the class body is [pass]. *)
Definition Monster (v_name v_attack v_defense v_max_health v_damage_range : pyval) : M ref :=
  c <- Creature_init CMonster v_name v_attack v_defense v_max_health v_damage_range ;;
  alloc c.

Definition alive (c : creature) : bool := 0 <? health c.

Definition is_alive (self : ref) : M bool :=
  c <- deref self ;;
  ret (alive c).

Definition take_damage (self : ref) (dmg : pyval) : M unit :=
  match as_int dmg with
  | None => raise (ArgumentError "dmg must be a non-negative int")
  | Some d =>
      if d <? 0 then raise (ArgumentError "dmg must be a non-negative int")
      else modify self (fun c => set_health c (Z.max 0 (health c - d)))
  end.

Definition _roll_d6 (self : ref) : M Z := randint 1 6.

(** [[m for _ in range(n)]] *)
Fixpoint replicateM {A} (n : nat) (m : M A) : M (list A) :=
  match n with
  | O => ret []
  | S n' => x <- m ;; xs <- replicateM n' m ;; ret (x :: xs)
  end.

Definition attack_target (self : ref) (other : pyval) : M (bool * Z) :=
  match other with
  | VObj o =>
      s <- deref self ;;
      if negb (alive s) then raise (ArgumentError "dead creatures cannot attack")
      else
        t <- deref o ;;
        if negb (alive t) then raise (ArgumentError "cannot attack a dead creature")
        else
          let modifier := attack s - defense t + 1 in
          let dice_count := Z.max 1 modifier in
          rolls <- replicateM (Z.to_nat dice_count) (_roll_d6 self) ;;
          let success := existsb (fun r => 5 <=? r) rolls in
          if success then
            dmg <- randint (fst (damage_range s)) (snd (damage_range s)) ;;
            _ <- take_damage o (VInt dmg) ;;
            ret (true, dmg)
          else ret (false, 0)
  | _ => raise (ArgumentError "other must be a Creature")
  end.

(** ** class Player(Creature) *)

Definition MAX_HEALS : Z := 4.
Definition HEAL_PERCENT : spec_float := float_0_3.

Definition Player (v_name v_attack v_defense v_max_health v_damage_range : pyval) : M ref :=
  c <- Creature_init CPlayer v_name v_attack v_defense v_max_health v_damage_range ;;
  alloc (set_heals_used c 0).

(** Method lookup: [heal] and [heals_left] are defined by [Player] only;
    on another class the call raises [AttributeError]. *)
Definition player_method (meth : string) (c : creature) : M unit :=
  match cls c with
  | CPlayer => ret tt
  | k => raise (AttributeError ("'" ++ class_name k ++ "' object has no attribute '"
                                  ++ meth ++ "'"))
  end.

(** [self._heals_used] *)
Definition get_heals_used (c : creature) : M Z :=
  match _heals_used c with
  | Some k => ret k
  | None => raise (AttributeError ("'" ++ class_name (cls c)
                                     ++ "' object has no attribute '_heals_used'"))
  end.

Definition heal (self : ref) : M Z :=
  c <- deref self ;;
  _ <- player_method "heal" c ;;
  if negb (alive c) then raise (ArgumentError "dead player cannot heal")
  else
    used <- get_heals_used c ;;
    if MAX_HEALS <=? used then raise (ArgumentError "no heals left")
    else
      x <- lift (int_mul_float (max_health c) HEAL_PERCENT) ;;
      amount <- lift (int_of_float x) ;;
      let amount := if amount <=? 0 then 1 else amount in
      let new_health := Z.min (max_health c) (health c + amount) in
      let restored := new_health - health c in
      _ <- modify self (fun c' => set_health c' new_health) ;;
      _ <- modify self (fun c' => set_heals_used c' (used + 1)) ;;
      ret restored.

Definition heals_left (self : ref) : M Z :=
  c <- deref self ;;
  _ <- player_method "heals_left" c ;;
  used <- get_heals_used c ;;
  ret (Z.max 0 (MAX_HEALS - used)).

(** ** Sequences of calls *)

(** [for x in xs: f(x)] *)
Fixpoint forM_ {A} (xs : list A) (f : A -> M unit) : M unit :=
  match xs with
  | [] => ret tt
  | x :: xs' => _ <- f x ;; forM_ xs' f
  end.

(** One call of the public interface on an object of the store. *)
Inductive op : Type :=
| OTakeDamage (self : ref) (dmg : pyval)
| OHeal (self : ref)
| OAttack (self : ref) (other : pyval).

(** The world a call leaves, whether it returns or raises (a driver that
    catches the exception goes on from there). *)
Definition run_op (o : op) (w : world) : world :=
  match o with
  | OTakeDamage self dmg => snd (take_damage self dmg w)
  | OHeal self => snd (heal self w)
  | OAttack self other => snd (attack_target self other w)
  end.

Definition run_ops (ops : list op) (w : world) : world :=
  fold_left (fun w' o => run_op o w') ops w.

(** The three constructors, by class. *)
Definition construct (k : klass) (v_name v_attack v_defense v_max_health v_damage_range : pyval)
  : M ref :=
  match k with
  | CCreature => Creature v_name v_attack v_defense v_max_health v_damage_range
  | CPlayer => Player v_name v_attack v_defense v_max_health v_damage_range
  | CMonster => Monster v_name v_attack v_defense v_max_health v_damage_range
  end.

(** ** The sample fight of [__main__]

    [Player("Hero", 10, 8, 100, (5, 12))] and
    [Monster("Goblin", 7, 5, 40, (3, 6))], with a generator whose raw draws
    are all [z]: every die shows [1 + z mod 6]. *)
Definition hero : creature :=
  {| cls := CPlayer; name := "Hero"; attack := 10; defense := 8;
     max_health := 100; health := 100; damage_range := (5, 12);
     _heals_used := Some 0 |}.

Definition goblin : creature :=
  {| cls := CMonster; name := "Goblin"; attack := 7; defense := 5;
     max_health := 40; health := 40; damage_range := (3, 6);
     _heals_used := None |}.

Definition arena (z : Z) : world :=
  {| heap := {[ 1%positive := hero; 2%positive := goblin ]};
     random := {| tape := fun _ => z; pos := 0 |} |}.

(** The player of [test_player_heal_limits]:
    [Player("Hero", 10, 10, 100, (1, 6))] after [p.health = 50]. *)
Definition test_hero : creature :=
  {| cls := CPlayer; name := "Hero"; attack := 10; defense := 10;
     max_health := 100; health := 50; damage_range := (1, 6);
     _heals_used := Some 0 |}.

Definition test_world : world :=
  {| heap := {[ 1%positive := test_hero ]};
     random := {| tape := fun _ => 0; pos := 0 |} |}.

(** A store with no object yet. *)
Definition empty_world (z : Z) : world :=
  {| heap := ∅; random := {| tape := fun _ => z; pos := 0 |} |}.

(** The same fight later on: the goblin is down to 3 points of health. *)
Definition arena_late (z : Z) : world :=
  {| heap := {[ 1%positive := hero; 2%positive := set_health goblin 3 ]};
     random := {| tape := fun _ => z; pos := 0 |} |}.

(** ** Properties used by the statements *)

(** The bounds of the data model on one creature. *)
Definition health_bounded (c : creature) : Prop :=
  0 <= health c <= max_health c.

(** The constraints that [Creature.__init__] checks on the stats. *)
Definition valid_stats (c : creature) : Prop :=
  1 <= attack c <= 30 /\ 1 <= defense c <= 30 /\ 0 < max_health c /\
  1 <= fst (damage_range c) <= snd (damage_range c).

(** The attributes that no method assigns. *)
Definition same_stats (c c' : creature) : Prop :=
  cls c' = cls c /\ name c' = name c /\ attack c' = attack c /\
  defense c' = defense c /\ max_health c' = max_health c /\
  damage_range c' = damage_range c.

(** The dice of one attack: the [n] draws that follow the position of the
    generator, each reduced to [1..6]. *)
Definition rolls_of (g : rng) (n : nat) : list Z :=
  map (fun i => 1 + tape g i mod 6) (seq (pos g) n).

Definition advance (g : rng) (n : nat) : rng :=
  {| tape := tape g; pos := (pos g + n)%nat |}.

(** What one call can do to the world: advance the generator, lower the
    health of one creature by a damage, or heal one player. *)
Inductive wstep (w : world) : world -> Prop :=
| wstep_random g :
    wstep w (with_random w g)
| wstep_damage r c d g :
    heap w !! r = Some c -> 0 <= d ->
    wstep w {| heap := <[r := set_health c (Z.max 0 (health c - d))]> (heap w);
               random := g |}
| wstep_heal r c k a :
    heap w !! r = Some c -> cls c = CPlayer -> _heals_used c = Some k ->
    alive c = true -> k < MAX_HEALS -> 1 <= a ->
    wstep w (with_heap w
               (<[r := set_heals_used
                         (set_health c (Z.min (max_health c) (health c + a))) (k + 1)]>
                  (heap w))).

(** A player of the store with [k] heals used and the given [max_health]. *)
Definition healer (r : ref) (k : Z) (mh : Z) (w : world) : Prop :=
  exists c, heap w !! r = Some c /\ cls c = CPlayer /\ _heals_used c = Some k /\
            max_health c = mh.

(** [r.is_alive()] holds in [w]. *)
Definition alive_at (r : ref) (w : world) : Prop :=
  exists c, heap w !! r = Some c /\ alive c = true.

(** The number of dice of an attack by [s] on [t]. *)
Definition dice_count (s t : creature) : Z := Z.max 1 (attack s - defense t + 1).

(** [int(max_health * HEAL_PERCENT)] followed by the clamp of [heal]. *)
Definition heal_amount (mh : Z) : result Z :=
  match int_mul_float mh HEAL_PERCENT with
  | Ok x =>
      match int_of_float x with
      | Ok a => Ok (if a <=? 0 then 1 else a)
      | Raise e => Raise e
      end
  | Raise e => Raise e
  end.

(** ** Arguments of the constructors *)


(** [value] passes [_check_stat(name, value)] with the default bounds. *)
Definition good_stat (v : pyval) : Prop :=
  exists z, as_int v = Some z /\ 1 <= z <= 30.

Definition good_name (v : pyval) : Prop :=
  exists s, v = VStr s /\ s <> "".

Definition good_max_health (v : pyval) : Prop :=
  exists z, as_int v = Some z /\ 0 < z.

Definition good_damage_range (v : pyval) : Prop :=
  exists x y a b, v = VTuple [x; y] /\ as_int x = Some a /\ as_int y = Some b /\
                  1 <= a <= b.

Definition valid_args (v_name v_attack v_defense v_max_health v_damage_range : pyval) : Prop :=
  good_name v_name /\ good_stat v_attack /\ good_stat v_defense /\
  good_max_health v_max_health /\ good_damage_range v_damage_range.

(** ** The script under [if __name__ == "__main__"]

    The script prints as it goes: its state is the world and the lines
    written to the standard output so far (UTF-8, one string per call of
    [print]). *)
Definition IO (A : Type) : Type := world * list string -> result A * (world * list string).

Definition io_ret {A} (a : A) : IO A := fun st => (Ok a, st).

Definition io_bind {A B} (m : IO A) (k : A -> IO B) : IO B :=
  fun st =>
    match m st with
    | (Ok a, st') => k a st'
    | (Raise e, st') => (Raise e, st')
    end.

Notation "x <~ m ;; k" := (io_bind m (fun x => k))
  (at level 100, m at next level, right associativity).

(** A call of the library from the script. *)
Definition call {A} (m : M A) : IO A :=
  fun st =>
    match m (fst st) with
    | (r, w') => (r, (w', snd st))
    end.

(** [print(a, b, ...)]: the arguments joined by one space, as one line. *)
Definition print (args : list string) : IO unit :=
  fun st => (Ok tt, (fst st, app (snd st) [String.concat " " args])).

(** The line of an attack: ["попал" if hit else "промах"], then
    [f"урон {dmg}" if dmg else ""]. *)
Definition attack_line (who : string) (hit : bool) (dmg : Z) : list string :=
  [who; if hit then "попал" else "промах";
   if dmg =? 0 then "" else "урон " ++ pretty dmg].

(** The [while] loop of the script, on the two objects it fights with.
    [fuel] bounds the number of rounds; the result is the round in which
    the loop ended, or [None] when the fuel ran out first. *)
Fixpoint fight (fuel : nat) (player goblin : ref) (round_no : Z) : IO (option Z) :=
  match fuel with
  | O => io_ret None
  | S fuel' =>
      (* while player.is_alive() and goblin.is_alive(): *)
      pa <~ call (is_alive player) ;;
      go <~ (if pa then call (is_alive goblin) else io_ret false) ;;
      if negb go then io_ret (Some round_no)
      else
        _ <~ print ["Раунд " ++ pretty round_no] ;;
        r1 <~ call (attack_target player (VObj goblin)) ;;
        _ <~ print (attack_line "Игрок атакует:" (fst r1) (snd r1)) ;;
        ga <~ call (is_alive goblin) ;;
        if negb ga then
          _ <~ print ["Гоблин пал!"] ;;
          io_ret (Some round_no)
        else
          (* if player.health <= 35 and player.heals_left() > 0: *)
          c <~ call (deref player) ;;
          need <~ (if health c <=? 35
                   then left <~ call (heals_left player) ;; io_ret (0 <? left)
                   else io_ret false) ;;
          _ <~ (if need : bool
                then restored <~ call (heal player) ;;
                     print ["Игрок исцелился на " ++ pretty restored ++ " HP"]
                else io_ret tt) ;;
          r2 <~ call (attack_target goblin (VObj player)) ;;
          _ <~ print (attack_line "Гоблин атакует:" (fst r2) (snd r2)) ;;
          pa' <~ call (is_alive player) ;;
          if negb pa' then
            _ <~ print ["Игрок погиб!"] ;;
            io_ret (Some round_no)
          else fight fuel' player goblin (round_no + 1)
  end.

(** The script.  [random.seed()] restarts the generator from the entropy of
    the system: the tape of the initial world stands for it. *)
Definition main (fuel : nat) : IO (option Z) :=
  player <~ call (Player (VStr "Hero") (VInt 10) (VInt 8) (VInt 100)
                    (VTuple [VInt 5; VInt 12])) ;;
  goblin <~ call (Monster (VStr "Goblin") (VInt 7) (VInt 5) (VInt 40)
                    (VTuple [VInt 3; VInt 6])) ;;
  _ <~ print ["--- Бой начинается ---"] ;;
  fight fuel player goblin 1.

(** A generator whose every raw draw is 4 or 5 modulo 6, so that every
    die shows 5 or 6, and one whose raw draws never are, so that no die
    does.  The damage draws come from the same tape. *)
Definition always_hits (g : rng) : Prop := forall i, 4 <= tape g i mod 6.
Definition never_hits (g : rng) : Prop := forall i, tape g i mod 6 < 4.

(** The two fighters of the loop: a player and another creature of the
    store, with damage ranges [0 <= min <= max], as every constructor
    leaves them, and, for the player, a [max_health] that converts to a
    double. *)
Definition fighters (player goblin : ref) (w : world) : Prop :=
  player <> goblin /\
  (exists c k, heap w !! player = Some c /\ cls c = CPlayer /\ _heals_used c = Some k /\
               0 <= fst (damage_range c) <= snd (damage_range c) /\
               0 < max_health c < 2 ^ 1024 - 2 ^ 970) /\
  (exists c, heap w !! goblin = Some c /\
             0 <= fst (damage_range c) <= snd (damage_range c)).




(** ** The tests of [src/test_game.py]

    A test returns [true] when it passes and [false] when one of its
    assertions fails or a [pytest.raises] block ends without an exception;
    an exception that nothing catches is raised by the test. *)

(** [assert b], then the rest of the test. *)
Definition assert_ (b : bool) (rest : M bool) : M bool :=
  if b then rest else ret false.

(** [with pytest.raises(ArgumentError): body], then the rest of the test.
    Another exception goes through. *)
Definition pytest_raises_ArgumentError {A} (body : M A) (rest : M bool) : M bool :=
  fun w =>
    match body w with
    | (Ok _, w') => (Ok false, w')
    | (Raise (ArgumentError _), w') => rest w'
    | (Raise e, w') => (Raise e, w')
    end.

Definition test_player_heal_limits : M bool :=
  p <- Player (VStr "Hero") (VInt 10) (VInt 10) (VInt 100) (VTuple [VInt 1; VInt 6]) ;;
  _ <- modify p (fun c => set_health c 50) ;;
  restored <- heal p ;;
  assert_ (0 <? restored)
    (c <- deref p ;;
     assert_ (50 <? health c)
       (_ <- forM_ (seq 0 3) (fun _ => _ <- heal p ;; ret tt) ;;
        pytest_raises_ArgumentError (heal p) (ret true))).

Definition test_attack_damage_and_death : M bool :=
  p <- Player (VStr "Hero") (VInt 30) (VInt 1) (VInt 10) (VTuple [VInt 5; VInt 5]) ;;
  m <- Monster (VStr "Orc") (VInt 1) (VInt 1) (VInt 5) (VTuple [VInt 1; VInt 1]) ;;
  r <- attack_target p (VObj m) ;;
  if fst r then
    assert_ (snd r =? 5)
      (c <- deref m ;;
       assert_ ((health c <=? 0) || (health c =? 0)) (ret true))
  else
    assert_ (snd r =? 0) (ret true).

Definition test_invalid_arguments : M bool :=
  pytest_raises_ArgumentError
    (Player (VStr "") (VInt 5) (VInt 5) (VInt 100) (VTuple [VInt 1; VInt 6]))
    (pytest_raises_ArgumentError
       (Monster (VStr "Goblin") (VInt 40) (VInt 5) (VInt 100) (VTuple [VInt 1; VInt 6]))
       (pytest_raises_ArgumentError
          (Monster (VStr "Goblin") (VInt 10) (VInt 5) (VInt (-10)) (VTuple [VInt 1; VInt 6]))
          (pytest_raises_ArgumentError
             (Monster (VStr "Goblin") (VInt 10) (VInt 5) (VInt 100) (VTuple [VInt 0; VInt 6]))
             (ret true)))).
(** * Theorems *)

(** ** The monad and the store *)

Lemma same_stats_refl c : same_stats c c.
Proof. repeat split. Qed.

Lemma same_stats_trans c1 c2 c3 :
  same_stats c1 c2 -> same_stats c2 c3 -> same_stats c1 c3.
Proof. unfold same_stats. intuition congruence. Qed.

Lemma same_stats_set_health c h : same_stats c (set_health c h).
Proof. repeat split. Qed.

Lemma same_stats_set_heals_used c k : same_stats c (set_heals_used c k).
Proof. repeat split. Qed.

Create HintDb game.
#[local] Hint Resolve same_stats_refl same_stats_set_health same_stats_set_heals_used : game.

(** ** take_damage *)

Lemma take_damage_ok w r c v d :
  heap w !! r = Some c -> as_int v = Some d -> 0 <= d ->
  take_damage r v w =
    (Ok tt, with_heap w (<[r := set_health c (Z.max 0 (health c - d))]> (heap w))).
Proof.
  intros Hr Hv Hd. unfold take_damage. rewrite Hv.
  destruct (Z.ltb_spec d 0); [lia|].
  unfold modify. now rewrite Hr.
Qed.

Lemma take_damage_raise w r v :
  (as_int v = None \/ exists d, as_int v = Some d /\ d < 0) ->
  take_damage r v w = (Raise (ArgumentError "dmg must be a non-negative int"), w).
Proof.
  intros [Hv | (d & Hv & Hd)]; unfold take_damage; rewrite Hv; [reflexivity|].
  destruct (Z.ltb_spec d 0); [reflexivity | lia].
Qed.

Lemma as_int_cases v :
  (as_int v = None \/ exists d, as_int v = Some d /\ d < 0) \/
  (exists d, as_int v = Some d /\ 0 <= d).
Proof.
  destruct (as_int v) as [d|]; [|left; now left].
  destruct (Z_lt_le_dec d 0); [left; right | right]; eauto.
Qed.

(** C4: [take_damage(amount)] raises [ArgumentError] exactly when [amount]
    is not an instance of [int] or is negative, and then changes nothing;
    otherwise it returns and the creature's health becomes
    [max(0, health - amount)], every other attribute, every other object and
    the random generator being left as they were.  [take_damage(0)] returns
    and keeps the health of a creature whose health is not negative, and an
    amount of at least the health brings it to exactly 0. *)
Theorem C4_take_damage_contract (w : world) (r : ref) (c : creature) (v : pyval) :
  heap w !! r = Some c ->
  (* raises iff negative or not an integer *)
  (is_argument_error (fst (take_damage r v w)) = true <->
     (as_int v = None \/ exists d, as_int v = Some d /\ d < 0)) /\
  (is_ok (fst (take_damage r v w)) = false -> snd (take_damage r v w) = w) /\
  (* otherwise health = max(0, health - amount) and nothing else moves *)
  (forall d, as_int v = Some d -> 0 <= d ->
     exists w' c',
       take_damage r v w = (Ok tt, w') /\
       heap w' !! r = Some c' /\
       health c' = Z.max 0 (health c - d) /\
       same_stats c c' /\ _heals_used c' = _heals_used c /\
       (forall r', r' <> r -> heap w' !! r' = heap w !! r') /\
       random w' = random w /\
       (d = 0 -> 0 <= health c -> health c' = health c) /\
       (health c <= d -> health c' = 0)).
Proof.
  intros Hr. split; [|split].
  - split.
    + intros H. destruct (as_int_cases v) as [Hbad | (d & Hv & Hd)]; [exact Hbad|].
      rewrite (take_damage_ok w r c v d Hr Hv Hd) in H. discriminate.
    + intros Hbad. now rewrite (take_damage_raise w r v Hbad).
  - intros H. destruct (as_int_cases v) as [Hbad | (d & Hv & Hd)].
    + now rewrite (take_damage_raise w r v Hbad).
    + rewrite (take_damage_ok w r c v d Hr Hv Hd) in H. discriminate.
  - intros d Hv Hd. rewrite (take_damage_ok w r c v d Hr Hv Hd).
    eexists _, _. split; [reflexivity|]. simpl.
    split; [apply lookup_insert_eq|].
    split; [reflexivity|]. split; [apply same_stats_set_health|].
    split; [reflexivity|]. split; [|split; [reflexivity|split]].
    + intros r' Hne. now apply lookup_insert_ne.
    + intros -> Hh. simpl. lia.
    + intros Hh. simpl. lia.
Qed.

Lemma C4_take_damage_contract_witness :
  heap (arena 0) !! 2%positive = Some goblin /\
  exists w' c',
    take_damage 2 (VInt 7) (arena 0) = (Ok tt, w') /\
    heap w' !! 2%positive = Some c' /\ health c' = 33.
Proof.
  assert (H : heap (arena 0) !! 2%positive = Some goblin) by (vm_compute; reflexivity).
  split; [exact H|].
  destruct (C4_take_damage_contract (arena 0) 2 goblin (VInt 7) H) as (_ & _ & Hok).
  destruct (Hok 7 eq_refl ltac:(lia)) as (w' & c' & E & L & Hh & _).
  exists w', c'. repeat split; [exact E | exact L | exact Hh].
Defined.

(** ** The random generator and the dice *)

Lemma randint_ok w a b :
  a <= b ->
  randint a b w =
    (Ok (a + tape (random w) (pos (random w)) mod (b - a + 1)),
     with_random w (advance (random w) 1)).
Proof.
  intros Hab. unfold randint, advance, with_random.
  destruct (Z.ltb_spec b a); [lia|].
  now rewrite Nat.add_1_r.
Qed.


Lemma advance_0 g : advance g 0 = g.
Proof. destruct g. unfold advance. cbn. now rewrite Nat.add_0_r. Qed.


Lemma with_random_id w : with_random w (random w) = w.
Proof. now destruct w. Qed.

Lemma replicateM_roll_d6 self n w :
  replicateM n (_roll_d6 self) w =
    (Ok (rolls_of (random w) n), with_random w (advance (random w) n)).
Proof.
  revert w. induction n as [|n IH]; intros w.
  - cbn. now rewrite advance_0, with_random_id.
  - cbn [replicateM]. unfold bind at 1. unfold _roll_d6 at 1.
    rewrite randint_ok by lia.
    unfold bind at 1. rewrite IH. unfold ret. cbn.
    f_equal.
    + unfold rolls_of. cbn. do 3 f_equal. now rewrite Nat.add_1_r.
    + unfold with_random, advance. cbn. do 2 f_equal. lia.
Qed.



(** ** attack_target *)

(** What an attack between two live creatures of the store does, case by
    case, in terms of the raw draws. *)
Lemma attack_target_alive w a d s t :
  heap w !! a = Some s -> heap w !! d = Some t ->
  alive s = true -> alive t = true ->
  let n := Z.to_nat (dice_count s t) in
  let g := random w in
  attack_target a (VObj d) w =
    if existsb (fun r => 5 <=? r) (rolls_of g n) then
      if snd (damage_range s) <? fst (damage_range s)
      then (Raise (ValueError ("empty range for randrange() ("
                                 ++ pretty (fst (damage_range s)) ++ ", "
                                 ++ pretty (snd (damage_range s) + 1) ++ ", "
                                 ++ pretty (snd (damage_range s) + 1 - fst (damage_range s))
                                 ++ ")")),
            with_random w (advance g n))
      else
        let dmg := fst (damage_range s)
                   + tape g (pos g + n)%nat mod (snd (damage_range s) - fst (damage_range s) + 1) in
        if dmg <? 0
        then (Raise (ArgumentError "dmg must be a non-negative int"),
              with_random w (advance g (n + 1)))
        else (Ok (true, dmg),
              {| heap := <[d := set_health t (Z.max 0 (health t - dmg))]> (heap w);
                 random := advance g (n + 1) |})
    else (Ok (false, 0), with_random w (advance g n)).
Proof.
  intros Ha Hd Hs Ht n g. unfold attack_target.
  unfold bind at 1. unfold deref at 1. rewrite Ha, Hs. cbn [negb].
  unfold bind at 1. unfold deref at 1. rewrite Hd, Ht. cbn [negb].
  unfold bind at 1. rewrite replicateM_roll_d6.
  fold (dice_count s t). fold n. fold g.
  destruct (existsb _ _); [|reflexivity].
  unfold bind at 1. unfold randint.
  cbn [random with_random heap].
  destruct (Z.ltb_spec (snd (damage_range s)) (fst (damage_range s))); [reflexivity|].
  cbn [tape pos advance].
  unfold bind at 1. unfold take_damage. cbn [as_int].
  set (dmg := fst (damage_range s) + _).
  replace (S (pos g + n)) with (pos g + (n + 1))%nat by lia.
  destruct (Z.ltb_spec dmg 0).
  - reflexivity.
  - unfold modify. cbn [heap with_random]. now rewrite Hd.
Qed.

Lemma attack_target_not_creature w a other :
  (forall o, other <> VObj o) ->
  attack_target a other w = (Raise (ArgumentError "other must be a Creature"), w).
Proof. intros H. destruct other; try reflexivity. now destruct (H r). Qed.

Lemma attack_target_dead_attacker w a s o :
  heap w !! a = Some s -> alive s = false ->
  attack_target a (VObj o) w = (Raise (ArgumentError "dead creatures cannot attack"), w).
Proof.
  intros Ha Hs. unfold attack_target, bind, deref. now rewrite Ha, Hs.
Qed.

Lemma attack_target_dead_target w a s o t :
  heap w !! a = Some s -> heap w !! o = Some t -> alive s = true -> alive t = false ->
  attack_target a (VObj o) w = (Raise (ArgumentError "cannot attack a dead creature"), w).
Proof.
  intros Ha Ho Hs Ht. unfold attack_target, bind, deref.
  rewrite Ha, Hs. cbv beta iota. cbn [negb]. now rewrite Ho, Ht.
Qed.

(** An attack that raises leaves the heap as it was. *)
Lemma attack_target_raise_heap w a other e w' :
  attack_target a other w = (Raise e, w') -> heap w' = heap w.
Proof.
  destruct other as [| | | | | | |o];
    try (intros [= _ <-]; reflexivity).
  destruct (heap w !! a) as [s|] eqn:Ha;
    [|unfold attack_target, bind, deref; rewrite Ha; now intros [= _ <-]].
  destruct (alive s) eqn:Hs;
    [|rewrite (attack_target_dead_attacker w a s o Ha Hs); now intros [= _ <-]].
  destruct (heap w !! o) as [t|] eqn:Ho;
    [|unfold attack_target, bind, deref; rewrite Ha, Hs; cbv beta iota; cbn [negb];
      rewrite Ho; now intros [= _ <-]].
  destruct (alive t) eqn:Ht;
    [|rewrite (attack_target_dead_target w a s o t Ha Ho Hs Ht); now intros [= _ <-]].
  rewrite (attack_target_alive w a o s t Ha Ho Hs Ht). cbv zeta.
  repeat match goal with |- context [if ?b then _ else _] => destruct b end;
    intros [= _ <-]; reflexivity.
Qed.

(** C5: [attack_target(other)] raises [ArgumentError] when [other] is not
    a creature, whatever the state of the attacker; else when the attacker is
    dead, whatever the state of the target; else when the target is dead: the
    three checks come in this order.  Whenever the call raises, the heap, and
    so the health of both participants, is unchanged. *)
Theorem C5_attack_target_preconditions (w : world) (a : ref) (s : creature) (other : pyval) :
  heap w !! a = Some s ->
  ((forall o, other <> VObj o) ->
     attack_target a other w = (Raise (ArgumentError "other must be a Creature"), w)) /\
  (forall o, other = VObj o -> alive s = false ->
     attack_target a other w = (Raise (ArgumentError "dead creatures cannot attack"), w)) /\
  (forall o t, other = VObj o -> heap w !! o = Some t -> alive s = true -> alive t = false ->
     attack_target a other w = (Raise (ArgumentError "cannot attack a dead creature"), w)) /\
  (forall e w', attack_target a other w = (Raise e, w') -> heap w' = heap w).
Proof.
  intros Ha. repeat split.
  - apply attack_target_not_creature.
  - intros o -> Hs. now apply attack_target_dead_attacker with s.
  - intros o t -> Ho Hs Ht. now apply attack_target_dead_target with s t.
  - intros e w'. apply attack_target_raise_heap.
Qed.

Lemma C5_attack_target_preconditions_witness :
  heap (arena 0) !! 1%positive = Some hero /\
  attack_target 1 VNone (arena 0) =
    (Raise (ArgumentError "other must be a Creature"), arena 0).
Proof.
  assert (H : heap (arena 0) !! 1%positive = Some hero) by (vm_compute; reflexivity).
  split; [exact H|].
  destruct (C5_attack_target_preconditions (arena 0) 1 hero VNone H) as (Hnc & _).
  apply Hnc. intros o. discriminate.
Defined.






(** An attack that returns was made by a live creature on a live one. *)
Lemma attack_target_ok_alive w a d s t res w' :
  heap w !! a = Some s -> heap w !! d = Some t ->
  attack_target a (VObj d) w = (Ok res, w') ->
  alive s = true /\ alive t = true.
Proof.
  intros Ha Hd H.
  destruct (alive s) eqn:Hs;
    [|rewrite (attack_target_dead_attacker w a s d Ha Hs) in H; discriminate].
  destruct (alive t) eqn:Ht;
    [|rewrite (attack_target_dead_target w a s d t Ha Hd Hs Ht) in H; discriminate].
  now split.
Qed.

(** C10: the damage that a successful attack returns is the amount drawn
    with [randint], while the target loses [min(damage, old health)]; the
    returned damage exceeds the health lost when the draw is larger than the
    health the target had left, as when the hero hits a goblin that has 3
    points left. *)
Theorem C10_returned_damage_is_the_draw
    (w : world) (a d : ref) (s t : creature) (dmg : Z) (w' : world) :
  heap w !! a = Some s -> heap w !! d = Some t ->
  attack_target a (VObj d) w = (Ok (true, dmg), w') ->
  (exists rolls w1 w2,
     replicateM (Z.to_nat (dice_count s t)) (_roll_d6 a) w = (Ok rolls, w1) /\
     randint (fst (damage_range s)) (snd (damage_range s)) w1 = (Ok dmg, w2)) /\
  (exists t', heap w' !! d = Some t' /\
              health t - health t' = Z.min dmg (health t)) /\
  (exists dmg0 w0' t0',
     attack_target 1 (VObj 2%positive) (arena_late 4) = (Ok (true, dmg0), w0') /\
     heap w0' !! 2%positive = Some t0' /\
     health (set_health goblin 3) - health t0' < dmg0).
Proof.
  intros Ha Hd H.
  destruct (attack_target_ok_alive w a d s t _ w' Ha Hd H) as [Hs Ht].
  rewrite (attack_target_alive w a d s t Ha Hd Hs Ht) in H. cbv zeta in H.
  destruct (existsb _ _); [|discriminate].
  destruct (Z.ltb_spec (snd (damage_range s)) (fst (damage_range s))) as [|Hr];
    [discriminate|].
  set (x := fst (damage_range s) + _) in H.
  destruct (Z.ltb_spec x 0) as [|Hx]; [discriminate|].
  injection H as Hdmg Hw'. subst dmg w'.
  split; [|split].
  - rewrite replicateM_roll_d6. eexists _, _, _. split; [reflexivity|].
    rewrite randint_ok by exact Hr. reflexivity.
  - eexists. split; [cbn; apply lookup_insert_eq|].
    cbn. unfold alive in Ht. apply Z.ltb_lt in Ht. lia.
  - exists 9, (snd (attack_target 1 (VObj 2%positive) (arena_late 4))),
      (set_health goblin 0).
    split; [vm_compute; reflexivity|].
    split; [vm_compute; reflexivity|].
    cbn. lia.
Qed.

Lemma C10_returned_damage_is_the_draw_witness :
  heap (arena 4) !! 1%positive = Some hero /\
  heap (arena 4) !! 2%positive = Some goblin /\
  attack_target 1 (VObj 2%positive) (arena 4) =
    (Ok (true, 9), snd (attack_target 1 (VObj 2%positive) (arena 4))) /\
  exists t', heap (snd (attack_target 1 (VObj 2%positive) (arena 4))) !! 2%positive = Some t' /\
             health goblin - health t' = Z.min 9 (health goblin).
Proof.
  assert (H1 : heap (arena 4) !! 1%positive = Some hero) by (vm_compute; reflexivity).
  assert (H2 : heap (arena 4) !! 2%positive = Some goblin) by (vm_compute; reflexivity).
  assert (H3 : attack_target 1 (VObj 2%positive) (arena 4) =
               (Ok (true, 9), snd (attack_target 1 (VObj 2%positive) (arena 4))))
    by (vm_compute; reflexivity).
  repeat (split; [assumption|]).
  exact (proj1 (proj2 (C10_returned_damage_is_the_draw (arena 4) 1 2 hero goblin 9 _ H1 H2 H3))).
Defined.

(** ** heal *)

Lemma heal_amount_pos mh a : heal_amount mh = Ok a -> 1 <= a.
Proof.
  unfold heal_amount. destruct (int_mul_float _ _); [|discriminate].
  destruct (int_of_float _) as [x|]; [|discriminate].
  intros [= <-]. destruct (Z.leb_spec x 0); lia.
Qed.

(** What [heal] does on a player of the store, case by case. *)
Lemma heal_player w r c k :
  heap w !! r = Some c -> cls c = CPlayer -> _heals_used c = Some k ->
  heal r w =
    if negb (alive c) then (Raise (ArgumentError "dead player cannot heal"), w)
    else if MAX_HEALS <=? k then (Raise (ArgumentError "no heals left"), w)
    else
      match heal_amount (max_health c) with
      | Raise e => (Raise e, w)
      | Ok amount =>
          let new_health := Z.min (max_health c) (health c + amount) in
          (Ok (new_health - health c),
           with_heap w (<[r := set_heals_used (set_health c new_health) (k + 1)]> (heap w)))
      end.
Proof.
  intros Hr Hc Hk. unfold heal.
  unfold bind at 1. unfold deref at 1. rewrite Hr.
  unfold bind at 1. unfold player_method. rewrite Hc. unfold ret at 1.
  destruct (alive c); [|reflexivity]. cbn [negb].
  unfold bind at 1. unfold get_heals_used. rewrite Hk. unfold ret at 1.
  destruct (MAX_HEALS <=? k); [reflexivity|].
  unfold heal_amount, bind at 1, lift at 1.
  destruct (int_mul_float _ _) as [x|e]; [|reflexivity].
  unfold bind at 1, lift at 1.
  destruct (int_of_float x) as [a|e]; [|reflexivity].
  cbv zeta. unfold bind, modify, ret, with_heap. cbn [heap].
  rewrite Hr. cbn [heap]. rewrite lookup_insert_eq. cbn [heap random].
  now rewrite insert_insert_eq.
Qed.

(** On an object that is not a well-formed player, [heal] changes
    nothing. *)
Lemma heal_not_player w r c :
  heap w !! r = Some c -> (cls c <> CPlayer \/ _heals_used c = None) ->
  snd (heal r w) = w.
Proof.
  intros Hr Hc. unfold heal, bind, deref, player_method, get_heals_used. rewrite Hr.
  destruct (cls c) eqn:E; try reflexivity. cbn.
  destruct (negb (alive c)); [reflexivity|].
  destruct (_heals_used c) eqn:E'; [destruct Hc; congruence | reflexivity].
Qed.

Lemma heal_dangling w r : heap w !! r = None -> snd (heal r w) = w.
Proof. intros Hr. unfold heal, bind, deref. now rewrite Hr. Qed.

(** ** Every call is a step *)

Lemma wstep_refl w : wstep w w.
Proof. rewrite <- (with_random_id w) at 2. constructor. Qed.

Lemma take_damage_wstep r v w : wstep w (snd (take_damage r v w)).
Proof.
  destruct (as_int_cases v) as [Hbad | (d & Hv & Hd)].
  - rewrite take_damage_raise by exact Hbad. apply wstep_refl.
  - destruct (heap w !! r) as [c|] eqn:Hr.
    + rewrite (take_damage_ok w r c v d Hr Hv Hd). cbn.
      now apply wstep_damage.
    + unfold take_damage. rewrite Hv. destruct (d <? 0); [apply wstep_refl|].
      unfold modify. rewrite Hr. apply wstep_refl.
Qed.

Lemma heal_wstep r w : wstep w (snd (heal r w)).
Proof.
  destruct (heap w !! r) as [c|] eqn:Hr;
    [|rewrite heal_dangling by exact Hr; apply wstep_refl].
  destruct (cls c) eqn:Hc;
    try (rewrite (heal_not_player w r c Hr) by (left; congruence); apply wstep_refl).
  destruct (_heals_used c) as [k|] eqn:Hk;
    [|rewrite (heal_not_player w r c Hr) by (now right); apply wstep_refl].
  rewrite (heal_player w r c k Hr Hc Hk).
  destruct (alive c) eqn:Hal; [|apply wstep_refl]. cbn [negb].
  destruct (Z.leb_spec MAX_HEALS k); [apply wstep_refl|].
  destruct (heal_amount (max_health c)) as [a|e] eqn:Ha; [|apply wstep_refl].
  cbn. apply wstep_heal; try assumption. now apply heal_amount_pos with (max_health c).
Qed.

Lemma attack_target_wstep a other w : wstep w (snd (attack_target a other w)).
Proof.
  destruct (attack_target a other w) as [[res|e] w'] eqn:E.
  2:{ cbn. pose proof (attack_target_raise_heap w a other e w' E) as Hh.
      replace w' with (with_random w (random w')); [constructor|].
      destruct w'. cbn in *. now subst. }
  destruct other as [| | | | | | |d]; try discriminate.
  destruct (heap w !! a) as [s|] eqn:Ha;
    [|unfold attack_target, bind, deref in E; rewrite Ha in E; discriminate].
  destruct (heap w !! d) as [t|] eqn:Hd.
  2:{ unfold attack_target, bind, deref in E. rewrite Ha in E.
      destruct (alive s); cbn [negb] in E; [|discriminate].
      cbv beta iota in E. rewrite Hd in E. discriminate. }
  destruct (attack_target_ok_alive w a d s t res w' Ha Hd E) as [Hs Ht].
  rewrite (attack_target_alive w a d s t Ha Hd Hs Ht) in E. cbv zeta in E.
  destruct (existsb _ _).
  - destruct (_ <? _); [discriminate|].
    set (x := fst (damage_range s) + _) in E.
    destruct (Z.ltb_spec x 0); [discriminate|].
    injection E as _ <-. cbn. now apply wstep_damage.
  - injection E as _ <-. cbn. constructor.
Qed.

Lemma run_op_wstep o w : wstep w (run_op o w).
Proof.
  destruct o; cbn.
  - apply take_damage_wstep.
  - apply heal_wstep.
  - apply attack_target_wstep.
Qed.

(** ** What a step preserves *)

Lemma wstep_lookup w w' r c :
  wstep w w' -> heap w !! r = Some c ->
  exists c', heap w' !! r = Some c' /\ same_stats c c' /\
             (health_bounded c -> health_bounded c') /\
             (health c = 0 -> health c' = 0).
Proof.
  intros Hstep Hr. destruct Hstep as [g | r0 c0 d g H0 Hd | r0 c0 k a H0 Hc Hk Hal Hlt Ha].
  - exists c. cbn. auto with game.
  - cbn. destruct (decide (r0 = r)) as [->|Hne].
    + rewrite lookup_insert_eq. rewrite Hr in H0. injection H0 as <-.
      eexists. split; [reflexivity|]. split; [auto with game|].
      unfold health_bounded. cbn. split; lia.
    + rewrite lookup_insert_ne by exact Hne. exists c. auto with game.
  - cbn. destruct (decide (r0 = r)) as [->|Hne].
    + rewrite lookup_insert_eq. rewrite Hr in H0. injection H0 as <-.
      eexists. split; [reflexivity|]. split; [repeat split|].
      unfold health_bounded. cbn. unfold alive in Hal. apply Z.ltb_lt in Hal.
      split; lia.
    + rewrite lookup_insert_ne by exact Hne. exists c. auto with game.
Qed.

Lemma run_ops_lookup ops w r c :
  heap w !! r = Some c ->
  exists c', heap (run_ops ops w) !! r = Some c' /\ same_stats c c' /\
             (health_bounded c -> health_bounded c') /\
             (health c = 0 -> health c' = 0).
Proof.
  revert w c. induction ops as [|o ops IH]; intros w c Hr.
  - exists c. cbn. auto with game.
  - cbn. destruct (wstep_lookup w (run_op o w) r c (run_op_wstep o w) Hr)
      as (c1 & H1 & S1 & B1 & Z1).
    destruct (IH _ _ H1) as (c2 & H2 & S2 & B2 & Z2).
    exists c2. split; [exact H2|]. split; [eapply same_stats_trans; eassumption|].
    split; auto.
Qed.

(** ** Construction *)

Lemma bind_ok {A B} (m : M A) (k : A -> M B) w b w' :
  bind m k w = (Ok b, w') ->
  exists a w1, m w = (Ok a, w1) /\ k a w1 = (Ok b, w').
Proof.
  unfold bind. destruct (m w) as [[a|e] w1]; [eauto | discriminate].
Qed.

Lemma _check_stat_ok nm v lo hi w u w' :
  _check_stat nm v lo hi w = (Ok u, w') ->
  w' = w /\ exists z, as_int v = Some z /\ lo <= z <= hi.
Proof.
  unfold _check_stat. destruct (as_int v) as [z|].
  - destruct (Z.leb_spec lo z), (Z.leb_spec z hi); cbn; try discriminate.
    intros [= _ <-]. split; [reflexivity|]. exists z. split; [reflexivity | lia].
  - unfold bind. destruct (type_name v w) as [[t|e] w1]; discriminate.
Qed.

Lemma _check_damage_range_ok v w dr w' :
  _check_damage_range v w = (Ok dr, w') ->
  w' = w /\ 1 <= fst dr <= snd dr.
Proof.
  unfold _check_damage_range.
  destruct v as [| | | | |l| |]; try discriminate.
  destruct l as [|x [|y [|? ?]]]; try discriminate.
  destruct (as_int x) as [a|]; [|discriminate].
  destruct (as_int y) as [b|]; [|discriminate].
  destruct (Z.ltb_spec a 1), (Z.ltb_spec b a); cbn; try discriminate.
  intros [= <- <-]. cbn. split; [reflexivity | lia].
Qed.

Lemma Creature_init_ok k vn va vd vm vr w c w' :
  Creature_init k vn va vd vm vr w = (Ok c, w') ->
  w' = w /\ cls c = k /\ health c = max_health c /\ valid_stats c /\
  _heals_used c = None /\ as_int vm = Some (max_health c).
Proof.
  unfold Creature_init. intros H.
  apply bind_ok in H as (nm & w1 & H1 & H).
  assert (w1 = w) as ->.
  { destruct vn; try discriminate. destruct (String.eqb s ""); [discriminate|].
    now injection H1 as _ <-. }
  apply bind_ok in H as (u1 & w2 & H2 & H).
  apply _check_stat_ok in H2 as (-> & za & Hza & Ha).
  apply bind_ok in H as (u2 & w3 & H3 & H).
  apply _check_stat_ok in H3 as (-> & zd & Hzd & Hdf).
  apply bind_ok in H as (mh & w4 & H4 & H).
  assert (w4 = w /\ 0 < mh /\ as_int vm = Some mh) as (-> & Hmh & Hvm).
  { destruct (as_int vm) as [z|]; [|discriminate].
    destruct (Z.leb_spec z 0); [discriminate|]. injection H4 as <- <-. now repeat split. }
  apply bind_ok in H as (dr & w5 & H5 & H).
  apply _check_damage_range_ok in H5 as (-> & Hdr).
  injection H as <- <-. rewrite Hza, Hzd.
  repeat split; cbn; try lia. exact Hvm.
Qed.

Lemma alloc_ok c w r w' :
  alloc c w = (Ok r, w') ->
  heap w !! r = None /\ w' = with_heap w (<[r := c]> (heap w)).
Proof.
  unfold alloc. intros [= <- <-]. split; [|reflexivity].
  apply not_elem_of_dom, is_fresh.
Qed.

(** A constructor that returns has put a new object in the store, at full
    health and with stats that pass the checks. *)
Lemma construct_ok k vn va vd vm vr w r w' :
  construct k vn va vd vm vr w = (Ok r, w') ->
  exists c,
    heap w !! r = None /\ w' = with_heap w (<[r := c]> (heap w)) /\
    cls c = k /\ health c = max_health c /\ valid_stats c /\
    _heals_used c = (if k is CPlayer then Some 0 else None) /\
    as_int vm = Some (max_health c).
Proof.
  intros H.
  destruct k; unfold construct, Creature, Player, Monster in H;
    apply bind_ok in H as (c & w1 & Hi & Ha);
    apply Creature_init_ok in Hi as (-> & Hk & Hh & Hv & Hu & Hm);
    apply alloc_ok in Ha as (Hfresh & ->).
  - exists c. auto 10.
  - exists (set_heals_used c 0). auto 10.
  - exists c. auto 10.
Qed.

(** ** The bounds on health *)

(** C1: a creature that a constructor returns has [health = max_health]
    and [0 <= health <= max_health], and the bounds still hold after any
    sequence of calls of [take_damage], [heal] and [attack_target], on any
    objects of the store, with any arguments, returning or raising; its
    stats are the ones it was built with. *)
Theorem C1_health_bounds
    (k : klass) (v_name v_attack v_defense v_max_health v_damage_range : pyval)
    (w w1 : world) (r : ref) (ops : list op) :
  construct k v_name v_attack v_defense v_max_health v_damage_range w = (Ok r, w1) ->
  (exists c, heap w1 !! r = Some c /\ health c = max_health c /\ 0 < max_health c /\
             health_bounded c) /\
  (exists c', heap (run_ops ops w1) !! r = Some c' /\
              0 <= health c' <= max_health c' /\
              (exists c, heap w1 !! r = Some c /\ same_stats c c')).
Proof.
  intros H. apply construct_ok in H as (c & _ & -> & _ & Hh & Hv & _ & _).
  assert (Hr : heap (with_heap w (<[r := c]> (heap w))) !! r = Some c)
    by (cbn; apply lookup_insert_eq).
  assert (Hb : health_bounded c).
  { unfold health_bounded. destruct Hv as (_ & _ & Hm & _). lia. }
  split.
  - exists c. destruct Hv as (_ & _ & Hm & _). auto.
  - destruct (run_ops_lookup ops _ r c Hr) as (c' & Hr' & Hs & Hb' & _).
    exists c'. split; [exact Hr'|]. split; [exact (Hb' Hb)|].
    exists c. auto.
Qed.

Lemma C1_health_bounds_witness :
  let w1 := snd (construct CPlayer (VStr "Hero") (VInt 10) (VInt 8) (VInt 100)
                   (VTuple [VInt 5; VInt 12]) (empty_world 4)) in
  let ops := [OTakeDamage 1 (VInt 30); OHeal 1; OAttack 1 (VObj 1%positive);
              OTakeDamage 1 (VInt 500); OHeal 1] in
  construct CPlayer (VStr "Hero") (VInt 10) (VInt 8) (VInt 100)
    (VTuple [VInt 5; VInt 12]) (empty_world 4) = (Ok 1%positive, w1) /\
  exists c', heap (run_ops ops w1) !! 1%positive = Some c' /\
             0 <= health c' <= max_health c'.
Proof.
  intros w1 ops.
  assert (H : construct CPlayer (VStr "Hero") (VInt 10) (VInt 8) (VInt 100)
                (VTuple [VInt 5; VInt 12]) (empty_world 4) = (Ok 1%positive, w1))
    by (vm_compute; reflexivity).
  split; [exact H|].
  destruct (C1_health_bounds _ _ _ _ _ _ _ _ _ ops H) as (_ & c' & Hr & Hb & _).
  exists c'. split; [exact Hr | exact Hb].
Defined.

(** ** Repeated damage *)

Lemma forM_take_damage w r c amounts ds :
  heap w !! r = Some c -> 0 <= health c ->
  Forall2 (fun v d => as_int v = Some d /\ 0 <= d) amounts ds ->
  exists w', forM_ amounts (take_damage r) w = (Ok tt, w') /\
             heap w' !! r = Some (set_health c (Z.max 0 (health c - fold_right Z.add 0 ds))) /\
             0 <= fold_right Z.add 0 ds.
Proof.
  intros Hr Hh HF. revert w c Hr Hh.
  induction HF as [|v d amounts ds [Hv Hd] HF IH]; intros w c Hr Hh.
  - exists w. cbn. split; [reflexivity|]. split; [|lia].
    rewrite Hr. f_equal. destruct c. unfold set_health. cbn in *. f_equal. lia.
  - cbn [forM_ fold_right]. unfold bind.
    rewrite (take_damage_ok w r c v d Hr Hv Hd).
    edestruct (IH (with_heap w (<[r := set_health c (Z.max 0 (health c - d))]> (heap w))))
      as (w' & Hrun & Hlook & Hsum).
    { cbn. apply lookup_insert_eq. }
    { cbn. lia. }
    exists w'. split; [exact Hrun|]. split; [|lia].
    rewrite Hlook. f_equal. unfold set_health. cbn. f_equal. lia.
Qed.

(** C9: calls of [take_damage] with non-negative integers that add up to
    [max_health] all return, and leave the creature with [health == 0] and
    [is_alive()] false. *)
Theorem C9_damage_summing_to_max_health
    (w : world) (r : ref) (c : creature) (amounts : list pyval) (ds : list Z) :
  heap w !! r = Some c -> health_bounded c ->
  Forall2 (fun v d => as_int v = Some d /\ 0 <= d) amounts ds ->
  fold_right Z.add 0 ds = max_health c ->
  exists w' c',
    forM_ amounts (take_damage r) w = (Ok tt, w') /\
    heap w' !! r = Some c' /\ health c' = 0 /\
    is_alive r w' = (Ok false, w').
Proof.
  intros Hr [Hlo Hhi] HF Hsum.
  destruct (forM_take_damage w r c amounts ds Hr Hlo HF) as (w' & Hrun & Hlook & _).
  exists w'. eexists. split; [exact Hrun|]. split; [exact Hlook|].
  assert (Hz : Z.max 0 (health c - fold_right Z.add 0 ds) = 0) by lia.
  split; [exact Hz|].
  unfold is_alive, bind, deref, ret. rewrite Hlook. unfold alive. cbn. now rewrite Hz.
Qed.

Lemma C9_damage_summing_to_max_health_witness :
  heap (arena 0) !! 2%positive = Some goblin /\
  exists w' c',
    forM_ [VInt 15; VBool true; VInt 0; VInt 24] (take_damage 2) (arena 0) = (Ok tt, w') /\
    heap w' !! 2%positive = Some c' /\ health c' = 0 /\
    is_alive 2 w' = (Ok false, w').
Proof.
  assert (H : heap (arena 0) !! 2%positive = Some goblin) by (vm_compute; reflexivity).
  split; [exact H|].
  apply (C9_damage_summing_to_max_health (arena 0) 2 goblin
           [VInt 15; VBool true; VInt 0; VInt 24] [15; 1; 0; 24] H).
  - unfold health_bounded. cbn. lia.
  - repeat constructor; lia.
  - reflexivity.
Defined.

(** ** The frame of each call *)

Lemma take_damage_shape r v w :
  snd (take_damage r v w) = w \/
  exists c d, heap w !! r = Some c /\ 0 <= d /\
    snd (take_damage r v w) =
      with_heap w (<[r := set_health c (Z.max 0 (health c - d))]> (heap w)).
Proof.
  destruct (as_int_cases v) as [Hbad | (d & Hv & Hd)].
  - left. now rewrite take_damage_raise.
  - destruct (heap w !! r) as [c|] eqn:Hr.
    + right. exists c, d. now rewrite (take_damage_ok w r c v d Hr Hv Hd).
    + left. unfold take_damage. rewrite Hv. destruct (d <? 0); [reflexivity|].
      unfold modify. now rewrite Hr.
Qed.

Lemma attack_target_shape a other w :
  (exists g, snd (attack_target a other w) = with_random w g) \/
  exists d t dmg g, other = VObj d /\ heap w !! d = Some t /\ 0 <= dmg /\
    snd (attack_target a other w) =
      {| heap := <[d := set_health t (Z.max 0 (health t - dmg))]> (heap w);
         random := g |}.
Proof.
  destruct (attack_target a other w) as [[res|e] w'] eqn:E.
  2:{ left. exists (random w'). cbn.
      pose proof (attack_target_raise_heap w a other e w' E) as Hh.
      destruct w'. cbn in *. now subst. }
  destruct other as [| | | | | | |d]; try discriminate.
  destruct (heap w !! a) as [s|] eqn:Ha;
    [|unfold attack_target, bind, deref in E; rewrite Ha in E; discriminate].
  destruct (heap w !! d) as [t|] eqn:Hd.
  2:{ unfold attack_target, bind, deref in E. rewrite Ha in E.
      destruct (alive s); cbn [negb] in E; [|discriminate].
      cbv beta iota in E. rewrite Hd in E. discriminate. }
  destruct (attack_target_ok_alive w a d s t res w' Ha Hd E) as [Hs Ht].
  rewrite (attack_target_alive w a d s t Ha Hd Hs Ht) in E. cbv zeta in E.
  destruct (existsb _ _).
  - destruct (_ <? _); [discriminate|].
    set (x := fst (damage_range s) + _) in E.
    destruct (Z.ltb_spec x 0); [discriminate|].
    injection E as _ <-. right. exists d, t, x. eexists. eauto.
  - injection E as _ <-. left. eexists. reflexivity.
Qed.

Lemma heal_shape r w :
  snd (heal r w) = w \/
  exists c k a, heap w !! r = Some c /\ _heals_used c = Some k /\
    snd (heal r w) =
      with_heap w (<[r := set_heals_used
                             (set_health c (Z.min (max_health c) (health c + a))) (k + 1)]>
                     (heap w)).
Proof.
  destruct (heap w !! r) as [c|] eqn:Hr; [|left; now apply heal_dangling].
  destruct (cls c) eqn:Hc;
    try (left; apply (heal_not_player w r c Hr); left; congruence).
  destruct (_heals_used c) as [k|] eqn:Hk;
    [|left; apply (heal_not_player w r c Hr); now right].
  rewrite (heal_player w r c k Hr Hc Hk).
  destruct (negb (alive c)); [now left|].
  destruct (MAX_HEALS <=? k); [now left|].
  destruct (heal_amount (max_health c)) as [a|e]; [|now left].
  right. exists c, k, a. auto.
Qed.

(** C8 as the specification has it, that no call of [attack_target]
    changes the attacker, does not hold: a creature that attacks itself and
    hits loses health. *)
Lemma C8_counterexample_self_attack :
  ~ (forall (w : world) (a : ref) (s : creature) (other : pyval),
       heap w !! a = Some s ->
       heap (snd (attack_target a other w)) !! a = Some s).
Proof.
  intros H.
  specialize (H (arena 4) 1%positive hero (VObj 1%positive) ltac:(vm_compute; reflexivity)).
  vm_compute in H. discriminate.
Qed.

(** The frame of one call, object by object. *)
Lemma run_op_frame (w : world) (o : op) :
  (forall r c, heap w !! r = Some c ->
     exists c', heap (run_op o w) !! r = Some c' /\ same_stats c c') /\
  (forall self v r c, o = OTakeDamage self v -> heap w !! r = Some c ->
     exists c', heap (run_op o w) !! r = Some c' /\
                _heals_used c' = _heals_used c /\ (r <> self -> c' = c)) /\
  (forall self r, o = OHeal self -> r <> self ->
     heap (run_op o w) !! r = heap w !! r) /\
  (forall self other r c, o = OAttack self other -> heap w !! r = Some c ->
     exists c', heap (run_op o w) !! r = Some c' /\
                _heals_used c' = _heals_used c /\ (other <> VObj r -> c' = c)) /\
  (forall self other x w', o = OAttack self other ->
     attack_target self other w = (Ok (false, x), w') -> x = 0 /\ heap w' = heap w) /\
  (forall self d s t, o = OAttack self (VObj d) ->
     heap w !! self = Some s -> heap w !! d = Some t ->
     alive s = true -> alive t = true ->
     existsb (fun r => 5 <=? r)
       (rolls_of (random w) (Z.to_nat (dice_count s t))) = false ->
     fst (attack_target self (VObj d) w) = Ok (false, 0) /\
     heap (snd (attack_target self (VObj d) w)) = heap w).
Proof.
  split; [|split; [|split; [|split; [|split]]]].
  - intros r c Hr.
    destruct (wstep_lookup w _ r c (run_op_wstep o w) Hr) as (c' & H1 & H2 & _).
    eauto.
  - intros self v r c -> Hr. cbn.
    destruct (take_damage_shape self v w) as [-> | (c0 & d & H0 & Hd & ->)]; [eauto|].
    cbn. destruct (decide (self = r)) as [->|Hne].
    + rewrite lookup_insert_eq. rewrite Hr in H0. injection H0 as <-.
      eexists. split; [reflexivity|]. split; [reflexivity|]. congruence.
    + rewrite lookup_insert_ne by exact Hne. eauto.
  - intros self r -> Hne. cbn.
    destruct (heal_shape self w) as [-> | (c0 & k & a & H0 & Hk & ->)]; [reflexivity|].
    cbn. now rewrite lookup_insert_ne by congruence.
  - intros self other r c -> Hr. cbn.
    destruct (attack_target_shape self other w)
      as [[g ->] | (d & t & dmg & g & -> & H0 & Hd & ->)]; [cbn; eauto|].
    cbn. destruct (decide (d = r)) as [->|Hne].
    + rewrite lookup_insert_eq. rewrite Hr in H0. injection H0 as <-.
      eexists. split; [reflexivity|]. split; [reflexivity|]. congruence.
    + rewrite lookup_insert_ne by exact Hne. eauto.
  - intros self other x w' _ E.
    destruct other as [| | | | | | |d]; try discriminate.
    destruct (heap w !! self) as [s|] eqn:Ha;
      [|unfold attack_target, bind, deref in E; rewrite Ha in E; discriminate].
    destruct (heap w !! d) as [t|] eqn:Hd.
    2:{ unfold attack_target, bind, deref in E. rewrite Ha in E.
        destruct (alive s); cbn [negb] in E; [|discriminate].
        cbv beta iota in E. rewrite Hd in E. discriminate. }
    destruct (attack_target_ok_alive w self d s t _ w' Ha Hd E) as [Hs Ht].
    rewrite (attack_target_alive w self d s t Ha Hd Hs Ht) in E. cbv zeta in E.
    destruct (existsb _ _).
    + destruct (_ <? _); [discriminate|].
      set (y := fst (damage_range s) + _) in E.
      destruct (Z.ltb_spec y 0); discriminate.
    + injection E as <- <-. now split.
  - intros self d s t _ Ha Hd Hs Ht Hmiss.
    rewrite (attack_target_alive w self d s t Ha Hd Hs Ht). cbv zeta.
    rewrite Hmiss. now split.
Qed.

(** C8, as the code has it: every call keeps the class, name, attack,
    defense, max_health and damage_range of every object.  [take_damage] and [heal]
    leave every object but their target as it was, and [take_damage] keeps
    [_heals_used].  [attack_target] keeps [_heals_used] everywhere and leaves
    every object but the target as it was: the attacker too, unless it is
    its own target.  An attack in which no die shows 5 or more returns
    [(False, 0)], and an attack that returns [(False, x)] has [x = 0] and
    leaves the heap as it was. *)
Theorem C8_frame (w : world) (o : op) :
  (forall r c, heap w !! r = Some c ->
     exists c', heap (run_op o w) !! r = Some c' /\ same_stats c c') /\
  (forall self v r c, o = OTakeDamage self v -> heap w !! r = Some c ->
     exists c', heap (run_op o w) !! r = Some c' /\
                _heals_used c' = _heals_used c /\ (r <> self -> c' = c)) /\
  (forall self r, o = OHeal self -> r <> self ->
     heap (run_op o w) !! r = heap w !! r) /\
  (forall self other r c, o = OAttack self other -> heap w !! r = Some c ->
     exists c', heap (run_op o w) !! r = Some c' /\
                _heals_used c' = _heals_used c /\ (other <> VObj r -> c' = c)) /\
  (forall self other x w', o = OAttack self other ->
     attack_target self other w = (Ok (false, x), w') -> x = 0 /\ heap w' = heap w) /\
  (forall self d s t, o = OAttack self (VObj d) ->
     heap w !! self = Some s -> heap w !! d = Some t ->
     alive s = true -> alive t = true ->
     existsb (fun r => 5 <=? r)
       (rolls_of (random w) (Z.to_nat (dice_count s t))) = false ->
     fst (attack_target self (VObj d) w) = Ok (false, 0) /\
     heap (snd (attack_target self (VObj d) w)) = heap w).
Proof. exact (run_op_frame w o). Qed.

Lemma C8_frame_witness :
  heap (arena 0) !! 1%positive = Some hero /\
  attack_target 1 (VObj 2%positive) (arena 0) =
    (Ok (false, 0), snd (attack_target 1 (VObj 2%positive) (arena 0))) /\
  heap (snd (attack_target 1 (VObj 2%positive) (arena 0))) = heap (arena 0) /\
  exists c', heap (run_op (OAttack 1 (VObj 2%positive)) (arena 4)) !! 1%positive = Some c' /\
             _heals_used c' = _heals_used hero /\ c' = hero.
Proof.
  assert (H1 : heap (arena 0) !! 1%positive = Some hero) by (vm_compute; reflexivity).
  assert (H2 : attack_target 1 (VObj 2%positive) (arena 0) =
               (Ok (false, 0), snd (attack_target 1 (VObj 2%positive) (arena 0))))
    by (vm_compute; reflexivity).
  split; [exact H1|]. split; [exact H2|].
  split.
  - exact (proj2 (proj1 (proj2 (proj2 (proj2 (proj2 (C8_frame (arena 0)
                                                      (OAttack 1 (VObj 2%positive)))))))
                    1%positive (VObj 2%positive) 0 _ eq_refl H2)).
  - destruct (proj1 (proj2 (proj2 (proj2 (C8_frame (arena 4) (OAttack 1 (VObj 2%positive))))))
                1%positive (VObj 2%positive) 1%positive hero eq_refl H1)
      as (c' & Hc' & Hu & Hsame).
    exists c'. split; [exact Hc'|]. split; [exact Hu|].
    apply Hsame. discriminate.
Defined.

(** ** Binary64 rounding *)

Lemma iter_pos_iter {A} (f : A -> A) p x : SpecFloat.iter_pos f p x = BinPos.Pos.iter f x p.
Proof.
  revert x. induction p as [p IH|p IH|]; intros x.
  - change (SpecFloat.iter_pos f p (SpecFloat.iter_pos f p (f x)) =
            f (BinPos.Pos.iter f (BinPos.Pos.iter f x p) p)).
    now rewrite !IH, !BinPos.Pos.iter_swap.
  - change (SpecFloat.iter_pos f p (SpecFloat.iter_pos f p x) =
            BinPos.Pos.iter f (BinPos.Pos.iter f x p) p).
    now rewrite !IH.
  - reflexivity.
Qed.

Lemma shr_1_nonneg m r s :
  0 <= m ->
  shr_1 {| shr_m := m; shr_r := r; shr_s := s |} =
    {| shr_m := m / 2; shr_r := Z.odd m; shr_s := r || s |}.
Proof.
  intros Hm. rewrite <- Z.div2_div.
  destruct m as [|[p|p|]|p]; try reflexivity. lia.
Qed.

(** The record after [p] shifts of an exact mantissa [m]: the quotient by
    [2^p], and the place of the remainder with respect to half of [2^p]. *)
Lemma shr_1_step m p rec :
  1 <= p ->
  (0 <= shr_m rec /\
   exists rem, 0 <= rem < 2 ^ p /\ m = shr_m rec * 2 ^ p + rem /\
     shr_r rec = (2 ^ (p - 1) <=? rem) /\
     shr_s rec = negb ((rem =? 0) || (rem =? 2 ^ (p - 1)))) ->
  (0 <= shr_m (shr_1 rec) /\
   exists rem, 0 <= rem < 2 ^ (p + 1) /\ m = shr_m (shr_1 rec) * 2 ^ (p + 1) + rem /\
     shr_r (shr_1 rec) = (2 ^ p <=? rem) /\
     shr_s (shr_1 rec) = negb ((rem =? 0) || (rem =? 2 ^ p))).
Proof.
  intros Hp (Hm & rem & Hrem & Heq & Hr & Hs).
  destruct rec as [q r s]. cbn [shr_m shr_r shr_s] in *.
  rewrite shr_1_nonneg by exact Hm. cbn [shr_m shr_r shr_s].
  assert (Hpow : 2 ^ (p + 1) = 2 * 2 ^ p) by (rewrite Z.pow_add_r by lia; lia).
  assert (Hhalf : 2 ^ p = 2 * 2 ^ (p - 1)).
  { replace p with (p - 1 + 1) at 1 by lia. rewrite Z.pow_add_r by lia. lia. }
  assert (Hpos : 0 < 2 ^ (p - 1)) by (apply Z.pow_pos_nonneg; lia).
  pose proof (Z.div_mod q 2 ltac:(lia)) as Hq.
  pose proof (Z.mod_pos_bound q 2 ltac:(lia)) as Hq2.
  split; [apply Z.div_pos; lia|].
  exists (rem + (q mod 2) * 2 ^ p).
  rewrite Hpow.
  assert (Hodd : Z.odd q = (q mod 2 =? 1)).
  { rewrite Zmod_odd. now destruct (Z.odd q). }
  split; [nia|]. split; [nia|]. split.
  - rewrite Hodd. destruct (Z.eqb_spec (q mod 2) 1) as [E|E].
    + rewrite E. symmetry. apply Z.leb_le. lia.
    + assert (q mod 2 = 0) as -> by lia. symmetry. apply Z.leb_gt. lia.
  - subst r s.
    assert (q mod 2 = 0 \/ q mod 2 = 1) as [E|E] by lia; rewrite E;
      rewrite ?Z.mul_0_l, ?Z.mul_1_l, ?Z.add_0_r;
      repeat match goal with
             | |- context [Z.leb ?a ?b] => destruct (Z.leb_spec a b)
             | |- context [Z.eqb ?a ?b] => destruct (Z.eqb_spec a b)
             end; cbn; try reflexivity; exfalso; lia.
Qed.

Lemma iter_shr_1 m p :
  0 <= m ->
  let rec := SpecFloat.iter_pos shr_1 p {| shr_m := m; shr_r := false; shr_s := false |} in
  0 <= shr_m rec /\
  exists rem, 0 <= rem < 2 ^ Zpos p /\ m = shr_m rec * 2 ^ Zpos p + rem /\
    shr_r rec = (2 ^ (Zpos p - 1) <=? rem) /\
    shr_s rec = negb ((rem =? 0) || (rem =? 2 ^ (Zpos p - 1))).
Proof.
  intros Hm. cbv zeta. rewrite iter_pos_iter.
  induction p as [|p IH] using Pos.peano_ind.
  - cbn [BinPos.Pos.iter]. rewrite shr_1_nonneg by exact Hm. cbn [shr_m shr_r shr_s].
    pose proof (Z.div_mod m 2 ltac:(lia)) as Hq.
    pose proof (Z.mod_pos_bound m 2 ltac:(lia)) as Hq2.
    split; [apply Z.div_pos; lia|].
    exists (m mod 2). change (2 ^ 1) with 2. change (2 ^ (1 - 1)) with 1.
    split; [lia|]. split; [lia|]. rewrite Zmod_odd.
    destruct (Z.odd m); cbn; auto.
  - rewrite BinPos.Pos.iter_succ, Pos2Z.inj_succ.
    replace (Z.succ (Zpos p) - 1) with (Zpos p) by lia.
    apply (shr_1_step m (Zpos p)); [lia | exact IH].
Qed.

(** Rounding to nearest, ties to even, after [p] shifts: the result is next
    to the quotient, within half of [2^p] of the exact value, and even when
    the exact value is half way. *)
Lemma round_after_shr m p :
  0 <= m ->
  let rec := SpecFloat.iter_pos shr_1 p {| shr_m := m; shr_r := false; shr_s := false |} in
  let M := round_nearest_even (shr_m rec) (loc_of_shr_record rec) in
  shr_m rec = m / 2 ^ Zpos p /\
  m / 2 ^ Zpos p <= M <= m / 2 ^ Zpos p + 1 /\
  - 2 ^ Zpos p <= 2 * (M * 2 ^ Zpos p - m) <= 2 ^ Zpos p /\
  (2 * (M * 2 ^ Zpos p - m) = 2 ^ Zpos p \/ 2 * (M * 2 ^ Zpos p - m) = - 2 ^ Zpos p ->
   Z.even M = true).
Proof.
  intros Hm rec M. subst M.
  destruct (iter_shr_1 m p Hm) as (Hq & rem & Hrem & Heq & Hr & Hs).
  fold rec in Hq, Heq, Hr, Hs.
  assert (Hhalf : 2 ^ Zpos p = 2 * 2 ^ (Zpos p - 1)).
  { replace (Zpos p) with (Zpos p - 1 + 1) at 1 by lia.
    rewrite Z.pow_add_r by lia. lia. }
  assert (Hdiv : shr_m rec = m / 2 ^ Zpos p).
  { apply Z.div_unique with rem; [lia|]. lia. }
  split; [exact Hdiv|]. rewrite <- Hdiv.
  destruct rec as [q r s]. cbn [shr_m shr_r shr_s loc_of_shr_record] in *.
  set (B := 2 ^ Zpos p) in *. set (H2 := 2 ^ (Zpos p - 1)) in *.
  destruct (Z.leb_spec H2 rem), (Z.eqb_spec rem 0), (Z.eqb_spec rem H2);
    subst r s; cbn [negb orb round_nearest_even];
    try (destruct (Z.even q) eqn:Ev);
    (split; [nia|]); (split; [nia|]); intros Htie;
    try (exfalso; nia); try exact Ev.
  rewrite Z.add_1_r, Z.even_succ, <- Z.negb_even, Ev. reflexivity.
Qed.

Lemma digits2_pos_bounds p :
  2 ^ (Zpos (digits2_pos p) - 1) <= Zpos p < 2 ^ Zpos (digits2_pos p).
Proof.
  induction p as [p IH|p IH|].
  - cbn [digits2_pos]. rewrite Pos2Z.inj_succ.
    replace (Z.succ (Zpos (digits2_pos p)) - 1) with (Zpos (digits2_pos p)) by lia.
    rewrite Z.pow_succ_r by lia.
    replace (Zpos (digits2_pos p)) with (Zpos (digits2_pos p) - 1 + 1) at 1 by lia.
    rewrite Z.pow_add_r by lia. lia.
  - cbn [digits2_pos]. rewrite Pos2Z.inj_succ.
    replace (Z.succ (Zpos (digits2_pos p)) - 1) with (Zpos (digits2_pos p)) by lia.
    rewrite Z.pow_succ_r by lia.
    replace (Zpos (digits2_pos p)) with (Zpos (digits2_pos p) - 1 + 1) at 1 by lia.
    rewrite Z.pow_add_r by lia. lia.
  - cbn. lia.
Qed.

Lemma Zdigits2_unique m d :
  2 ^ (d - 1) <= m < 2 ^ d -> 0 < m -> Zdigits2 m = d.
Proof.
  intros Hb Hm. destruct m as [|p|p]; try lia. cbn [Zdigits2].
  pose proof (digits2_pos_bounds p) as Hp.
  set (k := Zpos (digits2_pos p)) in *.
  assert (0 < d).
  { destruct (Z_lt_le_dec 0 d); [assumption|].
    assert (2 ^ d <= 1); [|lia].
    destruct (Z.eq_dec d 0) as [->|]; [reflexivity|].
    rewrite Z.pow_neg_r by lia. lia. }
  destruct (Z.lt_trichotomy k d) as [Hlt | [Heq | Hgt]]; [|exact Heq|].
  - assert (2 ^ k <= 2 ^ (d - 1)) by (apply Z.pow_le_mono_r; lia). lia.
  - assert (2 ^ d <= 2 ^ (k - 1)) by (apply Z.pow_le_mono_r; lia). lia.
Qed.

Lemma iter_xO_pow m d : Zpos (BinPos.Pos.iter xO m d) = Zpos m * 2 ^ Zpos d.
Proof.
  induction d as [|d IH] using Pos.peano_ind.
  - cbn. lia.
  - rewrite BinPos.Pos.iter_succ, Pos2Z.inj_succ, Z.pow_succ_r by lia.
    rewrite Pos2Z.inj_xO, IH. lia.
Qed.

Lemma fexp_binary64 x : fexp prec emax x = Z.max (x - 53) (-1074).
Proof. reflexivity. Qed.

(** A mantissa of 53 digits with an exponent in range is not rounded. *)
Lemma binary_round_aux_canonical s m e :
  Zdigits2 (Zpos m) = 53 -> -1074 <= e <= 971 ->
  binary_round_aux prec emax s (Zpos m) e loc_Exact = S754_finite s m e.
Proof.
  intros Hd He. unfold binary_round_aux, shr_fexp.
  rewrite Hd, fexp_binary64.
  replace (Z.max (53 + e - 53) (-1074) - e) with 0 by lia.
  cbn [shr shr_record_of_loc shr_m loc_of_shr_record round_nearest_even].
  rewrite Hd, fexp_binary64.
  replace (Z.max (53 + e - 53) (-1074) - e) with 0 by lia.
  cbn [shr shr_record_of_loc shr_m].
  destruct (Z.leb_spec e (emax - prec)) as [|Hbad]; [reflexivity|].
  unfold emax, prec in Hbad. lia.
Qed.

(** [float(n)] is exact for [0 < n < 2^53]: the mantissa is [n] shifted to
    53 digits. *)
Lemma binary_normalize_small n :
  0 < n < 2 ^ 53 ->
  exists m, binary_normalize prec emax n 0 false = S754_finite false m (Zdigits2 n - 53) /\
            Zpos m = n * 2 ^ (53 - Zdigits2 n) /\
            Zdigits2 (Zpos m) = 53 /\ 1 <= Zdigits2 n <= 53.
Proof.
  intros Hn. destruct n as [|p|p]; try lia.
  pose proof (digits2_pos_bounds p) as Hp.
  cbn [Zdigits2 binary_normalize]. set (k := Zpos (digits2_pos p)) in *.
  assert (Hk : 1 <= k <= 53).
  { split; [subst k; lia|].
    destruct (Z_le_gt_dec k 53); [assumption|].
    assert (2 ^ 53 <= 2 ^ (k - 1)) by (apply Z.pow_le_mono_r; lia). lia. }
  unfold binary_round. fold k. rewrite fexp_binary64.
  replace (Z.max (k + 0 - 53) (-1074)) with (k - 53) by lia.
  unfold shl_align.
  destruct (k - 53 - 0) as [|d|d] eqn:Ed; try lia.
  - assert (E : k = 53) by lia.
    assert (Hd : Zdigits2 (Zpos p) = 53) by exact E.
    exists p. cbv beta iota. rewrite binary_round_aux_canonical by (try exact Hd; lia).
    split; [f_equal; lia|]. split; [|split; [exact Hd | lia]].
    rewrite E. change (2 ^ (53 - 53)) with 1. lia.
  - assert (Hd : Zpos (BinPos.Pos.iter xO p d) = Zpos p * 2 ^ (53 - k)).
    { rewrite iter_xO_pow. do 2 f_equal. lia. }
    assert (Hdig : Zdigits2 (Zpos (BinPos.Pos.iter xO p d)) = 53).
    { apply Zdigits2_unique; [|lia]. rewrite Hd.
      assert (Hsplit : 2 ^ 53 = 2 ^ k * 2 ^ (53 - k)).
      { rewrite <- Z.pow_add_r by lia. f_equal. lia. }
      assert (Hsplit' : 2 ^ (53 - 1) = 2 ^ (k - 1) * 2 ^ (53 - k)).
      { rewrite <- Z.pow_add_r by lia. f_equal. lia. }
      assert (0 < 2 ^ (53 - k)) by (apply Z.pow_pos_nonneg; lia).
      rewrite Hsplit, Hsplit'. nia. }
    exists (BinPos.Pos.iter xO p d). cbv beta iota.
    rewrite binary_round_aux_canonical by (try exact Hdig; lia).
    split; [reflexivity|]. split; [exact Hd|]. split; [exact Hdig | lia].
Qed.

Lemma digits_53_bounds m : Zdigits2 (Zpos m) = 53 -> 2 ^ 52 <= Zpos m < 2 ^ 53.
Proof.
  intros H. pose proof (digits2_pos_bounds m) as Hb.
  cbn [Zdigits2] in H. rewrite H in Hb. exact Hb.
Qed.

(** The product of a 53-digit mantissa by the mantissa of [0.3], rounded to
    53 digits: the rounded mantissa [M0] is within half a unit of the exact
    product, and the result is finite. *)
Lemma mul_0_3_float m1 e1 :
  Zdigits2 (Zpos m1) = 53 -> -52 <= e1 <= 971 ->
  let P := Zpos m1 * 5404319552844595 in
  exists s M0 M E,
    (s = 52 /\ P < 2 ^ 105 \/ s = 53 /\ 2 ^ 105 <= P) /\
    - 2 ^ s <= 2 * (M0 * 2 ^ s - P) <= 2 ^ s /\
    SFmul prec emax (S754_finite false m1 e1) float_0_3 = S754_finite false M E /\
    (Zpos M = M0 /\ E = e1 - 54 + s \/
     M0 = 2 ^ 53 /\ Zpos M = 2 ^ 52 /\ E = e1 - 54 + s + 1).
Proof.
  intros Hd He P.
  pose proof (digits_53_bounds m1 Hd) as Hm1.
  assert (HP : 2 ^ 104 <= P < 2 ^ 106) by (subst P; lia).
  unfold float_0_3. cbn [SFmul xorb].
  change (Zpos (m1 * 5404319552844595)) with P.
  set (e := e1 + -54).
  assert (Hdig : exists s : positive,
             Zdigits2 P = Zpos s + 53 /\
             (Zpos s = 52 /\ P < 2 ^ 105 \/ Zpos s = 53 /\ 2 ^ 105 <= P)).
  { destruct (Z_lt_le_dec P (2 ^ 105)).
    - exists 52%positive. split; [|left; split; [reflexivity | assumption]].
      apply Zdigits2_unique; lia.
    - exists 53%positive. split; [|right; split; [reflexivity | assumption]].
      apply Zdigits2_unique; lia. }
  destruct Hdig as (s & Hdig & Hs).
  assert (HPpos : 0 <= P) by lia.
  destruct (round_after_shr P s HPpos) as (Hquo & HM & Herr & _).
  set (rec := SpecFloat.iter_pos shr_1 s {| shr_m := P; shr_r := false; shr_s := false |}) in *.
  set (M0 := round_nearest_even (shr_m rec) (loc_of_shr_record rec)) in *.
  assert (Hquo_b : 2 ^ 52 <= P / 2 ^ Zpos s < 2 ^ 53).
  { destruct Hs as [[-> Hlt] | [-> Hge]].
    - split; [apply Z.div_le_lower_bound; lia | apply Z.div_lt_upper_bound; lia].
    - split; [apply Z.div_le_lower_bound; lia | apply Z.div_lt_upper_bound; lia]. }
  unfold binary_round_aux. unfold shr_fexp at 1.
  rewrite Hdig, fexp_binary64.
  replace (Z.max (Zpos s + 53 + e - 53) (-1074) - e) with (Zpos s) by lia.
  cbn [shr shr_record_of_loc]. fold rec. fold M0.
  unfold shr_fexp.
  destruct (Z.eq_dec M0 (2 ^ 53)) as [E|E].
  - (* the rounding carried into a 54th digit *)
    exists (Zpos s), M0, 4503599627370496%positive, (e + Zpos s + 1).
    split; [exact Hs|]. split; [exact Herr|].
    rewrite E.
    change (Zdigits2 (2 ^ 53)) with 54. rewrite fexp_binary64.
    replace (Z.max (54 + (e + Zpos s) - 53) (-1074) - (e + Zpos s)) with 1 by lia.
    cbn [shr shr_record_of_loc SpecFloat.iter_pos].
    change (shr_1 {| shr_m := 2 ^ 53; shr_r := false; shr_s := false |})
      with {| shr_m := 2 ^ 52; shr_r := false; shr_s := false |}.
    cbn [shr_m]. change (2 ^ 52) with (Zpos 4503599627370496) at 1.
    cbv beta iota.
    destruct (Z.leb_spec (e + Zpos s + 1) (emax - prec)) as [_|Hbad];
      [|unfold emax, prec in Hbad; lia].
    split; [reflexivity|]. right. split; [reflexivity|]. split; [reflexivity | lia].
  - assert (HM0 : 2 ^ 52 <= M0 < 2 ^ 53) by lia.
    destruct M0 as [|M|M] eqn:EM; try lia.
    exists (Zpos s), (Zpos M), M, (e + Zpos s).
    split; [exact Hs|]. split; [exact Herr|].
    rewrite (Zdigits2_unique (Zpos M) 53) by lia.
    rewrite fexp_binary64.
    replace (Z.max (53 + (e + Zpos s) - 53) (-1074) - (e + Zpos s)) with 0 by lia.
    cbn [shr shr_record_of_loc shr_m].
    destruct (Z.leb_spec (e + Zpos s) (emax - prec)) as [_|Hbad];
      [|unfold emax, prec in Hbad; lia].
    split; [reflexivity|]. left. split; [reflexivity | lia].
Qed.

(** Below [2^53] the exponent of the product is negative: [int()] divides
    the rounded mantissa by a power of 2. *)
Lemma mul_0_3_rounding m1 e1 :
  Zdigits2 (Zpos m1) = 53 -> -52 <= e1 <= 0 ->
  let P := Zpos m1 * 5404319552844595 in
  exists s M0,
    (s = 52 /\ P < 2 ^ 105 \/ s = 53 /\ 2 ^ 105 <= P) /\
    - 2 ^ s <= 2 * (M0 * 2 ^ s - P) <= 2 ^ s /\
    int_of_float (SFmul prec emax (S754_finite false m1 e1) float_0_3)
      = Ok (M0 / 2 ^ (54 - e1 - s)).
Proof.
  intros Hd He P.
  destruct (mul_0_3_float m1 e1 Hd ltac:(lia)) as (s & M0 & M & E & Hs & Herr & Hmul & Hres).
  fold P in Hs, Herr.
  exists s, M0. split; [exact Hs|]. split; [exact Herr|].
  rewrite Hmul. cbn [int_of_float cond_Zopp].
  assert (Hs' : s = 52 \/ s = 53) by (destruct Hs as [[-> _] | [-> _]]; auto).
  destruct Hres as [(HM & ->) | (HM0 & HM & ->)].
  - rewrite Z.shiftl_div_pow2 by lia. rewrite HM. do 3 f_equal. lia.
  - rewrite Z.shiftl_div_pow2 by lia. rewrite HM, HM0. f_equal.
    replace (2 ^ (54 - e1 - s)) with (2 * 2 ^ (- (e1 - 54 + s + 1))).
    2:{ rewrite <- Z.pow_succ_r by lia. f_equal. lia. }
    change (2 ^ 53) with (2 * 2 ^ 52).
    rewrite Z.div_mul_cancel_l; [reflexivity | | lia].
    apply Z.pow_nonzero; lia.
Qed.

(** The integer arithmetic behind [int(n * 0.3)]: with [10 * mantissa(0.3)
    = 3 * 2^54 - 2], a product rounded within half a unit of its last
    digit truncates to [3 * n / 10]. *)
Lemma scale_arith n T S U M0 :
  0 < n ->
  (T = 1 \/ T = 2 \/ 4 <= T) ->
  2 ^ 52 <= n * T < 2 ^ 53 ->
  (S = 2 ^ 52 /\ n * T * 5404319552844595 < 2 ^ 105 \/
   S = 2 ^ 53 /\ 2 ^ 105 <= n * T * 5404319552844595) ->
  (T = 1 -> n * T * 5404319552844595 < 2 ^ 105) ->
  S * U = T * 2 ^ 54 ->
  - S <= 2 * (M0 * S - n * T * 5404319552844595) <= S ->
  M0 / U = 3 * n / 10.
Proof.
  intros Hn HT Hm1 HS HT1 HSU Herr.
  pose proof (Z.div_mod (3 * n) 10 ltac:(lia)) as Hq.
  pose proof (Z.mod_pos_bound (3 * n) 10 ltac:(lia)) as Hr.
  set (q := 3 * n / 10) in *. set (r := (3 * n) mod 10) in *.
  assert (HqT : 3 * (n * T) = 10 * (q * T) + r * T).
  { replace (3 * (n * T)) with (3 * n * T) by ring. rewrite Hq. ring. }
  assert (HrT : 0 <= r * T <= 9 * T) by nia.
  assert (Hq0 : 0 <= q) by (apply Z.div_pos; lia).
  symmetry. apply Z.div_unique with (M0 - U * q); [|ring].
  left.
  change (2 ^ 52) with 4503599627370496 in *.
  change (2 ^ 53) with 9007199254740992 in *.
  change (2 ^ 54) with 18014398509481984 in *.
  change (2 ^ 105) with 40564819207303340847894502572032 in *.
  set (m1 := n * T) in *. set (qT := q * T) in *. set (rT := r * T) in *.
  destruct HS as [[-> HP] | [-> HP]].
  - assert (U = 4 * T) by lia. subst U.
    replace (4 * T * q) with (4 * qT) by (subst qT; ring).
    lia.
  - assert (U = 2 * T) by lia. subst U.
    replace (2 * T * q) with (2 * qT) by (subst qT; ring).
    destruct HT as [-> | [-> | HT]]; [specialize (HT1 eq_refl) | |]; lia.
Qed.

(** [int(n * 0.3)] is [3 * n // 10] up to [n = 7505999378950826], the
    last [n] whose product with the mantissa of [0.3] stays below [2^105]. *)
Lemma heal_amount_small n :
  0 < n <= 7505999378950826 ->
  heal_amount n = Ok (if 3 * n / 10 <=? 0 then 1 else 3 * n / 10).
Proof.
  intros Hn.
  assert (Hn53 : 0 < n < 2 ^ 53) by lia.
  destruct (binary_normalize_small n Hn53) as (m & Hfl & Hm & Hdig & Hk).
  set (k := Zdigits2 n) in *.
  unfold heal_amount, int_mul_float, float_of_int. rewrite Hfl.
  unfold HEAL_PERCENT.
  destruct (mul_0_3_rounding m (k - 53) Hdig ltac:(lia)) as (s & M0 & Hs & Herr & Hint).
  rewrite Hint. do 2 f_equal.
  assert (Hdiv : M0 / 2 ^ (54 - (k - 53) - s) = 3 * n / 10); [|now rewrite Hdiv].
  pose proof (digits_53_bounds m Hdig) as Hmb.
  rewrite Hm in Herr, Hs, Hmb.
  apply scale_arith with (T := 2 ^ (53 - k)) (S := 2 ^ s).
  - lia.
  - destruct (Z.eq_dec k 53) as [->|]; [now left|].
    destruct (Z.eq_dec k 52) as [->|]; [right; now left|].
    right; right. change 4 with (2 ^ 2). apply Z.pow_le_mono_r; lia.
  - exact Hmb.
  - destruct Hs as [[-> HP] | [-> HP]]; [left | right]; split; (reflexivity || exact HP).
  - intros HT. rewrite HT. lia.
  - rewrite <- Z.pow_add_r by lia.
    replace (2 ^ (53 - k) * 2 ^ 54) with (2 ^ (53 - k + 54)) by (rewrite Z.pow_add_r by lia; ring).
    f_equal. lia.
  - exact Herr.
Qed.

(** [float(n)] from [2^53] on: [n] is shifted down to 53 digits and
    rounded; a carry into a 54th digit costs one more shift. *)
Lemma binary_normalize_shift n :
  2 ^ 53 <= n ->
  exists (s : positive) M0,
    Zpos s = Zdigits2 n - 53 /\ 2 ^ 52 <= M0 <= 2 ^ 53 /\
    - 2 ^ Zpos s <= 2 * (M0 * 2 ^ Zpos s - n) <= 2 ^ Zpos s /\
    (2 * (M0 * 2 ^ Zpos s - n) = - 2 ^ Zpos s -> Z.even M0 = true) /\
    binary_normalize prec emax n 0 false =
      if M0 =? 2 ^ 53
      then (if Zpos s + 1 <=? 971
            then S754_finite false 4503599627370496 (Zpos s + 1)
            else S754_infinity false)
      else (if Zpos s <=? 971
            then S754_finite false (Z.to_pos M0) (Zpos s)
            else S754_infinity false).
Proof.
  intros Hn. destruct n as [|p|p]; try lia.
  pose proof (digits2_pos_bounds p) as Hp.
  cbn [Zdigits2 binary_normalize]. set (k := Zpos (digits2_pos p)) in *.
  assert (Hk : 54 <= k).
  { destruct (Z_le_gt_dec 54 k); [assumption|].
    assert (2 ^ k <= 2 ^ 53) by (apply Z.pow_le_mono_r; lia). lia. }
  destruct (k - 53) as [|s|s] eqn:Es; try lia.
  exists s.
  assert (Hpos : 0 <= Zpos p) by lia.
  destruct (round_after_shr (Zpos p) s Hpos) as (Hquo & HM & Herr & Htie).
  set (rec := SpecFloat.iter_pos shr_1 s {| shr_m := Zpos p; shr_r := false; shr_s := false |}) in *.
  set (M0 := round_nearest_even (shr_m rec) (loc_of_shr_record rec)) in *.
  exists M0.
  assert (Hquo_b : 2 ^ 52 <= Zpos p / 2 ^ Zpos s < 2 ^ 53).
  { assert (Hs1 : 2 ^ (k - 1) = 2 ^ 52 * 2 ^ Zpos s).
    { rewrite <- Z.pow_add_r by lia. f_equal. lia. }
    assert (Hs2 : 2 ^ k = 2 ^ 53 * 2 ^ Zpos s).
    { rewrite <- Z.pow_add_r by lia. f_equal. lia. }
    assert (0 < 2 ^ Zpos s) by (apply Z.pow_pos_nonneg; lia).
    split; [apply Z.div_le_lower_bound; lia | apply Z.div_lt_upper_bound; lia]. }
  split; [reflexivity|]. split; [lia|]. split; [exact Herr|].
  split; [intros H; apply Htie; now right|].
  unfold binary_round. fold k. rewrite fexp_binary64.
  replace (Z.max (k + 0 - 53) (-1074)) with (Zpos s) by lia.
  unfold shl_align. replace (Zpos s - 0) with (Zpos s) by lia. cbv beta iota.
  unfold binary_round_aux. unfold shr_fexp at 1.
  change (Zdigits2 (Zpos p)) with k. rewrite fexp_binary64.
  replace (Z.max (k + 0 - 53) (-1074) - 0) with (Zpos s) by lia.
  cbn [shr shr_record_of_loc]. fold rec. fold M0.
  unfold shr_fexp.
  destruct (Z.eqb_spec M0 (2 ^ 53)) as [E|E].
  - rewrite E. change (Zdigits2 (2 ^ 53)) with 54. rewrite fexp_binary64.
    replace (Z.max (54 + (0 + Zpos s) - 53) (-1074) - (0 + Zpos s)) with 1 by lia.
    cbn [shr shr_record_of_loc SpecFloat.iter_pos].
    change (shr_1 {| shr_m := 2 ^ 53; shr_r := false; shr_s := false |})
      with {| shr_m := 2 ^ 52; shr_r := false; shr_s := false |}.
    cbn [shr_m]. change (2 ^ 52) with (Zpos 4503599627370496) at 1.
    cbv beta iota. change (emax - prec) with 971.
    replace (0 + Zpos s + 1) with (Zpos s + 1) by lia. reflexivity.
  - assert (HM0 : 2 ^ 52 <= M0 < 2 ^ 53) by lia.
    destruct M0 as [|M|M] eqn:EM; try lia.
    rewrite (Zdigits2_unique (Zpos M) 53) by lia.
    rewrite fexp_binary64.
    replace (Z.max (53 + (0 + Zpos s) - 53) (-1074) - (0 + Zpos s)) with 0 by lia.
    cbn [shr shr_record_of_loc shr_m]. change (emax - prec) with 971.
    replace (0 + Zpos s) with (Zpos s) by lia. reflexivity.
Qed.

Lemma pow2_1024 : 2 ^ 1024 = 2 ^ 53 * 2 ^ 971.
Proof. now rewrite <- Z.pow_add_r by lia. Qed.

Lemma pow2_971 : 2 ^ 971 = 2 * 2 ^ 970.
Proof. now rewrite <- Z.pow_succ_r by lia. Qed.

(** [float(n)] is finite below [2^1024 - 2^970], *)
Lemma binary_normalize_large n :
  2 ^ 53 <= n < 2 ^ 1024 - 2 ^ 970 ->
  exists m e, binary_normalize prec emax n 0 false = S754_finite false m e /\
              Zdigits2 (Zpos m) = 53 /\ 1 <= e <= 971.
Proof.
  intros [Hlo Hhi].
  destruct (binary_normalize_shift n Hlo) as (s & M0 & Hs & HM0 & Herr & _ & ->).
  assert (Hk : Zdigits2 n <= 1024).
  { destruct n as [|p|p]; try lia. pose proof (digits2_pos_bounds p) as Hp.
    cbn [Zdigits2]. set (k := Zpos (digits2_pos p)) in *.
    destruct (Z_le_gt_dec k 1024); [assumption|].
    assert (2 ^ 1024 <= 2 ^ (k - 1)) by (apply Z.pow_le_mono_r; lia).
    assert (0 < 2 ^ 970) by (apply Z.pow_pos_nonneg; lia). lia. }
  destruct (Z.eqb_spec M0 (2 ^ 53)) as [E|E].
  - destruct (Z.leb_spec (Zpos s + 1) 971) as [Hle|Hgt].
    + eexists _, _. split; [reflexivity|]. split; [reflexivity | lia].
    + exfalso. assert (Zpos s = 971) as Hs971 by lia.
      rewrite Hs971, E in Herr. 
      pose proof pow2_1024. pose proof pow2_971.
      assert (0 < 2 ^ 970) by (apply Z.pow_pos_nonneg; lia). lia.
  - destruct (Z.leb_spec (Zpos s) 971) as [Hle|Hgt]; [|lia].
    assert (HM0' : 2 ^ 52 <= M0 < 2 ^ 53) by lia.
    destruct M0 as [|M|M]; try lia.
    eexists _, _. split; [reflexivity|]. cbn [Z.to_pos].
    split; [apply Zdigits2_unique; lia | lia].
Qed.

(** and [OverflowError] from there on. *)
Lemma float_of_int_overflow n :
  2 ^ 1024 - 2 ^ 970 <= n ->
  float_of_int n = Raise (OverflowError "int too large to convert to float").
Proof.
  intros Hn.
  pose proof pow2_1024 as H1024. pose proof pow2_971 as H971.
  assert (H970 : 0 < 2 ^ 970) by (apply Z.pow_pos_nonneg; lia).
  assert (H53 : 2 ^ 53 = 9007199254740992) by reflexivity.
  assert (Hlo : 2 ^ 53 <= n) by nia.
  destruct (binary_normalize_shift n Hlo) as (s & M0 & Hs & HM0 & Herr & Htie & Heq).
  unfold float_of_int. rewrite Heq. clear Heq.
  assert (Hk : 1024 <= Zdigits2 n).
  { destruct n as [|p|p]; try lia. pose proof (digits2_pos_bounds p) as Hp.
    cbn [Zdigits2]. set (k := Zpos (digits2_pos p)) in *.
    destruct (Z_le_gt_dec 1024 k); [assumption|].
    assert (2 ^ k <= 2 ^ 1023) by (apply Z.pow_le_mono_r; lia).
    assert (2 ^ 1024 = 2 * 2 ^ 1023) by (now rewrite <- Z.pow_succ_r by lia).
    assert (2 ^ 1023 = 2 ^ 53 * 2 ^ 970) by (now rewrite <- Z.pow_add_r by lia).
    nia. }
  destruct (Z.eqb_spec M0 (2 ^ 53)) as [E|E].
  - destruct (Z.leb_spec (Zpos s + 1) 971); [lia | reflexivity].
  - destruct (Z.leb_spec (Zpos s) 971) as [Hle|]; [|reflexivity].
    exfalso. assert (Zpos s = 971) as Hs971 by lia.
    rewrite Hs971 in Herr, Htie.
    assert (HM : M0 = 2 ^ 53 - 1) by nia.
    assert (Hn' : n = 2 ^ 1024 - 2 ^ 970) by nia.
    assert (Hev : Z.even M0 = true) by (apply Htie; nia).
    rewrite HM in Hev. discriminate Hev.
Qed.

(** [int(n * 0.3)] is computable for every positive [n] below
    [2^1024 - 2^970]. *)
Lemma heal_amount_defined n :
  0 < n < 2 ^ 1024 - 2 ^ 970 -> exists a, heal_amount n = Ok a.
Proof.
  intros Hn.
  assert (Hfl : exists m e, binary_normalize prec emax n 0 false = S754_finite false m e /\
                            Zdigits2 (Zpos m) = 53 /\ -52 <= e <= 971).
  { destruct (Z_lt_le_dec n (2 ^ 53)) as [Hs|Hl].
    - destruct (binary_normalize_small n ltac:(lia)) as (m & Hfl & _ & Hd & Hk).
      eexists _, _. split; [exact Hfl|]. split; [exact Hd | lia].
    - destruct (binary_normalize_large n ltac:(lia)) as (m & e & Hfl & Hd & He).
      eexists _, _. split; [exact Hfl|]. split; [exact Hd | lia]. }
  destruct Hfl as (m & e & Hfl & Hd & He).
  destruct (mul_0_3_float m e Hd He) as (s & M0 & M & E & _ & _ & Hmul & _).
  unfold heal_amount, int_mul_float, float_of_int. rewrite Hfl.
  unfold HEAL_PERCENT. rewrite Hmul. cbn [int_of_float]. eauto.
Qed.

Lemma heal_amount_overflow n :
  2 ^ 1024 - 2 ^ 970 <= n ->
  heal_amount n = Raise (OverflowError "int too large to convert to float").
Proof.
  intros Hn. unfold heal_amount, int_mul_float.
  now rewrite float_of_int_overflow.
Qed.

(** ** The heals of a player *)

(** Calls other than [heal] on [r] keep what the heals of [r] depend on. *)
Lemma run_op_keeps_player r c o w :
  o <> OHeal r -> heap w !! r = Some c ->
  exists c', heap (run_op o w) !! r = Some c' /\ same_stats c c' /\
             _heals_used c' = _heals_used c.
Proof.
  intros Hne Hr.
  destruct (proj1 (run_op_frame w o) r c Hr) as (c' & Hc' & Hs).
  exists c'. split; [exact Hc'|]. split; [exact Hs|].
  destruct o as [self v | self | self other].
  - destruct (proj1 (proj2 (run_op_frame w _)) self v r c eq_refl Hr) as (c2 & Hc2 & Hu & _).
    congruence.
  - assert (r <> self) as Hrs by congruence.
    pose proof (proj1 (proj2 (proj2 (run_op_frame w _))) self r eq_refl Hrs) as Hl.
    congruence.
  - destruct (proj1 (proj2 (proj2 (proj2 (run_op_frame w _)))) self other r c eq_refl Hr)
      as (c2 & Hc2 & Hu & _).
    congruence.
Qed.

Lemma run_ops_keeps_player r c ops w :
  Forall (fun o => o <> OHeal r) ops -> heap w !! r = Some c ->
  exists c', heap (run_ops ops w) !! r = Some c' /\ same_stats c c' /\
             _heals_used c' = _heals_used c.
Proof.
  intros HF. revert w c. induction HF as [|o ops Ho HF IH]; intros w c Hr.
  - exists c. cbn. auto with game.
  - cbn. destruct (run_op_keeps_player r c o w Ho Hr) as (c1 & H1 & S1 & U1).
    destruct (IH _ _ H1) as (c2 & H2 & S2 & U2).
    exists c2. split; [exact H2|]. split; [eapply same_stats_trans; eassumption|].
    congruence.
Qed.

Lemma healer_run_ops r k mh ops w :
  Forall (fun o => o <> OHeal r) ops -> healer r k mh w -> healer r k mh (run_ops ops w).
Proof.
  intros HF (c & Hr & Hc & Hk & Hm).
  destruct (run_ops_keeps_player r c ops w HF Hr) as (c' & Hr' & (S1 & _ & _ & _ & S5 & _) & Hu).
  exists c'. repeat split; congruence.
Qed.

Lemma healer_heal_ok r k mh a w :
  healer r k mh w -> alive_at r w -> k < MAX_HEALS -> heal_amount mh = Ok a ->
  is_ok (fst (heal r w)) = true /\ healer r (k + 1) mh (snd (heal r w)).
Proof.
  intros (c & Hr & Hc & Hk & Hm) (c0 & Hr0 & Hal) Hlt Ha.
  rewrite Hr in Hr0. injection Hr0 as <-.
  rewrite (heal_player w r c k Hr Hc Hk), Hal. cbn [negb].
  destruct (Z.leb_spec MAX_HEALS k); [lia|].
  rewrite Hm, Ha. cbn. split; [reflexivity|].
  eexists. split; [apply lookup_insert_eq|]. now cbn.
Qed.

Lemma healer_heal_exhausted r k mh w :
  healer r k mh w -> MAX_HEALS <= k ->
  is_argument_error (fst (heal r w)) = true /\ snd (heal r w) = w.
Proof.
  intros (c & Hr & Hc & Hk & Hm) Hge.
  rewrite (heal_player w r c k Hr Hc Hk).
  destruct (negb (alive c)); [now split|].
  destruct (Z.leb_spec MAX_HEALS k); [now split | lia].
Qed.

(** C6 as the specification has it does not hold for a player whose
    [max_health] does not fit a double: [Player("Titan", 10, 8,
    2**1024 - 2**970, (5, 12))] is alive and has used no heal, and its first
    [heal()] raises [OverflowError]. *)
Lemma C6_counterexample_overflow :
  exists r w1,
    Player (VStr "Titan") (VInt 10) (VInt 8) (VInt (2 ^ 1024 - 2 ^ 970))
      (VTuple [VInt 5; VInt 12]) (empty_world 0) = (Ok r, w1) /\
    is_alive r w1 = (Ok true, w1) /\
    heal r w1 = (Raise (OverflowError "int too large to convert to float"), w1).
Proof.
  exists 1%positive.
  exists (snd (Player (VStr "Titan") (VInt 10) (VInt 8) (VInt (2 ^ 1024 - 2 ^ 970))
                 (VTuple [VInt 5; VInt 12]) (empty_world 0))).
  split; [vm_compute; reflexivity|].
  split; vm_compute; reflexivity.
Qed.

(** C6, as the code has it: on a player built with a [max_health] below
    [2^1024 - 2^970], the integers that convert to a double, the first four
    calls of [heal()], each made while the player is alive, return, whatever
    other calls are made before and in between; the fifth call raises
    [ArgumentError], alive or not.  [heal()] on a dead player raises
    [ArgumentError]. *)
Theorem C6_four_heals
    (v_name v_attack v_defense v_max_health v_damage_range : pyval)
    (w wc : world) (r : ref) (mh : Z) (I0 I1 I2 I3 I4 : list op) :
  Player v_name v_attack v_defense v_max_health v_damage_range w = (Ok r, wc) ->
  as_int v_max_health = Some mh -> mh < 2 ^ 1024 - 2 ^ 970 ->
  Forall (fun o => o <> OHeal r) I0 ->
  Forall (fun o => o <> OHeal r) I1 -> Forall (fun o => o <> OHeal r) I2 ->
  Forall (fun o => o <> OHeal r) I3 -> Forall (fun o => o <> OHeal r) I4 ->
  let w0 := run_ops I0 wc in
  let h1 := heal r w0 in
  let w1 := run_ops I1 (snd h1) in
  let h2 := heal r w1 in
  let w2 := run_ops I2 (snd h2) in
  let h3 := heal r w2 in
  let w3 := run_ops I3 (snd h3) in
  let h4 := heal r w3 in
  let w4 := run_ops I4 (snd h4) in
  let h5 := heal r w4 in
  (alive_at r w0 -> alive_at r w1 -> alive_at r w2 -> alive_at r w3 ->
     is_ok (fst h1) = true /\ is_ok (fst h2) = true /\
     is_ok (fst h3) = true /\ is_ok (fst h4) = true /\
     is_argument_error (fst h5) = true) /\
  (forall w' c k, heap w' !! r = Some c -> cls c = CPlayer -> _heals_used c = Some k ->
     alive c = false ->
     heal r w' = (Raise (ArgumentError "dead player cannot heal"), w')).
Proof.
  intros Hnew Hvm Hbound F0 F1 F2 F3 F4 w0 h1 w1 h2 w2 h3 w3 h4 w4 h5.
  assert (healer r 0 mh wc /\ 0 < mh) as [Hp Hpos].
  { change (Player v_name v_attack v_defense v_max_health v_damage_range)
      with (construct CPlayer v_name v_attack v_defense v_max_health v_damage_range) in Hnew.
    apply construct_ok in Hnew as (c & _ & -> & Hc & _ & Hv & Hu & Hm).
    rewrite Hvm in Hm. injection Hm as ->.
    split; [|destruct Hv as (_ & _ & Hv & _); exact Hv].
    exists c. split; [cbn; apply lookup_insert_eq|]. auto. }
  destruct (heal_amount_defined mh ltac:(lia)) as [a Ha]. split.
  - intros A0 A1 A2 A3.
    apply (healer_run_ops r _ mh I0 _ F0) in Hp. fold w0 in Hp.
    destruct (healer_heal_ok r 0 mh a w0 Hp A0 ltac:(unfold MAX_HEALS; lia) Ha) as [O1 P1].
    apply (healer_run_ops r _ mh I1 _ F1) in P1. fold h1 w1 in O1, P1.
    destruct (healer_heal_ok r _ mh a w1 P1 A1 ltac:(unfold MAX_HEALS; lia) Ha) as [O2 P2].
    apply (healer_run_ops r _ mh I2 _ F2) in P2. fold h2 w2 in O2, P2.
    destruct (healer_heal_ok r _ mh a w2 P2 A2 ltac:(unfold MAX_HEALS; lia) Ha) as [O3 P3].
    apply (healer_run_ops r _ mh I3 _ F3) in P3. fold h3 w3 in O3, P3.
    destruct (healer_heal_ok r _ mh a w3 P3 A3 ltac:(unfold MAX_HEALS; lia) Ha) as [O4 P4].
    apply (healer_run_ops r _ mh I4 _ F4) in P4. fold h4 w4 in O4, P4.
    destruct (healer_heal_exhausted r _ mh w4 P4 ltac:(unfold MAX_HEALS; lia)) as [E5 _].
    auto.
  - intros w' c k Hr Hc Hk Hd. now rewrite (heal_player w' r c k Hr Hc Hk), Hd.
Qed.

Lemma C6_four_heals_witness :
  let wc := snd (Player (VStr "Hero") (VInt 10) (VInt 10) (VInt 100)
                   (VTuple [VInt 1; VInt 6]) (arena 4)) in
  let I0 := [OTakeDamage 3 (VInt 50)] in
  let I1 := [OAttack 2 (VObj 3%positive)] in
  let I2 := [OTakeDamage 3 (VInt 20); OHeal 1] in
  let w0 := run_ops I0 wc in
  let w1 := run_ops I1 (snd (heal 3 w0)) in
  let w2 := run_ops I2 (snd (heal 3 w1)) in
  let w3 := run_ops [] (snd (heal 3 w2)) in
  let w4 := run_ops [] (snd (heal 3 w3)) in
  Player (VStr "Hero") (VInt 10) (VInt 10) (VInt 100) (VTuple [VInt 1; VInt 6]) (arena 4)
    = (Ok 3%positive, wc) /\
  100 < 2 ^ 1024 - 2 ^ 970 /\
  is_ok (fst (heal 3 w0)) = true /\ is_ok (fst (heal 3 w1)) = true /\
  is_ok (fst (heal 3 w2)) = true /\ is_ok (fst (heal 3 w3)) = true /\
  is_argument_error (fst (heal 3 w4)) = true.
Proof.
  intros wc I0 I1 I2 w0 w1 w2 w3 w4.
  assert (Hnew : Player (VStr "Hero") (VInt 10) (VInt 10) (VInt 100)
                   (VTuple [VInt 1; VInt 6]) (arena 4) = (Ok 3%positive, wc))
    by (vm_compute; reflexivity).
  assert (Hb : 100 < 2 ^ 1024 - 2 ^ 970) by (vm_compute; reflexivity).
  split; [exact Hnew|]. split; [exact Hb|].
  assert (F0 : Forall (fun o => o <> OHeal 3) I0) by (repeat constructor; discriminate).
  assert (F1 : Forall (fun o => o <> OHeal 3) I1) by (repeat constructor; discriminate).
  assert (F2 : Forall (fun o => o <> OHeal 3) I2) by (repeat constructor; discriminate).
  assert (F3 : Forall (fun o => o <> OHeal 3) []) by constructor.
  apply (proj1 (C6_four_heals _ _ _ _ _ _ _ _ 100 I0 I1 I2 [] [] Hnew eq_refl Hb
                  F0 F1 F2 F3 F3)).
  - eexists. split; [vm_compute; reflexivity | reflexivity].
  - eexists. split; [vm_compute; reflexivity | reflexivity].
  - eexists. split; [vm_compute; reflexivity | reflexivity].
  - eexists. split; [vm_compute; reflexivity | reflexivity].
Defined.

(** C7 as the specification has it does not hold for a full-health player
    whose [max_health] does not fit a double: [heal()] raises
    [OverflowError] instead of returning 0, and the heal is not used up. *)
Lemma C7_counterexample_overflow :
  exists r w1 c,
    Player (VStr "Colossus") (VInt 30) (VInt 30) (VInt (10 ^ 400)) (VTuple [VInt 1; VInt 6])
      (empty_world 0) = (Ok r, w1) /\
    heap w1 !! r = Some c /\ alive c = true /\ health c = max_health c /\
    _heals_used c = Some 0 /\
    fst (heal r w1) = Raise (OverflowError "int too large to convert to float") /\
    heap (snd (heal r w1)) !! r = Some c.
Proof.
  exists 1%positive.
  exists (snd (Player (VStr "Colossus") (VInt 30) (VInt 30) (VInt (10 ^ 400))
                 (VTuple [VInt 1; VInt 6]) (empty_world 0))).
  eexists.
  split; [vm_compute; reflexivity|].
  split; [vm_compute; reflexivity|].
  repeat split; vm_compute; reflexivity.
Qed.

(** C7, as the code has it: on a live player with heals left, at full
    health and with a [max_health] below [2^1024 - 2^970], the integers that
    convert to a double, [heal()] returns 0, not a positive integer, and
    still adds 1 to [_heals_used], the other attributes staying as they
    were.  Every [heal()] that returns, whatever it restores, adds exactly 1
    to [_heals_used] and returns the difference between the new health and
    the old one. *)
Theorem C7_heal_at_full_health (w : world) (r : ref) (c : creature) (k : Z) :
  heap w !! r = Some c -> cls c = CPlayer -> _heals_used c = Some k ->
  (alive c = true -> k < MAX_HEALS -> max_health c < 2 ^ 1024 - 2 ^ 970 ->
   health c = max_health c ->
   heal r w = (Ok 0, with_heap w (<[r := set_heals_used c (k + 1)]> (heap w)))) /\
  (forall res w', heal r w = (Ok res, w') ->
     exists c', heap w' !! r = Some c' /\ _heals_used c' = Some (k + 1) /\
                res = health c' - health c /\ same_stats c c').
Proof.
  intros Hr Hc Hk. rewrite (heal_player w r c k Hr Hc Hk). split.
  - intros Hal Hlt Hmh Hfull.
    assert (Hpos : 0 < max_health c).
    { unfold alive in Hal. apply Z.ltb_lt in Hal. lia. }
    destruct (heal_amount_defined (max_health c) ltac:(lia)) as [a Ha]. clear Hpos.
    rewrite Hal. cbn [negb].
    destruct (Z.leb_spec MAX_HEALS k); [lia|].
    rewrite Ha. cbv zeta.
    pose proof (heal_amount_pos _ _ Ha) as Hpos.
    replace (Z.min (max_health c) (health c + a)) with (health c) by lia.
    rewrite Z.sub_diag. reflexivity.
  - intros res w'. destruct (negb (alive c)); [discriminate|].
    destruct (MAX_HEALS <=? k); [discriminate|].
    destruct (heal_amount (max_health c)) as [x|e]; [|discriminate].
    cbv zeta. intros [= <- <-]. eexists. split; [apply lookup_insert_eq|].
    cbn. repeat split.
Qed.

Lemma C7_heal_at_full_health_witness :
  heap (arena 0) !! 1%positive = Some hero /\
  heal 1 (arena 0) =
    (Ok 0, with_heap (arena 0) (<[1%positive := set_heals_used hero 1]> (heap (arena 0)))).
Proof.
  assert (H : heap (arena 0) !! 1%positive = Some hero) by (vm_compute; reflexivity).
  split; [exact H|].
  apply (proj1 (C7_heal_at_full_health (arena 0) 1 hero 0 H eq_refl eq_refl)).
  - reflexivity.
  - unfold MAX_HEALS. lia.
  - vm_compute. reflexivity.
  - reflexivity.
Defined.

(** ** The amount of a heal *)

(** [int(n * 0.3)] is [3 * n // 10] for every positive [n] below
    7505999378950833. *)
Lemma heal_amount_exact n :
  0 < n < 7505999378950833 ->
  heal_amount n = Ok (if 3 * n / 10 <=? 0 then 1 else 3 * n / 10).
Proof.
  intros Hn. destruct (Z_le_gt_dec n 7505999378950826) as [Hle|Hgt].
  - apply heal_amount_small. lia.
  - assert (n = 7505999378950827 \/ n = 7505999378950828 \/ n = 7505999378950829 \/
            n = 7505999378950830 \/ n = 7505999378950831 \/ n = 7505999378950832)
      as [-> | [-> | [-> | [-> | [-> | ->]]]]] by lia;
      vm_compute; reflexivity.
Qed.

(** C3 as the specification has it does not hold at
    [max_health = 7505999378950833]: the double nearest to
    [max_health * 0.3] is the integer above [3 * max_health / 10], and a
    player down to 1 point of health is restored one point more than the
    exact arithmetic gives. *)
Lemma C3_counterexample_rounding :
  exists r w1 w2 c,
    Player (VStr "Hero") (VInt 10) (VInt 8) (VInt 7505999378950833) (VTuple [VInt 5; VInt 12])
      (empty_world 0) = (Ok r, w1) /\
    take_damage r (VInt 7505999378950832) w1 = (Ok tt, w2) /\
    heap w2 !! r = Some c /\ alive c = true /\ _heals_used c = Some 0 /\
    fst (heal r w2) = Ok 2251799813685250 /\
    Z.min (max_health c) (health c + 3 * max_health c / 10) - health c = 2251799813685249.
Proof.
  exists 1%positive.
  exists (snd (Player (VStr "Hero") (VInt 10) (VInt 8) (VInt 7505999378950833)
                 (VTuple [VInt 5; VInt 12]) (empty_world 0))).
  eexists. eexists.
  split; [vm_compute; reflexivity|].
  split; [vm_compute; reflexivity|].
  split; [vm_compute; reflexivity|].
  repeat split; vm_compute; reflexivity.
Qed.

(** C3, as the code has it: on a live player with heals left and a [max_health]
    below 7505999378950833, [heal()] computes [amount = floor(max_health *
    0.3)], which is [3 * max_health // 10], raised to 1 when it is 0, sets
    the health to [min(max_health, health + amount)] and returns the new
    health minus the old one, one more heal being used. *)
Theorem C3_heal_amount (w : world) (r : ref) (c : creature) (k : Z) :
  heap w !! r = Some c -> cls c = CPlayer -> _heals_used c = Some k ->
  alive c = true -> k < MAX_HEALS ->
  0 < max_health c < 7505999378950833 ->
  let amount := if 3 * max_health c / 10 <=? 0 then 1 else 3 * max_health c / 10 in
  let new_health := Z.min (max_health c) (health c + amount) in
  heal_amount (max_health c) = Ok amount /\
  heal r w =
    (Ok (new_health - health c),
     with_heap w (<[r := set_heals_used (set_health c new_health) (k + 1)]> (heap w))).
Proof.
  intros Hr Hc Hk Hal Hlt Hmh amount new_health.
  pose proof (heal_amount_exact (max_health c) Hmh) as Ha. fold amount in Ha.
  split; [exact Ha|].
  rewrite (heal_player w r c k Hr Hc Hk), Hal. cbn [negb].
  destruct (Z.leb_spec MAX_HEALS k); [lia|].
  now rewrite Ha.
Qed.

Lemma C3_heal_amount_witness :
  heap test_world !! 1%positive = Some test_hero /\
  alive test_hero = true /\
  heal_amount 100 = Ok 30 /\
  heal 1 test_world =
    (Ok 30, with_heap test_world
              (<[1%positive := set_heals_used (set_health test_hero 80) 1]> (heap test_world))).
Proof.
  assert (H : heap test_world !! 1%positive = Some test_hero) by (vm_compute; reflexivity).
  split; [exact H|]. split; [reflexivity|].
  apply (C3_heal_amount test_world 1 test_hero 0 H eq_refl eq_refl eq_refl).
  - unfold MAX_HEALS. lia.
  - cbn. lia.
Defined.

(** * Further properties of the code *)

(** ** Validation and construction *)

Lemma _check_stat_good nm v lo hi z w :
  as_int v = Some z -> lo <= z <= hi -> _check_stat nm v lo hi w = (Ok tt, w).
Proof.
  intros Hv Hz. unfold _check_stat. rewrite Hv.
  destruct (Z.leb_spec lo z), (Z.leb_spec z hi); try lia. reflexivity.
Qed.


Lemma _check_damage_range_good x y a b w :
  as_int x = Some a -> as_int y = Some b -> 1 <= a <= b ->
  _check_damage_range (VTuple [x; y]) w = (Ok (a, b), w).
Proof.
  intros Hx Hy Hab. unfold _check_damage_range. rewrite Hx, Hy.
  destruct (Z.ltb_spec a 1), (Z.ltb_spec b a); try lia. reflexivity.
Qed.

Lemma _check_damage_range_bad v w :
  ~ good_damage_range v ->
  exists msg, _check_damage_range v w = (Raise (ArgumentError ("damage_range " ++ msg)), w).
Proof.
  intros Hbad. unfold _check_damage_range.
  destruct v as [| | | | |l| |]; try (eexists; reflexivity).
  destruct l as [|x [|y [|? ?]]]; try (eexists; reflexivity).
  destruct (as_int x) as [a|] eqn:Hx; [|eexists; reflexivity].
  destruct (as_int y) as [b|] eqn:Hy; [|eexists; reflexivity].
  destruct (Z.ltb_spec a 1), (Z.ltb_spec b a); cbn; try (eexists; reflexivity).
  exfalso. apply Hbad. exists x, y, a, b. repeat split; auto; lia.
Qed.

Lemma classic_good_damage_range v : good_damage_range v \/ ~ good_damage_range v.
Proof.
  unfold good_damage_range.
  destruct v as [| | | | |l| |];
    try (right; intros (x0 & y0 & a0 & b0 & H & _); discriminate).
  destruct l as [|x [|y [|? ?]]];
    try (right; intros (x0 & y0 & a0 & b0 & H & _); discriminate).
  destruct (as_int x) as [a|] eqn:Hx;
    [|right; intros (x0 & y0 & a0 & b0 & [= <- <-] & H & _); congruence].
  destruct (as_int y) as [b|] eqn:Hy;
    [|right; intros (x0 & y0 & a0 & b0 & [= <- <-] & _ & H & _); congruence].
  destruct (Z_le_dec 1 a), (Z_le_dec a b);
    try (right; intros (x0 & y0 & a0 & b0 & [= <- <-] & Ha & Hb & Hab);
         rewrite Hx in Ha; rewrite Hy in Hb; injection Ha as <-; injection Hb as <-; lia).
  left. exists x, y, a, b. auto.
Qed.

(** The instance that [Creature.__init__] fills in from valid arguments. *)
Lemma Creature_init_valid k s va vd vm x y a d m lo hi w :
  s <> "" -> as_int va = Some a -> 1 <= a <= 30 ->
  as_int vd = Some d -> 1 <= d <= 30 ->
  as_int vm = Some m -> 0 < m ->
  as_int x = Some lo -> as_int y = Some hi -> 1 <= lo <= hi ->
  Creature_init k (VStr s) va vd vm (VTuple [x; y]) w =
    (Ok {| cls := k; name := s; attack := a; defense := d; max_health := m;
           health := m; damage_range := (lo, hi); _heals_used := None |}, w).
Proof.
  intros Hs Ha Ha' Hd Hd' Hm Hm' Hx Hy Hr. unfold Creature_init.
  unfold bind at 1. destruct (String.eqb_spec s ""); [contradiction|]. unfold ret at 1.
  unfold bind at 1. rewrite (_check_stat_good _ _ _ _ a) by assumption.
  unfold bind at 1. rewrite (_check_stat_good _ _ _ _ d) by assumption.
  unfold bind at 1. rewrite Hm. destruct (Z.leb_spec m 0); [lia|]. unfold ret at 1.
  unfold bind at 1. rewrite (_check_damage_range_good x y lo hi) by assumption.
  unfold ret. now rewrite Ha, Hd.
Qed.

Lemma construct_alloc k vn va vd vm vr w :
  construct k vn va vd vm vr w =
    match Creature_init k vn va vd vm vr w with
    | (Ok c, w') => alloc (if k is CPlayer then set_heals_used c 0 else c) w'
    | (Raise e, w') => (Raise e, w')
    end.
Proof. destruct k; reflexivity. Qed.

Lemma construct_accepts_iff
    (k : klass) (v_name v_attack v_defense v_max_health v_damage_range : pyval) (w : world) :
  is_ok (fst (construct k v_name v_attack v_defense v_max_health v_damage_range w)) = true
  <-> valid_args v_name v_attack v_defense v_max_health v_damage_range.
Proof.
  split.
  - intros H.
    destruct (construct k v_name v_attack v_defense v_max_health v_damage_range w)
      as [[r|e] w1] eqn:E; [|discriminate].
    rewrite construct_alloc in E.
    destruct (Creature_init k v_name v_attack v_defense v_max_health v_damage_range w)
      as [[c|e] w2] eqn:Ei; [|discriminate].
    clear E H. unfold Creature_init in Ei.
    apply bind_ok in Ei as (nm & w3 & H1 & Ei).
    assert (good_name v_name /\ w3 = w) as [Hn ->].
    { destruct v_name; try discriminate.
      destruct (String.eqb_spec s ""); [discriminate|].
      injection H1 as _ <-. split; [|reflexivity]. exists s. auto. }
    apply bind_ok in Ei as (u1 & w4 & H2 & Ei).
    apply _check_stat_ok in H2 as (-> & za & Hza & Ha).
    apply bind_ok in Ei as (u2 & w5 & H3 & Ei).
    apply _check_stat_ok in H3 as (-> & zd & Hzd & Hdf).
    apply bind_ok in Ei as (mh & w6 & H4 & Ei).
    assert (good_max_health v_max_health /\ w6 = w) as [Hm ->].
    { destruct (as_int v_max_health) as [z|] eqn:Hz; [|discriminate].
      destruct (Z.leb_spec z 0); [discriminate|]. injection H4 as _ <-.
      split; [|reflexivity]. exists z. auto. }
    apply bind_ok in Ei as (dr & w7 & H5 & Ei).
    assert (Hr : good_damage_range v_damage_range).
    { destruct (classic_good_damage_range v_damage_range) as [Hg|Hb]; [exact Hg|].
      destruct (_check_damage_range_bad v_damage_range w Hb) as [msg Hmsg].
      congruence. }
    repeat split; try assumption; eexists; eauto.
  - intros ((s & -> & Hs) & (a & Ha & Ha') & (d & Hd & Hd') & (m & Hm & Hm')
            & (x & y & lo & hi & -> & Hx & Hy & Hr)).
    rewrite construct_alloc.
    rewrite (Creature_init_valid k s v_attack v_defense v_max_health x y a d m lo hi)
      by assumption.
    reflexivity.
Qed.

(** X1: a constructor returns exactly when the name is a non-empty [str],
    attack and defense are instances of [int] in 1..30, [max_health] is a
    positive [int] and [damage_range] is a tuple of two [int]s
    [1 <= min <= max]. *)
Theorem X1_constructor_accepts_iff_valid
    (k : klass) (v_name v_attack v_defense v_max_health v_damage_range : pyval) (w : world) :
  is_ok (fst (construct k v_name v_attack v_defense v_max_health v_damage_range w)) = true
  <-> valid_args v_name v_attack v_defense v_max_health v_damage_range.
Proof. apply construct_accepts_iff. Qed.









(** X3: the object that a constructor returns is new: its reference was
    not in use, every object already in the store is left as it was and the
    random generator is not touched.  Its attributes are the arguments, its
    health is [max_health], and [_heals_used] is 0 on a [Player] and absent
    on the other classes. *)
Theorem X3_constructor_builds_fresh_object
    (k : klass) (v_name v_attack v_defense v_max_health v_damage_range : pyval)
    (w w1 : world) (r : ref) :
  construct k v_name v_attack v_defense v_max_health v_damage_range w = (Ok r, w1) ->
  heap w !! r = None /\ random w1 = random w /\
  (forall r', r' <> r -> heap w1 !! r' = heap w !! r') /\
  exists c,
    heap w1 !! r = Some c /\ cls c = k /\
    v_name = VStr (name c) /\
    as_int v_attack = Some (attack c) /\ as_int v_defense = Some (defense c) /\
    as_int v_max_health = Some (max_health c) /\ health c = max_health c /\
    (exists x y, v_damage_range = VTuple [x; y] /\
                 as_int x = Some (fst (damage_range c)) /\
                 as_int y = Some (snd (damage_range c))) /\
    _heals_used c = (if k is CPlayer then Some 0 else None).
Proof.
  intros H.
  assert (Hv : valid_args v_name v_attack v_defense v_max_health v_damage_range).
  { apply (construct_accepts_iff k _ _ _ _ _ w). now rewrite H. }
  destruct Hv as ((s & -> & Hs) & (a & Ha & Ha') & (d & Hd & Hd') & (m & Hm & Hm')
                  & (x & y & lo & hi & -> & Hx & Hy & Hr)).
  rewrite construct_alloc in H.
  rewrite (Creature_init_valid k s v_attack v_defense v_max_health x y a d m lo hi)
    in H by assumption.
  apply alloc_ok in H as (Hfresh & ->).
  split; [exact Hfresh|]. split; [reflexivity|].
  split; [intros r' Hne; cbn; now rewrite lookup_insert_ne by congruence|].
  eexists. split; [cbn; apply lookup_insert_eq|].
  destruct k; cbn; repeat split; eauto.
Qed.

Lemma X3_constructor_builds_fresh_object_witness :
  let w1 := snd (Player (VStr "Hero") (VInt 10) (VInt 8) (VInt 100)
                   (VTuple [VInt 5; VInt 12]) (arena 0)) in
  construct CPlayer (VStr "Hero") (VInt 10) (VInt 8) (VInt 100)
    (VTuple [VInt 5; VInt 12]) (arena 0) = (Ok 3%positive, w1) /\
  heap w1 !! 1%positive = Some hero /\ heap w1 !! 2%positive = Some goblin /\
  heap w1 !! 3%positive = Some hero.
Proof.
  intros w1.
  assert (H : construct CPlayer (VStr "Hero") (VInt 10) (VInt 8) (VInt 100)
                (VTuple [VInt 5; VInt 12]) (arena 0) = (Ok 3%positive, w1))
    by (vm_compute; reflexivity).
  split; [exact H|].
  destruct (X3_constructor_builds_fresh_object _ _ _ _ _ _ _ _ _ H)
    as (_ & _ & Hframe & _).
  split; [rewrite Hframe by discriminate; vm_compute; reflexivity|].
  split; [rewrite Hframe by discriminate; vm_compute; reflexivity|].
  vm_compute. reflexivity.
Defined.

(** ** Life, death and healing *)

Lemma wstep_dead w w' r c :
  wstep w w' -> heap w !! r = Some c -> alive c = false ->
  exists c', heap w' !! r = Some c' /\ alive c' = false.
Proof.
  intros Hstep Hr Hdead. unfold alive in *. apply Z.ltb_ge in Hdead.
  destruct Hstep as [g | r0 c0 d g H0 Hd | r0 c0 k a H0 Hc Hk Hal Hlt Ha].
  - exists c. split; [exact Hr|]. now apply Z.ltb_ge.
  - cbn. destruct (decide (r0 = r)) as [->|Hne].
    + rewrite lookup_insert_eq. rewrite Hr in H0. injection H0 as <-.
      eexists. split; [reflexivity|]. cbn. apply Z.ltb_ge. lia.
    + rewrite lookup_insert_ne by exact Hne. exists c. split; [exact Hr|].
      now apply Z.ltb_ge.
  - cbn. destruct (decide (r0 = r)) as [->|Hne].
    + rewrite Hr in H0. injection H0 as <-. unfold alive in Hal.
      apply Z.ltb_lt in Hal. lia.
    + rewrite lookup_insert_ne by exact Hne. exists c. split; [exact Hr|].
      now apply Z.ltb_ge.
Qed.

Lemma run_ops_dead ops w r c :
  heap w !! r = Some c -> alive c = false ->
  exists c', heap (run_ops ops w) !! r = Some c' /\ alive c' = false.
Proof.
  revert w c. induction ops as [|o ops IH]; intros w c Hr Hd.
  - exists c. now split.
  - cbn. destruct (wstep_dead w (run_op o w) r c (run_op_wstep o w) Hr Hd) as (c1 & H1 & D1).
    exact (IH _ _ H1 D1).
Qed.

(** X4: death is final.  Whatever calls of [take_damage], [heal] and
    [attack_target] follow, on whatever objects, a creature that is not
    alive stays not alive: no damage raises health and [heal] refuses a dead
    player. *)
Theorem X4_dead_stays_dead (w : world) (r : ref) (c : creature) (ops : list op) :
  heap w !! r = Some c -> alive c = false ->
  is_alive r (run_ops ops w) = (Ok false, run_ops ops w).
Proof.
  intros Hr Hd. destruct (run_ops_dead ops w r c Hr Hd) as (c' & Hr' & Hd').
  unfold is_alive, bind, deref, ret. now rewrite Hr', Hd'.
Qed.

Lemma X4_dead_stays_dead_witness :
  heap (arena_late 4) !! 2%positive = Some (set_health goblin 3) /\
  is_alive 2 (run_ops [OTakeDamage 2 (VInt 3); OHeal 2; OAttack 1 (VObj 2%positive);
                       OTakeDamage 2 (VInt 0)] (arena_late 4))
    = (Ok false, run_ops [OTakeDamage 2 (VInt 3); OHeal 2; OAttack 1 (VObj 2%positive);
                          OTakeDamage 2 (VInt 0)] (arena_late 4)).
Proof.
  split; [vm_compute; reflexivity|].
  change (run_ops [OTakeDamage 2 (VInt 3); OHeal 2; OAttack 1 (VObj 2%positive);
                   OTakeDamage 2 (VInt 0)] (arena_late 4))
    with (run_ops [OHeal 2; OAttack 1 (VObj 2%positive); OTakeDamage 2 (VInt 0)]
            (run_op (OTakeDamage 2 (VInt 3)) (arena_late 4))).
  apply (X4_dead_stays_dead _ 2 (set_health goblin 0)).
  - vm_compute. reflexivity.
  - reflexivity.
Defined.

Lemma heals_left_player w r c k :
  heap w !! r = Some c -> cls c = CPlayer -> _heals_used c = Some k ->
  heals_left r w = (Ok (Z.max 0 (MAX_HEALS - k)), w).
Proof.
  intros Hr Hc Hk. unfold heals_left, bind, deref, player_method, get_heals_used.
  now rewrite Hr, Hc, Hk.
Qed.

(** X5: [heals_left()] returns [max(0, MAX_HEALS - _heals_used)], never a
    negative number, and changes nothing.  On a live player whose
    [max_health] converts to a double, [heal()] returns exactly when
    [heals_left()] is positive, which is the guard of the driver. *)
Theorem X5_heals_left_guards_heal (w : world) (r : ref) (c : creature) (k : Z) :
  heap w !! r = Some c -> cls c = CPlayer -> _heals_used c = Some k ->
  heals_left r w = (Ok (Z.max 0 (MAX_HEALS - k)), w) /\
  0 <= Z.max 0 (MAX_HEALS - k) /\
  (alive c = true -> 0 < max_health c < 2 ^ 1024 - 2 ^ 970 ->
   (is_ok (fst (heal r w)) = true <-> 0 < Z.max 0 (MAX_HEALS - k))).
Proof.
  intros Hr Hc Hk. split; [now apply heals_left_player with c|]. split; [lia|].
  intros Hal Hmh. rewrite (heal_player w r c k Hr Hc Hk), Hal. cbn [negb].
  destruct (heal_amount_defined _ Hmh) as [a Ha]. rewrite Ha.
  unfold MAX_HEALS. destruct (Z.leb_spec 4 k); cbn; split; intros;
    try lia; try discriminate; reflexivity.
Qed.

Lemma X5_heals_left_guards_heal_witness :
  heap test_world !! 1%positive = Some test_hero /\
  heals_left 1 test_world = (Ok 4, test_world) /\
  is_ok (fst (heal 1 test_world)) = true.
Proof.
  assert (H : heap test_world !! 1%positive = Some test_hero) by (vm_compute; reflexivity).
  split; [exact H|].
  destruct (X5_heals_left_guards_heal test_world 1 test_hero 0 H eq_refl eq_refl)
    as (Hl & _ & Hiff).
  split; [exact Hl|].
  apply Hiff; [reflexivity | vm_compute; split; reflexivity | vm_compute; reflexivity].
Defined.

Lemma wstep_heals_used w w' r c k :
  wstep w w' -> heap w !! r = Some c -> _heals_used c = Some k -> 0 <= k <= MAX_HEALS ->
  exists c' k', heap w' !! r = Some c' /\ _heals_used c' = Some k' /\ k <= k' <= MAX_HEALS.
Proof.
  intros Hstep Hr Hk Hb.
  destruct Hstep as [g | r0 c0 d g H0 Hd | r0 c0 k0 a H0 Hc Hk0 Hal Hlt Ha].
  - exists c, k. cbn. repeat split; auto; lia.
  - cbn. destruct (decide (r0 = r)) as [->|Hne].
    + rewrite lookup_insert_eq. rewrite Hr in H0. injection H0 as <-.
      eexists _, k. split; [reflexivity|]. cbn. split; [exact Hk | lia].
    + rewrite lookup_insert_ne by exact Hne. exists c, k. repeat split; auto; lia.
  - cbn. destruct (decide (r0 = r)) as [->|Hne].
    + rewrite lookup_insert_eq. rewrite Hr in H0. injection H0 as <-.
      rewrite Hk in Hk0. injection Hk0 as <-.
      eexists _, (k + 1). split; [reflexivity|]. cbn. split; [reflexivity | lia].
    + rewrite lookup_insert_ne by exact Hne. exists c, k. repeat split; auto; lia.
Qed.

Lemma run_ops_heals_used ops w r c k :
  heap w !! r = Some c -> _heals_used c = Some k -> 0 <= k <= MAX_HEALS ->
  exists c' k', heap (run_ops ops w) !! r = Some c' /\ _heals_used c' = Some k' /\
                k <= k' <= MAX_HEALS.
Proof.
  revert w c k. induction ops as [|o ops IH]; intros w c k Hr Hk Hb.
  - exists c, k. cbn. repeat split; auto; lia.
  - cbn. destruct (wstep_heals_used w (run_op o w) r c k (run_op_wstep o w) Hr Hk Hb)
      as (c1 & k1 & H1 & U1 & B1).
    destruct (IH _ _ _ H1 U1 ltac:(lia)) as (c2 & k2 & H2 & U2 & B2).
    exists c2, k2. repeat split; auto; lia.
Qed.

(** X6: the counter of heals of a player starts at 0, never decreases and
    never exceeds [MAX_HEALS], whatever calls are made; so [heals_left()]
    is [MAX_HEALS] on a new player and always [MAX_HEALS - _heals_used],
    between 0 and 4. *)
Theorem X6_heals_used_bounded_monotone
    (v_name v_attack v_defense v_max_health v_damage_range : pyval)
    (w w1 : world) (r : ref) (ops1 ops2 : list op) :
  Player v_name v_attack v_defense v_max_health v_damage_range w = (Ok r, w1) ->
  (exists c0, heap w1 !! r = Some c0 /\ _heals_used c0 = Some 0 /\
              heals_left r w1 = (Ok MAX_HEALS, w1)) /\
  exists c1 c2 k1 k2,
    heap (run_ops ops1 w1) !! r = Some c1 /\ _heals_used c1 = Some k1 /\
    heap (run_ops ops2 (run_ops ops1 w1)) !! r = Some c2 /\ _heals_used c2 = Some k2 /\
    0 <= k1 <= k2 /\ k2 <= MAX_HEALS /\
    heals_left r (run_ops ops2 (run_ops ops1 w1))
      = (Ok (MAX_HEALS - k2), run_ops ops2 (run_ops ops1 w1)).
Proof.
  intros H.
  change (Player v_name v_attack v_defense v_max_health v_damage_range)
    with (construct CPlayer v_name v_attack v_defense v_max_health v_damage_range) in H.
  apply construct_ok in H as (c & _ & -> & Hc & _ & _ & Hu & _).
  assert (Hr : heap (with_heap w (<[r := c]> (heap w))) !! r = Some c)
    by (cbn; apply lookup_insert_eq).
  split.
  { exists c. split; [exact Hr|]. split; [exact Hu|].
    now rewrite (heals_left_player _ r c 0 Hr Hc Hu). }
  destruct (run_ops_heals_used ops1 _ r c 0 Hr Hu ltac:(unfold MAX_HEALS; lia))
    as (c1 & k1 & H1 & U1 & B1).
  destruct (run_ops_heals_used ops2 _ r c1 k1 H1 U1 ltac:(lia))
    as (c2 & k2 & H2 & U2 & B2).
  exists c1, c2, k1, k2. repeat split; auto; try lia.
  destruct (run_ops_lookup ops1 _ r c Hr) as (c1' & H1' & (S1 & _) & _).
  rewrite H1 in H1'. injection H1' as <-.
  destruct (run_ops_lookup ops2 _ r c1 H1) as (c2' & H2' & (S2 & _) & _).
  rewrite H2 in H2'. injection H2' as <-.
  rewrite (heals_left_player _ r c2 k2 H2 ltac:(congruence) U2).
  do 2 f_equal. lia.
Qed.

Lemma X6_heals_used_bounded_monotone_witness :
  let w1 := snd (Player (VStr "Hero") (VInt 10) (VInt 10) (VInt 100)
                   (VTuple [VInt 1; VInt 6]) (empty_world 0)) in
  Player (VStr "Hero") (VInt 10) (VInt 10) (VInt 100) (VTuple [VInt 1; VInt 6])
    (empty_world 0) = (Ok 1%positive, w1) /\
  heals_left 1 w1 = (Ok MAX_HEALS, w1) /\
  exists k2, heals_left 1 (run_ops [OHeal 1] (run_ops [OHeal 1; OHeal 1] w1))
             = (Ok (MAX_HEALS - k2), run_ops [OHeal 1] (run_ops [OHeal 1; OHeal 1] w1)).
Proof.
  intros w1.
  assert (H : Player (VStr "Hero") (VInt 10) (VInt 10) (VInt 100) (VTuple [VInt 1; VInt 6])
                (empty_world 0) = (Ok 1%positive, w1)) by (vm_compute; reflexivity).
  split; [exact H|].
  destruct (X6_heals_used_bounded_monotone _ _ _ _ _ _ _ _ [OHeal 1; OHeal 1] [OHeal 1] H)
    as ((c0 & _ & _ & Hl0) & c1 & c2 & k1 & k2 & _ & _ & _ & _ & _ & _ & Hl).
  split; [exact Hl0|]. exists k2. exact Hl.
Defined.

(** X7: a [heal()] that returns restores [min(amount, max_health - health)]
    points, where [amount] is the clamped [int(max_health * 0.3)]: it never
    lowers the health, never takes it above [max_health], and restores a
    positive number of points exactly when the player was below
    [max_health]. *)
Theorem X7_heal_restores_up_to_cap
    (w : world) (r : ref) (c : creature) (k res : Z) (w' : world) :
  heap w !! r = Some c -> cls c = CPlayer -> _heals_used c = Some k ->
  health_bounded c ->
  heal r w = (Ok res, w') ->
  exists c' amount,
    heap w' !! r = Some c' /\ heal_amount (max_health c) = Ok amount /\
    res = Z.min amount (max_health c - health c) /\
    health c' = health c + res /\
    health c <= health c' <= max_health c /\
    (0 < res <-> health c < max_health c).
Proof.
  intros Hr Hc Hk [Hlo Hhi] H. rewrite (heal_player w r c k Hr Hc Hk) in H.
  destruct (negb (alive c)); [discriminate|].
  destruct (MAX_HEALS <=? k); [discriminate|].
  destruct (heal_amount (max_health c)) as [a|e] eqn:Ha; [|discriminate].
  pose proof (heal_amount_pos _ _ Ha) as Hpos.
  cbv zeta in H. injection H as <- <-.
  eexists _, a. split; [cbn; apply lookup_insert_eq|]. split; [reflexivity|].
  cbn. repeat split; lia.
Qed.

Lemma X7_heal_restores_up_to_cap_witness :
  heap test_world !! 1%positive = Some test_hero /\
  heal 1 test_world = (Ok 30, snd (heal 1 test_world)) /\
  exists c', heap (snd (heal 1 test_world)) !! 1%positive = Some c' /\
             health c' = health test_hero + 30.
Proof.
  assert (H : heap test_world !! 1%positive = Some test_hero) by (vm_compute; reflexivity).
  assert (H2 : heal 1 test_world = (Ok 30, snd (heal 1 test_world)))
    by (vm_compute; reflexivity).
  split; [exact H|]. split; [exact H2|].
  destruct (X7_heal_restores_up_to_cap test_world 1 test_hero 0 30 _ H eq_refl eq_refl
              ltac:(unfold health_bounded; cbn; lia) H2)
    as (c' & a & Hc' & _ & _ & Hh & _).
  exists c'. split; [exact Hc' | exact Hh].
Defined.

Lemma wstep_non_player w w' r c :
  wstep w w' -> heap w !! r = Some c -> cls c <> CPlayer -> 0 <= health c ->
  exists c', heap w' !! r = Some c' /\ cls c' = cls c /\
             _heals_used c' = _heals_used c /\ 0 <= health c' <= health c.
Proof.
  intros Hstep Hr Hc Hh.
  destruct Hstep as [g | r0 c0 d g H0 Hd | r0 c0 k a H0 Hc0 Hk Hal Hlt Ha].
  - exists c. cbn. repeat split; auto; lia.
  - cbn. destruct (decide (r0 = r)) as [->|Hne].
    + rewrite lookup_insert_eq. rewrite Hr in H0. injection H0 as <-.
      eexists. split; [reflexivity|]. cbn. repeat split; lia.
    + rewrite lookup_insert_ne by exact Hne. exists c. repeat split; auto; lia.
  - cbn. destruct (decide (r0 = r)) as [->|Hne].
    + rewrite Hr in H0. injection H0 as <-. contradiction.
    + rewrite lookup_insert_ne by exact Hne. exists c. repeat split; auto; lia.
Qed.

Lemma run_ops_non_player ops w r c :
  heap w !! r = Some c -> cls c <> CPlayer -> 0 <= health c ->
  exists c', heap (run_ops ops w) !! r = Some c' /\ cls c' = cls c /\
             _heals_used c' = _heals_used c /\ 0 <= health c' <= health c.
Proof.
  revert w c. induction ops as [|o ops IH]; intros w c Hr Hc Hh.
  - exists c. cbn. repeat split; auto; lia.
  - cbn. destruct (wstep_non_player w (run_op o w) r c (run_op_wstep o w) Hr Hc Hh)
      as (c1 & H1 & K1 & U1 & B1).
    destruct (IH _ _ H1 ltac:(congruence) ltac:(lia)) as (c2 & H2 & K2 & U2 & B2).
    exists c2. split; [exact H2|]. split; [congruence|]. split; [congruence | lia].
Qed.

(** X8: only players ever heal.  Through any sequence of calls, calls of
    [heal] on itself included, a [Creature] or a [Monster] keeps its class,
    gets no counter of heals, and its health never goes up; and at every
    point of the run [heal] and [heals_left] on it raise [AttributeError]
    and change nothing. *)
Theorem X8_only_players_heal (w : world) (r : ref) (c : creature) (ops : list op) :
  heap w !! r = Some c -> cls c <> CPlayer -> 0 <= health c ->
  exists c',
    heap (run_ops ops w) !! r = Some c' /\ cls c' = cls c /\
    _heals_used c' = _heals_used c /\ 0 <= health c' <= health c /\
    (exists msg, heal r (run_ops ops w) = (Raise (AttributeError msg), run_ops ops w)) /\
    (exists msg, heals_left r (run_ops ops w)
                 = (Raise (AttributeError msg), run_ops ops w)).
Proof.
  intros Hr Hc Hh.
  destruct (run_ops_non_player ops w r c Hr Hc Hh) as (c' & Hr' & Hc' & Hu' & Hb').
  exists c'. repeat (split; [assumption|]).
  unfold heal, heals_left, bind, deref, player_method. rewrite Hr', Hc'.
  destruct (cls c); try contradiction; unfold raise; eauto.
Qed.

Lemma X8_only_players_heal_witness :
  heap (arena 4) !! 2%positive = Some goblin /\
  exists c',
    heap (run_ops [OHeal 2; OAttack 1 (VObj 2%positive); OHeal 2] (arena 4)) !! 2%positive
      = Some c' /\
    health c' <= health goblin /\
    exists msg,
      heal 2 (run_ops [OHeal 2; OAttack 1 (VObj 2%positive); OHeal 2] (arena 4))
      = (Raise (AttributeError msg),
         run_ops [OHeal 2; OAttack 1 (VObj 2%positive); OHeal 2] (arena 4)).
Proof.
  assert (H : heap (arena 4) !! 2%positive = Some goblin) by (vm_compute; reflexivity).
  split; [exact H|].
  destruct (X8_only_players_heal (arena 4) 2 goblin
              [OHeal 2; OAttack 1 (VObj 2%positive); OHeal 2] H
              ltac:(discriminate) ltac:(cbn; lia))
    as (c' & Hc' & _ & _ & Hb & Hm & _).
  exists c'. split; [exact Hc'|]. split; [lia | exact Hm].
Defined.

(** ** Damage *)

(** X9: damages add up.  Two calls of [take_damage] with non-negative
    integers leave the world that one call with their sum leaves, so the
    order of the two does not matter. *)
Theorem X9_damage_adds_up (w : world) (r : ref) (c : creature) (va vb : pyval) (a b : Z) :
  heap w !! r = Some c ->
  as_int va = Some a -> 0 <= a -> as_int vb = Some b -> 0 <= b ->
  snd (take_damage r vb (snd (take_damage r va w))) = snd (take_damage r (VInt (a + b)) w) /\
  snd (take_damage r vb (snd (take_damage r va w)))
    = snd (take_damage r va (snd (take_damage r vb w))).
Proof.
  intros Hr Ha Ha' Hb Hb'.
  assert (Hseq : forall x y vx vy, as_int vx = Some x -> 0 <= x -> as_int vy = Some y -> 0 <= y ->
            snd (take_damage r vy (snd (take_damage r vx w))) =
            with_heap w (<[r := set_health c (Z.max 0 (health c - (x + y)))]> (heap w))).
  { intros x y vx vy Hx Hx' Hy Hy'.
    rewrite (take_damage_ok w r c vx x Hr Hx Hx'). cbn [snd].
    erewrite take_damage_ok; [|cbn; apply lookup_insert_eq | exact Hy | exact Hy'].
    cbn. unfold with_heap. cbn. rewrite insert_insert_eq.
    replace (Z.max 0 (health c - (x + y))) with (Z.max 0 (Z.max 0 (health c - x) - y)) by lia.
    reflexivity. }
  rewrite (Hseq a b va vb) by assumption.
  rewrite (Hseq b a vb va) by assumption.
  rewrite (take_damage_ok w r c (VInt (a + b)) (a + b) Hr eq_refl ltac:(lia)). cbn [snd].
  split; [reflexivity|]. now rewrite (Z.add_comm b a).
Qed.

Lemma X9_damage_adds_up_witness :
  heap (arena 0) !! 2%positive = Some goblin /\
  snd (take_damage 2 (VBool true) (snd (take_damage 2 (VInt 7) (arena 0))))
    = snd (take_damage 2 (VInt (7 + 1)) (arena 0)).
Proof.
  assert (H : heap (arena 0) !! 2%positive = Some goblin) by (vm_compute; reflexivity).
  split; [exact H|].
  apply (X9_damage_adds_up (arena 0) 2 goblin (VInt 7) (VBool true) 7 1 H eq_refl
           ltac:(lia) eq_refl ltac:(lia)).
Defined.

Lemma run_op_health_le r c o w :
  o <> OHeal r -> heap w !! r = Some c -> 0 <= health c ->
  exists c', heap (run_op o w) !! r = Some c' /\ 0 <= health c' <= health c.
Proof.
  intros Hne Hr Hh. destruct o as [self v | self | self other]; cbn.
  - destruct (take_damage_shape self v w) as [-> | (c0 & d & H0 & Hd & ->)];
      [exists c; split; [exact Hr | lia]|].
    cbn. destruct (decide (self = r)) as [->|Hn].
    + rewrite lookup_insert_eq. rewrite Hr in H0. injection H0 as <-.
      eexists. split; [reflexivity|]. cbn. lia.
    + rewrite lookup_insert_ne by exact Hn. exists c. split; [exact Hr | lia].
  - destruct (heal_shape self w) as [-> | (c0 & k & a & H0 & Hk & ->)];
      [exists c; split; [exact Hr | lia]|].
    cbn. rewrite lookup_insert_ne by congruence. exists c. split; [exact Hr | lia].
  - destruct (attack_target_shape self other w)
      as [[g ->] | (d & t & dmg & g & -> & H0 & Hd & ->)];
      [exists c; split; [exact Hr | lia]|].
    cbn. destruct (decide (d = r)) as [->|Hn].
    + rewrite lookup_insert_eq. rewrite Hr in H0. injection H0 as <-.
      eexists. split; [reflexivity|]. cbn. lia.
    + rewrite lookup_insert_ne by exact Hn. exists c. split; [exact Hr | lia].
Qed.

(** X10: only its own [heal()] raises the health of a creature.  Through
    any sequence of other calls, [take_damage] and [attack_target] by and on
    anyone and [heal] on other players, a health that is not negative never
    goes up and never goes below 0. *)
Theorem X10_health_rises_only_by_heal (w : world) (r : ref) (c : creature) (ops : list op) :
  heap w !! r = Some c -> 0 <= health c ->
  Forall (fun o => o <> OHeal r) ops ->
  exists c', heap (run_ops ops w) !! r = Some c' /\ 0 <= health c' <= health c.
Proof.
  intros Hr Hh HF. revert w c Hr Hh.
  induction HF as [|o ops Ho HF IH]; intros w c Hr Hh.
  - exists c. split; [exact Hr | lia].
  - cbn. destruct (run_op_health_le r c o w Ho Hr Hh) as (c1 & H1 & B1).
    destruct (IH _ _ H1 ltac:(lia)) as (c2 & H2 & B2).
    exists c2. split; [exact H2 | lia].
Qed.

Lemma X10_health_rises_only_by_heal_witness :
  heap (arena 4) !! 1%positive = Some hero /\
  exists c', heap (run_ops [OAttack 2 (VObj 1%positive); OHeal 2; OTakeDamage 1 (VInt 3)]
                     (arena 4)) !! 1%positive = Some c' /\
             0 <= health c' <= health hero.
Proof.
  assert (H : heap (arena 4) !! 1%positive = Some hero) by (vm_compute; reflexivity).
  split; [exact H|].
  apply (X10_health_rises_only_by_heal (arena 4) 1 hero _ H).
  - cbn. lia.
  - repeat constructor; discriminate.
Defined.

(** ** The dice of an attack *)

(** X11: an attack that returns has consumed exactly [dice_count] draws
    when it misses and [dice_count + 1] when it hits: every die is rolled,
    also after one has shown 5 or 6.  The tape of the generator is never
    written, and [take_damage] and [heal] draw nothing. *)
Theorem X11_draws_consumed
    (w : world) (a d : ref) (s t : creature) (hit : bool) (dmg : Z) (w' : world) :
  heap w !! a = Some s -> heap w !! d = Some t ->
  attack_target a (VObj d) w = (Ok (hit, dmg), w') ->
  tape (random w') = tape (random w) /\
  pos (random w') =
    (pos (random w) + Z.to_nat (dice_count s t) + (if hit then 1 else 0))%nat /\
  (forall r v, random (snd (take_damage r v w)) = random w) /\
  (forall r, random (snd (heal r w)) = random w).
Proof.
  intros Ha Hd H.
  destruct (attack_target_ok_alive w a d s t _ w' Ha Hd H) as [Hs Ht].
  rewrite (attack_target_alive w a d s t Ha Hd Hs Ht) in H. cbv zeta in H.
  assert (Hrest : (forall r v, random (snd (take_damage r v w)) = random w) /\
                  (forall r, random (snd (heal r w)) = random w)).
  { split.
    - intros r v. destruct (take_damage_shape r v w) as [-> | (c0 & x & _ & _ & ->)];
        reflexivity.
    - intros r. destruct (heal_shape r w) as [-> | (c0 & k & x & _ & _ & ->)];
        reflexivity. }
  destruct (existsb _ _).
  - destruct (_ <? _); [discriminate|].
    set (x := fst (damage_range s) + _) in H.
    destruct (Z.ltb_spec x 0); [discriminate|].
    injection H as <- _ <-. cbn. split; [reflexivity|]. split; [lia | exact Hrest].
  - injection H as <- _ <-. cbn. split; [reflexivity|]. split; [lia | exact Hrest].
Qed.

Lemma X11_draws_consumed_witness :
  heap (arena 4) !! 1%positive = Some hero /\
  heap (arena 4) !! 2%positive = Some goblin /\
  pos (random (snd (attack_target 1 (VObj 2%positive) (arena 4)))) = 7%nat.
Proof.
  assert (H1 : heap (arena 4) !! 1%positive = Some hero) by (vm_compute; reflexivity).
  assert (H2 : heap (arena 4) !! 2%positive = Some goblin) by (vm_compute; reflexivity).
  split; [exact H1|]. split; [exact H2|].
  assert (H3 : attack_target 1 (VObj 2%positive) (arena 4) =
               (Ok (true, 9), snd (attack_target 1 (VObj 2%positive) (arena 4))))
    by (vm_compute; reflexivity).
  destruct (X11_draws_consumed (arena 4) 1 2 hero goblin true 9 _ H1 H2 H3) as (_ & Hp & _).
  rewrite Hp. reflexivity.
Defined.

(** X12: what a hit does to the target, by its health.  A hit returns a
    damage within the attacker's range; a target whose health is at most
    the minimum of the range is dead after the hit, with health exactly 0,
    and a target whose health is above the maximum survives it, with its
    health lowered by the damage. *)
Theorem X12_hit_kills_or_wounds
    (w : world) (a d : ref) (s t : creature) (dmg : Z) (w' : world) :
  heap w !! a = Some s -> heap w !! d = Some t ->
  attack_target a (VObj d) w = (Ok (true, dmg), w') ->
  fst (damage_range s) <= dmg <= snd (damage_range s) /\
  exists t',
    heap w' !! d = Some t' /\
    (health t <= fst (damage_range s) -> health t' = 0 /\ alive t' = false) /\
    (snd (damage_range s) < health t -> health t' = health t - dmg /\ alive t' = true).
Proof.
  intros Ha Hd H.
  destruct (attack_target_ok_alive w a d s t _ w' Ha Hd H) as [Hs Ht].
  rewrite (attack_target_alive w a d s t Ha Hd Hs Ht) in H. cbv zeta in H.
  destruct (existsb _ _); [|discriminate].
  destruct (Z.ltb_spec (snd (damage_range s)) (fst (damage_range s))) as [|Hr];
    [discriminate|].
  set (x := fst (damage_range s) + _) in H.
  assert (Hx : fst (damage_range s) <= x <= snd (damage_range s)).
  { subst x.
    pose proof (Z.mod_pos_bound (tape (random w) (pos (random w) + Z.to_nat (dice_count s t))%nat)
                  (snd (damage_range s) - fst (damage_range s) + 1)). lia. }
  destruct (Z.ltb_spec x 0) as [|Hx0]; [discriminate|].
  injection H as <- <-. split; [exact Hx|].
  eexists. split; [cbn; apply lookup_insert_eq|].
  unfold alive. cbn. split; intros Hh.
  - assert (E : Z.max 0 (health t - x) = 0) by lia. rewrite E. now split.
  - assert (E : Z.max 0 (health t - x) = health t - x) by lia. rewrite E.
    split; [reflexivity|]. apply Z.ltb_lt. lia.
Qed.

Lemma X12_hit_kills_or_wounds_witness :
  heap (arena_late 4) !! 1%positive = Some hero /\
  heap (arena_late 4) !! 2%positive = Some (set_health goblin 3) /\
  exists t', heap (snd (attack_target 1 (VObj 2%positive) (arena_late 4))) !! 2%positive
             = Some t' /\ health t' = 0.
Proof.
  assert (H1 : heap (arena_late 4) !! 1%positive = Some hero) by (vm_compute; reflexivity).
  assert (H2 : heap (arena_late 4) !! 2%positive = Some (set_health goblin 3))
    by (vm_compute; reflexivity).
  split; [exact H1|]. split; [exact H2|].
  assert (H3 : attack_target 1 (VObj 2%positive) (arena_late 4) =
               (Ok (true, 9), snd (attack_target 1 (VObj 2%positive) (arena_late 4))))
    by (vm_compute; reflexivity).
  destruct (X12_hit_kills_or_wounds (arena_late 4) 1 2 hero _ 9 _ H1 H2 H3)
    as (_ & t' & Ht' & Hkill & _).
  exists t'. split; [exact Ht'|]. apply Hkill. cbn. lia.
Defined.

(** ** The float conversion of [heal] *)

(** X13: on a positive [max_health], [int(max_health * 0.3)] raises
    [OverflowError] exactly from [2^1024 - 2^970] on, the first integer that
    rounds to a double out of range; such a player can never heal: while it
    is alive and has heals left, [heal()] raises [OverflowError] and changes
    nothing. *)
Theorem X13_heal_overflow_threshold (n : Z) :
  0 < n ->
  (heal_amount n = Raise (OverflowError "int too large to convert to float")
   <-> 2 ^ 1024 - 2 ^ 970 <= n) /\
  (is_ok (heal_amount n) = true <-> n < 2 ^ 1024 - 2 ^ 970) /\
  (forall w r c k,
     heap w !! r = Some c -> cls c = CPlayer -> _heals_used c = Some k ->
     alive c = true -> k < MAX_HEALS -> max_health c = n -> 2 ^ 1024 - 2 ^ 970 <= n ->
     heal r w = (Raise (OverflowError "int too large to convert to float"), w)).
Proof.
  intros Hn.
  assert (Hcases : n < 2 ^ 1024 - 2 ^ 970 -> exists a, heal_amount n = Ok a).
  { intros Hlt. apply heal_amount_defined. lia. }
  split; [|split].
  - split.
    + intros H. destruct (Z_lt_le_dec n (2 ^ 1024 - 2 ^ 970)) as [Hlt|]; [|assumption].
      destruct (Hcases Hlt) as [a Ha]. congruence.
    + apply heal_amount_overflow.
  - split.
    + intros H. destruct (Z_lt_le_dec n (2 ^ 1024 - 2 ^ 970)) as [|Hge]; [assumption|].
      rewrite (heal_amount_overflow n Hge) in H. discriminate.
    + intros Hlt. destruct (Hcases Hlt) as [a ->]. reflexivity.
  - intros w r c k Hr Hc Hk Hal Hlt Hmh Hge.
    rewrite (heal_player w r c k Hr Hc Hk), Hal. cbn [negb].
    destruct (Z.leb_spec MAX_HEALS k); [lia|].
    rewrite Hmh, (heal_amount_overflow n Hge). reflexivity.
Qed.

Lemma X13_heal_overflow_threshold_witness :
  0 < 100 /\ is_ok (heal_amount 100) = true.
Proof.
  assert (H : 0 < 100) by lia.
  split; [exact H|].
  apply (proj1 (proj2 (X13_heal_overflow_threshold 100 H))).
  vm_compute. reflexivity.
Defined.

(** ** The fight of the script *)

Lemma io_bind_call_ok {A B} (m : M A) (k : A -> IO B) w out a w' :
  m w = (Ok a, w') -> io_bind (call m) k (w, out) = k a (w', out).
Proof. intros H. unfold io_bind, call. cbn. now rewrite H. Qed.

Lemma io_bind_print {B} l (k : unit -> IO B) w out :
  io_bind (print l) k (w, out) = k tt (w, app out [String.concat " " l]).
Proof. reflexivity. Qed.

Lemma io_bind_ret {A B} (a : A) (k : A -> IO B) st : io_bind (io_ret a) k st = k a st.
Proof. reflexivity. Qed.

Lemma io_bind_assoc {A B C} (m : IO A) (f : A -> IO B) (k : B -> IO C) st :
  io_bind (io_bind m f) k st = io_bind m (fun a => io_bind (f a) k) st.
Proof. unfold io_bind. destruct (m st) as [[a|e] st']; reflexivity. Qed.

Lemma is_alive_at w r c : heap w !! r = Some c -> is_alive r w = (Ok (alive c), w).
Proof. intros H. unfold is_alive, bind, deref, ret. now rewrite H. Qed.

Lemma deref_at w r c : heap w !! r = Some c -> deref r w = (Ok c, w).
Proof. intros H. unfold deref. now rewrite H. Qed.

(** An attack between two live creatures whose damage range [randint]
    accepts returns; it touches the target only, and only its health. *)
Lemma attack_target_returns w a d s t :
  heap w !! a = Some s -> heap w !! d = Some t ->
  alive s = true -> alive t = true ->
  0 <= fst (damage_range s) <= snd (damage_range s) ->
  exists hit dmg w' h',
    attack_target a (VObj d) w = (Ok (hit, dmg), w') /\
    heap w' = <[d := set_health t h']> (heap w) /\
    0 <= h' <= health t /\
    (hit = true -> fst (damage_range s) <= dmg /\ h' = Z.max 0 (health t - dmg)) /\
    (hit = false -> h' = health t) /\
    (hit = existsb (fun r => 5 <=? r) (rolls_of (random w) (Z.to_nat (dice_count s t)))) /\
    tape (random w') = tape (random w).
Proof.
  intros Ha Hd Hs Ht Hr.
  rewrite (attack_target_alive w a d s t Ha Hd Hs Ht). cbv zeta.
  assert (Hh : 0 < health t) by (unfold alive in Ht; now apply Z.ltb_lt in Ht).
  destruct (existsb _ _).
  - destruct (Z.ltb_spec (snd (damage_range s)) (fst (damage_range s))); [lia|].
    set (x := fst (damage_range s) + _).
    assert (Hx : fst (damage_range s) <= x).
    { subst x.
      pose proof (Z.mod_pos_bound
                    (tape (random w) (pos (random w) + Z.to_nat (dice_count s t))%nat)
                    (snd (damage_range s) - fst (damage_range s) + 1)). lia. }
    destruct (Z.ltb_spec x 0); [lia|].
    exists true, x. eexists _, (Z.max 0 (health t - x)).
    split; [reflexivity|]. cbn. repeat split; try lia; try discriminate.
  - exists false, 0, (with_random w (advance (random w) (Z.to_nat (dice_count s t)))),
      (health t).
    split; [reflexivity|]. cbn.
    split; [symmetry; apply insert_id; rewrite Hd; now destruct t|].
    repeat split; try lia; try discriminate.
Qed.

Lemma heal_returns w p c k :
  heap w !! p = Some c -> cls c = CPlayer -> _heals_used c = Some k ->
  alive c = true -> k < MAX_HEALS -> 0 < max_health c < 2 ^ 1024 - 2 ^ 970 ->
  exists res w' h',
    heal p w = (Ok res, w') /\
    heap w' = <[p := set_heals_used (set_health c h') (k + 1)]> (heap w) /\
    0 < h' /\ random w' = random w.
Proof.
  intros Hr Hc Hk Hal Hlt Hmh.
  rewrite (heal_player w p c k Hr Hc Hk), Hal. cbn [negb].
  destruct (Z.leb_spec MAX_HEALS k); [lia|].
  destruct (heal_amount_defined _ Hmh) as [a Ha]. rewrite Ha. cbv zeta.
  pose proof (heal_amount_pos _ _ Ha).
  unfold alive in Hal. apply Z.ltb_lt in Hal.
  eexists _, _, _. split; [reflexivity|]. cbn. split; [reflexivity|]. split; [lia | reflexivity].
Qed.

(** The loop ends at once when one of the two is not alive. *)
Lemma fight_not_both_alive n p g rn w out cp cg :
  heap w !! p = Some cp -> heap w !! g = Some cg ->
  alive cp && alive cg = false ->
  fight (S n) p g rn (w, out) = (Ok (Some rn), (w, out)).
Proof.
  intros Hp Hg Hdead. cbn [fight].
  rewrite (io_bind_call_ok _ _ _ _ _ _ (is_alive_at w p cp Hp)).
  destruct (alive cp).
  - rewrite (io_bind_call_ok _ _ _ _ _ _ (is_alive_at w g cg Hg)).
    cbn in Hdead. rewrite Hdead. reflexivity.
  - rewrite io_bind_ret. reflexivity.
Qed.

(** The heal of a round, when it is due: the guard reads the health and
    the heals left, and the heal it lets through returns. *)
Lemma fight_heal_step w1 p cp k :
  heap w1 !! p = Some cp -> cls cp = CPlayer -> _heals_used cp = Some k ->
  alive cp = true -> 0 < max_health cp < 2 ^ 1024 - 2 ^ 970 ->
  exists w2 cp2 k2 out2,
    heap w2 = <[p := cp2]> (heap w1) /\ random w2 = random w1 /\
    same_stats cp cp2 /\ _heals_used cp2 = Some k2 /\ alive cp2 = true /\
    (cp2 = cp \/ health cp <= 35) /\
    forall (B : Type) (k' : unit -> IO B) o,
      io_bind
        (if health cp <=? 35
         then io_bind (call (heals_left p)) (fun left => io_ret (0 <? left))
         else io_ret false)
        (fun need : bool =>
           io_bind
             (if need
              then io_bind (call (heal p))
                     (fun restored =>
                        print ["Игрок исцелился на " ++ pretty restored ++ " HP"])
              else io_ret tt)
             k')
        (w1, o) = k' tt (w2, app o out2).
Proof.
  intros Hp1 Hc Hk Hap Hmh.
  assert (Hid : heap w1 = <[p := cp]> (heap w1)) by (symmetry; now apply insert_id).
  destruct (Z.leb_spec (health cp) 35) as [Hlow|Hhigh].
  - destruct (Z.ltb_spec 0 (Z.max 0 (MAX_HEALS - k))) as [Hleft|Hnone].
    + destruct (heal_returns w1 p cp k Hp1 Hc Hk Hap ltac:(lia) Hmh)
        as (res & w2 & h' & Eh & Hw2 & Hh' & Hr2).
      exists w2, (set_heals_used (set_health cp h') (k + 1)), (k + 1).
      eexists. split; [exact Hw2|]. split; [exact Hr2|].
      split; [repeat split|]. split; [reflexivity|].
      split; [unfold alive; cbn; now apply Z.ltb_lt|]. split; [now right|].
      intros B k' o. rewrite io_bind_assoc.
      rewrite (io_bind_call_ok _ _ _ _ _ _ (heals_left_player w1 p cp k Hp1 Hc Hk)).
      rewrite io_bind_ret.
      destruct (Z.ltb_spec 0 (Z.max 0 (MAX_HEALS - k))); [|lia]. cbv beta iota.
      rewrite io_bind_assoc, (io_bind_call_ok _ _ _ _ _ _ Eh), io_bind_print.
      reflexivity.
    + exists w1, cp, k, []. split; [exact Hid|]. split; [reflexivity|].
      split; [apply same_stats_refl|]. split; [exact Hk|]. split; [exact Hap|].
      split; [now left|].
      intros B k' o. rewrite io_bind_assoc.
      rewrite (io_bind_call_ok _ _ _ _ _ _ (heals_left_player w1 p cp k Hp1 Hc Hk)).
      rewrite io_bind_ret.
      destruct (Z.ltb_spec 0 (Z.max 0 (MAX_HEALS - k))); [lia|]. cbv beta iota.
      rewrite io_bind_ret. now rewrite app_nil_r.
  - exists w1, cp, k, []. split; [exact Hid|]. split; [reflexivity|].
    split; [apply same_stats_refl|]. split; [exact Hk|]. split; [exact Hap|].
    split; [now left|].
    intros B k' o. rewrite io_bind_ret. cbv beta iota.
    rewrite io_bind_ret. now rewrite app_nil_r.
Qed.

(** One round of the loop between two live fighters: the player attacks;
    if the goblin survives, the player heals when it should, and the goblin
    attacks; if the player survives, the loop goes on.  What the round does
    is the same whatever fuel is left for the rounds that follow. *)
Lemma fight_round_all p g rn w out cp cg k :
  p <> g -> heap w !! p = Some cp -> heap w !! g = Some cg ->
  cls cp = CPlayer -> _heals_used cp = Some k ->
  0 <= fst (damage_range cp) <= snd (damage_range cp) ->
  0 < max_health cp < 2 ^ 1024 - 2 ^ 970 ->
  0 <= fst (damage_range cg) <= snd (damage_range cg) ->
  alive cp = true -> alive cg = true ->
  exists hit1 dmg1 w1 h1,
    attack_target p (VObj g) w = (Ok (hit1, dmg1), w1) /\
    heap w1 = <[g := set_health cg h1]> (heap w) /\
    tape (random w1) = tape (random w) /\
    0 <= h1 <= health cg /\
    (hit1 = true -> fst (damage_range cp) <= dmg1 /\ h1 = Z.max 0 (health cg - dmg1)) /\
    (hit1 = false -> h1 = health cg) /\
    (hit1 = existsb (fun r => 5 <=? r)
              (rolls_of (random w) (Z.to_nat (dice_count cp cg)))) /\
    ((h1 = 0 /\
      exists out', forall n,
        fight (S n) p g rn (w, out) = (Ok (Some rn), (w1, app out' ["Гоблин пал!"])))
     \/
     (0 < h1 /\
      exists w2 cp2 k2,
        heap w2 = <[p := cp2]> (heap w1) /\ random w2 = random w1 /\
        same_stats cp cp2 /\ _heals_used cp2 = Some k2 /\ alive cp2 = true /\
        (cp2 = cp \/ health cp <= 35) /\
        exists hit2 dmg2 w3 h3,
          attack_target g (VObj p) w2 = (Ok (hit2, dmg2), w3) /\
          heap w3 = <[p := set_health cp2 h3]> (heap w2) /\
          tape (random w3) = tape (random w2) /\
          0 <= h3 <= health cp2 /\
          (hit2 = false -> h3 = health cp2) /\
          (hit2 = existsb (fun r => 5 <=? r)
                    (rolls_of (random w2)
                       (Z.to_nat (dice_count (set_health cg h1) cp2)))) /\
          ((h3 = 0 /\
            exists out', forall n,
              fight (S n) p g rn (w, out)
              = (Ok (Some rn), (w3, app out' ["Игрок погиб!"])))
           \/
           (0 < h3 /\
            exists out', forall n,
              fight (S n) p g rn (w, out) = fight n p g (rn + 1) (w3, out'))))).
Proof.
  intros Hne Hp Hg Hc Hk Hrp Hmh Hrg Hap Hag.
  destruct (attack_target_returns w p g cp cg Hp Hg Hap Hag Hrp)
    as (hit1 & dmg1 & w1 & h1 & E1 & Hw1 & Hh1 & Hhit1 & Hmiss1 & Hex1 & Ht1).
  exists hit1, dmg1, w1, h1.
  split; [exact E1|]. split; [exact Hw1|]. split; [exact Ht1|]. split; [exact Hh1|].
  split; [exact Hhit1|]. split; [exact Hmiss1|]. split; [exact Hex1|].
  assert (Hg1 : heap w1 !! g = Some (set_health cg h1))
    by (rewrite Hw1; apply lookup_insert_eq).
  assert (Hp1 : heap w1 !! p = Some cp)
    by (rewrite Hw1, lookup_insert_ne by congruence; exact Hp).
  assert (Hstart : forall n,
            fight (S n) p g rn (w, out) =
            io_bind (call (is_alive g))
              (fun ga => if negb ga
                         then io_bind (print ["Гоблин пал!"]) (fun _ => io_ret (Some rn))
                         else
                           io_bind (call (deref p)) (fun c =>
                           io_bind (if health c <=? 35
                                    then io_bind (call (heals_left p))
                                           (fun left => io_ret (0 <? left))
                                    else io_ret false) (fun need : bool =>
                           io_bind (if need
                                    then io_bind (call (heal p)) (fun restored =>
                                           print ["Игрок исцелился на "
                                                    ++ pretty restored ++ " HP"])
                                    else io_ret tt) (fun _ =>
                           io_bind (call (attack_target g (VObj p))) (fun r2 =>
                           io_bind (print (attack_line "Гоблин атакует:" (fst r2) (snd r2)))
                             (fun _ =>
                           io_bind (call (is_alive p)) (fun pa' =>
                           if negb pa'
                           then io_bind (print ["Игрок погиб!"])
                                  (fun _ => io_ret (Some rn))
                           else fight n p g (rn + 1))))))))
              (w1, app (app out [String.concat " " ["Раунд " ++ pretty rn]])
                     [String.concat " " (attack_line "Игрок атакует:" hit1 dmg1)])).
  { intros n. cbn [fight].
    rewrite (io_bind_call_ok _ _ _ _ _ _ (is_alive_at w p cp Hp)), Hap.
    rewrite (io_bind_call_ok _ _ _ _ _ _ (is_alive_at w g cg Hg)), Hag.
    cbn [negb]. rewrite io_bind_print.
    rewrite (io_bind_call_ok _ _ _ _ _ _ E1). rewrite io_bind_print. reflexivity. }
  destruct (Z_lt_le_dec 0 h1) as [Hpos|Hzero].
  2:{ left. split; [lia|]. eexists. intros n.
      rewrite (Hstart n).
      rewrite (io_bind_call_ok _ _ _ _ _ _ (is_alive_at w1 g _ Hg1)).
      change (alive (set_health cg h1)) with (0 <? h1).
      destruct (Z.ltb_spec 0 h1); [lia|]. cbn [negb].
      rewrite io_bind_print. reflexivity. }
  right. split; [exact Hpos|].
  destruct (fight_heal_step w1 p cp k Hp1 Hc Hk Hap Hmh)
    as (w2 & cp2 & k2 & out2 & Hw2 & Hr2 & Hs2 & Hk2 & Hal2 & Hwhy & Hrun).
  exists w2, cp2, k2.
  split; [exact Hw2|]. split; [exact Hr2|]. split; [exact Hs2|]. split; [exact Hk2|].
  split; [exact Hal2|]. split; [exact Hwhy|].
  assert (Hp2 : heap w2 !! p = Some cp2) by (rewrite Hw2; apply lookup_insert_eq).
  assert (Hg2 : heap w2 !! g = Some (set_health cg h1))
    by (rewrite Hw2, lookup_insert_ne by congruence; exact Hg1).
  assert (Hag2 : alive (set_health cg h1) = true) by (now apply Z.ltb_lt).
  destruct (attack_target_returns w2 g p _ cp2 Hg2 Hp2 Hag2 Hal2 Hrg)
    as (hit2 & dmg2 & w3 & h3 & E2 & Hw3 & Hh3 & _ & Hmiss2 & Hex2 & Ht3).
  exists hit2, dmg2, w3, h3.
  split; [exact E2|]. split; [exact Hw3|]. split; [exact Ht3|]. split; [exact Hh3|].
  split; [exact Hmiss2|]. split; [exact Hex2|].
  assert (Hp3 : heap w3 !! p = Some (set_health cp2 h3))
    by (rewrite Hw3; apply lookup_insert_eq).
  assert (Hmid : forall n,
            fight (S n) p g rn (w, out) =
            (if negb (0 <? h3)
             then io_bind (print ["Игрок погиб!"]) (fun _ => io_ret (Some rn))
             else fight n p g (rn + 1))
              (w3, app (app (app (app out [String.concat " " ["Раунд " ++ pretty rn]])
                               [String.concat " " (attack_line "Игрок атакует:" hit1 dmg1)])
                          out2)
                     [String.concat " " (attack_line "Гоблин атакует:" hit2 dmg2)])).
  { intros n. rewrite (Hstart n).
    rewrite (io_bind_call_ok _ _ _ _ _ _ (is_alive_at w1 g _ Hg1)).
    change (alive (set_health cg h1)) with (0 <? h1).
    destruct (Z.ltb_spec 0 h1); [|lia]. cbn [negb].
    rewrite (io_bind_call_ok _ _ _ _ _ _ (deref_at w1 p cp Hp1)).
    rewrite Hrun.
    rewrite (io_bind_call_ok _ _ _ _ _ _ E2). rewrite io_bind_print.
    rewrite (io_bind_call_ok _ _ _ _ _ _ (is_alive_at w3 p _ Hp3)).
    reflexivity. }
  destruct (Z_lt_le_dec 0 h3) as [Hpos3|Hzero3].
  - right. split; [exact Hpos3|]. eexists. intros n. rewrite Hmid.
    destruct (Z.ltb_spec 0 h3); [|lia]. reflexivity.
  - left. split; [lia|]. eexists. intros n. rewrite Hmid.
    destruct (Z.ltb_spec 0 h3); [lia|]. cbn [negb]. rewrite io_bind_print. reflexivity.
Qed.

Lemma fight_round n p g rn w out cp cg k :
  p <> g -> heap w !! p = Some cp -> heap w !! g = Some cg ->
  cls cp = CPlayer -> _heals_used cp = Some k ->
  0 <= fst (damage_range cp) <= snd (damage_range cp) ->
  0 < max_health cp < 2 ^ 1024 - 2 ^ 970 ->
  0 <= fst (damage_range cg) <= snd (damage_range cg) ->
  alive cp = true -> alive cg = true ->
  exists hit1 dmg1 w1 h1,
    attack_target p (VObj g) w = (Ok (hit1, dmg1), w1) /\
    heap w1 = <[g := set_health cg h1]> (heap w) /\
    tape (random w1) = tape (random w) /\
    0 <= h1 <= health cg /\
    (hit1 = true -> fst (damage_range cp) <= dmg1 /\ h1 = Z.max 0 (health cg - dmg1)) /\
    (hit1 = false -> h1 = health cg) /\
    (hit1 = existsb (fun r => 5 <=? r)
              (rolls_of (random w) (Z.to_nat (dice_count cp cg)))) /\
    ((h1 = 0 /\
      exists out', fight (S n) p g rn (w, out) = (Ok (Some rn), (w1, app out' ["Гоблин пал!"])))
     \/
     (0 < h1 /\
      exists w2 cp2 k2,
        heap w2 = <[p := cp2]> (heap w1) /\ random w2 = random w1 /\
        same_stats cp cp2 /\ _heals_used cp2 = Some k2 /\ alive cp2 = true /\
        (cp2 = cp \/ health cp <= 35) /\
        exists hit2 dmg2 w3 h3,
          attack_target g (VObj p) w2 = (Ok (hit2, dmg2), w3) /\
          heap w3 = <[p := set_health cp2 h3]> (heap w2) /\
          tape (random w3) = tape (random w2) /\
          0 <= h3 <= health cp2 /\
          (hit2 = false -> h3 = health cp2) /\
          (hit2 = existsb (fun r => 5 <=? r)
                    (rolls_of (random w2)
                       (Z.to_nat (dice_count (set_health cg h1) cp2)))) /\
          ((h3 = 0 /\
            exists out', fight (S n) p g rn (w, out)
                         = (Ok (Some rn), (w3, app out' ["Игрок погиб!"])))
           \/
           (0 < h3 /\
            exists out', fight (S n) p g rn (w, out) = fight n p g (rn + 1) (w3, out'))))).
Proof.
  intros Hne Hp Hg Hc Hk Hrp Hmh Hrg Hap Hag.
  destruct (fight_round_all p g rn w out cp cg k Hne Hp Hg Hc Hk Hrp Hmh Hrg Hap Hag)
    as (hit1 & dmg1 & w1 & h1 & E1 & Hw1 & Ht1 & Hh1 & Hhit1 & Hmiss1 & Hex1 & Hcases).
  exists hit1, dmg1, w1, h1. repeat (split; [assumption|]).
  destruct Hcases as
      [(Hz & o1 & Heq) |
       (Hpos & w2 & cp2 & k2 & Hw2 & Hr2 & Hs2 & Hk2 & Hal2 & Hwhy &
        hit2 & dmg2 & w3 & h3 & E2 & Hw3 & Ht3 & Hh3 & Hmiss2 & Hex2 & Hcases)].
  - left. split; [exact Hz|]. exists o1. apply Heq.
  - right. split; [exact Hpos|]. exists w2, cp2, k2. repeat (split; [assumption|]).
    exists hit2, dmg2, w3, h3. repeat (split; [assumption|]).
    destruct Hcases as [(Hz3 & o3 & Heq) | (Hpos3 & o3 & Heq)].
    + left. split; [exact Hz3|]. exists o3. apply Heq.
    + right. split; [exact Hpos3|]. exists o3. apply Heq.
Qed.

Lemma fighters_next p g w w1 w2 w3 cp cp2 cg k k2 h1 h3 :
  p <> g -> heap w !! p = Some cp -> heap w !! g = Some cg ->
  cls cp = CPlayer -> _heals_used cp = Some k ->
  0 <= fst (damage_range cp) <= snd (damage_range cp) ->
  0 < max_health cp < 2 ^ 1024 - 2 ^ 970 ->
  0 <= fst (damage_range cg) <= snd (damage_range cg) ->
  heap w1 = <[g := set_health cg h1]> (heap w) ->
  heap w2 = <[p := cp2]> (heap w1) ->
  same_stats cp cp2 -> _heals_used cp2 = Some k2 ->
  heap w3 = <[p := set_health cp2 h3]> (heap w2) ->
  heap w3 !! p = Some (set_health cp2 h3) /\
  heap w3 !! g = Some (set_health cg h1) /\
  fighters p g w3.
Proof.
  intros Hne Hp Hg Hc Hk Hrp Hmh Hrg Hw1 Hw2 (S1 & _ & _ & _ & S5 & S6) Hk2 Hw3.
  assert (Hp3 : heap w3 !! p = Some (set_health cp2 h3))
    by (rewrite Hw3; apply lookup_insert_eq).
  assert (Hg3 : heap w3 !! g = Some (set_health cg h1)).
  { rewrite Hw3, lookup_insert_ne by congruence.
    rewrite Hw2, lookup_insert_ne by congruence.
    rewrite Hw1. apply lookup_insert_eq. }
  split; [exact Hp3|]. split; [exact Hg3|].
  split; [exact Hne|]. split.
  - exists (set_health cp2 h3), k2. cbn. rewrite S1, S5, S6. auto.
  - exists (set_health cg h1). cbn. auto.
Qed.

Lemma dice_count_to_nat_pos s t : (0 < Z.to_nat (dice_count s t))%nat.
Proof. unfold dice_count. lia. Qed.

Lemma rolls_all_hit g n :
  always_hits g -> (0 < n)%nat ->
  existsb (fun r => 5 <=? r) (rolls_of g n) = true.
Proof.
  intros Hg Hn. destruct n as [|n]; [lia|].
  unfold rolls_of. cbn [seq map existsb].
  specialize (Hg (pos g)). destruct (Z.leb_spec 5 (1 + tape g (pos g) mod 6)); [reflexivity|lia].
Qed.

Lemma rolls_none_hit g n :
  never_hits g -> existsb (fun r => 5 <=? r) (rolls_of g n) = false.
Proof.
  intros Hg. unfold rolls_of. generalize (pos g). induction n as [|n IH]; intros i.
  - reflexivity.
  - cbn [seq map existsb]. rewrite IH. specialize (Hg i).
    destruct (Z.leb_spec 5 (1 + tape g i mod 6)); [lia | reflexivity].
Qed.

Lemma rolls_of_tape g g' n :
  tape g' = tape g -> pos g' = pos g -> rolls_of g' n = rolls_of g n.
Proof. intros Ht Hp. unfold rolls_of. now rewrite Ht, Hp. Qed.

Lemma fight_is_ok fuel p g rn w out :
  fighters p g w -> is_ok (fst (fight fuel p g rn (w, out))) = true.
Proof.
  revert rn w out. induction fuel as [|n IH]; intros rn w out Hf; [reflexivity|].
  destruct Hf as (Hne & (cp & k & Hp & Hc & Hk & Hrp & Hmh) & (cg & Hg & Hrg)).
  destruct (alive cp && alive cg) eqn:E.
  2:{ now rewrite (fight_not_both_alive n p g rn w out cp cg Hp Hg E). }
  apply andb_true_iff in E as [Hap Hag].
  destruct (fight_round n p g rn w out cp cg k Hne Hp Hg Hc Hk Hrp Hmh Hrg Hap Hag)
    as (hit1 & dmg1 & w1 & h1 & E1 & Hw1 & Ht1 & Hh1 & Hhit1 & Hmiss1 & Hex1 &
        [(Hz & out' & ->) |
         (Hpos & w2 & cp2 & k2 & Hw2 & Hr2 & Hs2 & Hk2 & Hal2 & Hwhy &
          hit2 & dmg2 & w3 & h3 & E2 & Hw3 & Ht3 & Hh3 & Hmiss2 & Hex2 &
          [(Hz3 & out' & ->) | (Hpos3 & out' & ->)])]); try reflexivity.
  apply IH.
  exact (proj2 (proj2 (fighters_next p g w w1 w2 w3 cp cp2 cg k k2 h1 h3
                         Hne Hp Hg Hc Hk Hrp Hmh Hrg Hw1 Hw2 Hs2 Hk2 Hw3))).
Qed.


Lemma fighters_arena z : fighters 1 2 (arena z).
Proof.
  split; [discriminate|]. split.
  - exists hero, 0. repeat split; try (cbn; lia); vm_compute; reflexivity.
  - exists goblin. repeat split; try (cbn; lia); vm_compute; reflexivity.
Qed.


Lemma fight_end fuel p g rn rn' w w' out out' :
  fighters p g w -> alive_at p w -> alive_at g w ->
  fight fuel p g rn (w, out) = (Ok (Some rn'), (w', out')) ->
  rn <= rn' /\
  ((alive_at p w' /\ ~ alive_at g w' /\ last out' = Some "Гоблин пал!") \/
   (~ alive_at p w' /\ alive_at g w' /\ last out' = Some "Игрок погиб!")).
Proof.
  revert rn w out. induction fuel as [|n IH]; intros rn w out Hf Hpa Hga H; [discriminate|].
  destruct Hf as (Hne & (cp & k & Hp & Hc & Hk & Hrp & Hmh) & (cg & Hg & Hrg)).
  destruct Hpa as (cp' & Hp' & Hap). rewrite Hp in Hp'. injection Hp' as <-.
  destruct Hga as (cg' & Hg' & Hag). rewrite Hg in Hg'. injection Hg' as <-.
  destruct (fight_round n p g rn w out cp cg k Hne Hp Hg Hc Hk Hrp Hmh Hrg Hap Hag)
    as (hit1 & dmg1 & w1 & h1 & E1 & Hw1 & Ht1 & Hh1 & Hhit1 & Hmiss1 & Hex1 &
        [(Hz & o1 & Heq) |
         (Hpos & w2 & cp2 & k2 & Hw2 & Hr2 & Hs2 & Hk2 & Hal2 & Hwhy &
          hit2 & dmg2 & w3 & h3 & E2 & Hw3 & Ht3 & Hh3 & Hmiss2 & Hex2 &
          [(Hz3 & o3 & Heq) | (Hpos3 & o3 & Heq)])]);
    rewrite Heq in H.
  - injection H as <- <- <-. split; [lia|]. left.
    split; [|split; [|apply last_snoc]].
    + exists cp. split; [|exact Hap].
      rewrite Hw1, lookup_insert_ne by congruence. exact Hp.
    + intros (c & Hc' & Hal'). rewrite Hw1, lookup_insert_eq in Hc'.
      injection Hc' as <-. subst h1. discriminate Hal'.
  - injection H as <- <- <-. split; [lia|]. right.
    destruct (fighters_next p g w w1 w2 w3 cp cp2 cg k k2 h1 h3
                Hne Hp Hg Hc Hk Hrp Hmh Hrg Hw1 Hw2 Hs2 Hk2 Hw3) as (Hp3 & Hg3 & _).
    split; [|split; [|apply last_snoc]].
    + intros (c & Hc' & Hal'). rewrite Hp3 in Hc'. injection Hc' as <-.
      subst h3. discriminate Hal'.
    + exists (set_health cg h1). split; [exact Hg3|]. now apply Z.ltb_lt.
  - destruct (fighters_next p g w w1 w2 w3 cp cp2 cg k k2 h1 h3
                Hne Hp Hg Hc Hk Hrp Hmh Hrg Hw1 Hw2 Hs2 Hk2 Hw3) as (Hp3 & Hg3 & Hf3).
    destruct (IH (rn + 1) w3 o3 Hf3) as [Hle Hend]; [| |exact H|].
    + exists (set_health cp2 h3). split; [exact Hp3|]. now apply Z.ltb_lt.
    + exists (set_health cg h1). split; [exact Hg3|]. now apply Z.ltb_lt.
    + split; [lia | exact Hend].
Qed.

(** X15: when the loop ends after a start with both fighters alive,
    exactly one of them is alive, and the last line printed names the one
    that fell: ["Гоблин пал!"] when the goblin is dead and the player
    alive, ["Игрок погиб!"] when the player is dead and the goblin alive.
    The round counter never goes back. *)
Theorem X15_fight_ends_with_one_survivor
    (fuel : nat) (p g : ref) (rn rn' : Z) (w w' : world) (out out' : list string) :
  fighters p g w -> alive_at p w -> alive_at g w ->
  fight fuel p g rn (w, out) = (Ok (Some rn'), (w', out')) ->
  rn <= rn' /\
  ((alive_at p w' /\ ~ alive_at g w' /\ last out' = Some "Гоблин пал!") \/
   (~ alive_at p w' /\ alive_at g w' /\ last out' = Some "Игрок погиб!")).
Proof. apply fight_end. Qed.

Lemma X15_fight_ends_with_one_survivor_witness :
  fighters 1 2 (arena 4) /\ alive_at 1 (arena 4) /\ alive_at 2 (arena 4) /\
  (alive_at 1 (fst (snd (fight 25 1 2 1 (arena 4, [])))) /\
   ~ alive_at 2 (fst (snd (fight 25 1 2 1 (arena 4, [])))) /\
   last (snd (snd (fight 25 1 2 1 (arena 4, [])))) = Some "Гоблин пал!").
Proof.
  assert (Hf : fighters 1 2 (arena 4)) by apply fighters_arena.
  assert (Hp : alive_at 1 (arena 4)).
  { exists hero. split; [vm_compute; reflexivity | reflexivity]. }
  assert (Hg : alive_at 2 (arena 4)).
  { exists goblin. split; [vm_compute; reflexivity | reflexivity]. }
  split; [exact Hf|]. split; [exact Hp|]. split; [exact Hg|].
  assert (E : fight 25 1 2 1 (arena 4, []) =
              (Ok (Some 5), (fst (snd (fight 25 1 2 1 (arena 4, []))),
                             snd (snd (fight 25 1 2 1 (arena 4, []))))))
    by (vm_compute; reflexivity).
  destruct (X15_fight_ends_with_one_survivor 25 1 2 1 5 (arena 4) _ [] _ Hf Hp Hg E)
    as [_ [Hwin | (Hdead & _)]].
  - exact Hwin.
  - exfalso. apply Hdead. eexists. split; vm_compute; reflexivity.
Defined.

Lemma fight_ends_hits fuel n p g rn w out cp cg :
  fighters p g w -> always_hits (random w) ->
  heap w !! p = Some cp -> heap w !! g = Some cg ->
  1 <= fst (damage_range cp) ->
  health cg <= fst (damage_range cp) * Z.of_nat n ->
  (n < fuel)%nat ->
  exists rn' st',
    fight fuel p g rn (w, out) = (Ok (Some rn'), st') /\
    rn <= rn' <= rn + Z.max 0 (Z.of_nat n - 1).
Proof.
  revert n rn w out cp cg.
  induction fuel as [|f IH]; intros n rn w out cp cg Hf Hhits Hp Hg Hlo Hh Hn; [lia|].
  destruct Hf as (Hne & (cp' & k & Hp' & Hc & Hk & Hrp & Hmh) & (cg' & Hg' & Hrg)).
  rewrite Hp in Hp'. injection Hp' as <-. rewrite Hg in Hg'. injection Hg' as <-.
  destruct (alive cp && alive cg) eqn:E.
  2:{ rewrite (fight_not_both_alive f p g rn w out cp cg Hp Hg E).
      eexists _, _. split; [reflexivity | lia]. }
  apply andb_true_iff in E as [Hap Hag].
  destruct (fight_round f p g rn w out cp cg k Hne Hp Hg Hc Hk Hrp Hmh Hrg Hap Hag)
    as (hit1 & dmg1 & w1 & h1 & E1 & Hw1 & Ht1 & Hh1 & Hhit1 & Hmiss1 & Hex1 &
        [(Hz & o1 & ->) |
         (Hpos & w2 & cp2 & k2 & Hw2 & Hr2 & Hs2 & Hk2 & Hal2 & Hwhy &
          hit2 & dmg2 & w3 & h3 & E2 & Hw3 & Ht3 & Hh3 & Hmiss2 & Hex2 &
          [(Hz3 & o3 & ->) | (Hpos3 & o3 & ->)])]).
  - eexists _, _. split; [reflexivity | lia].
  - eexists _, _. split; [reflexivity | lia].
  - rewrite (rolls_all_hit _ _ Hhits (dice_count_to_nat_pos cp cg)) in Hex1.
    destruct (Hhit1 Hex1) as [Hd1 Hh1'].
    destruct (fighters_next p g w w1 w2 w3 cp cp2 cg k k2 h1 h3
                Hne Hp Hg Hc Hk Hrp Hmh Hrg Hw1 Hw2 Hs2 Hk2 Hw3) as (Hp3 & Hg3 & Hf3).
    assert (Hhits3 : always_hits (random w3)).
    { intros i. rewrite Ht3, Hr2, Ht1. apply Hhits. }
    assert (Hn2 : (2 <= n)%nat) by nia.
    destruct (IH (n - 1)%nat (rn + 1) w3 o3 (set_health cp2 h3) (set_health cg h1)
                Hf3 Hhits3 Hp3 Hg3)
      as (rn' & st' & Heq & Hb).
    + cbn. destruct Hs2 as (_ & _ & _ & _ & _ & ->). exact Hlo.
    + cbn. destruct Hs2 as (_ & _ & _ & _ & _ & ->). nia.
    + lia.
    + exists rn', st'. split; [exact Heq | lia].
Qed.




(** X17: nothing bounds the loop.  With dice that never show 5 or 6 every
    attack misses, both fighters stay alive, and the loop is still running
    after any number of rounds. *)
Theorem X17_fight_runs_on_when_dice_miss
    (fuel : nat) (p g : ref) (rn : Z) (w : world) (out : list string) :
  fighters p g w -> never_hits (random w) -> alive_at p w -> alive_at g w ->
  exists w' out',
    fight fuel p g rn (w, out) = (Ok None, (w', out')) /\
    alive_at p w' /\ alive_at g w'.
Proof.
  revert rn w out. induction fuel as [|n IH]; intros rn w out Hf Hmiss Hpa Hga.
  - exists w, out. auto.
  - destruct Hf as (Hne & (cp & k & Hp & Hc & Hk & Hrp & Hmh) & (cg & Hg & Hrg)).
    destruct Hpa as (cp' & Hp' & Hap). rewrite Hp in Hp'. injection Hp' as <-.
    destruct Hga as (cg' & Hg' & Hag). rewrite Hg in Hg'. injection Hg' as <-.
    assert (Hhg : 0 < health cg) by (unfold alive in Hag; now apply Z.ltb_lt in Hag).
    destruct (fight_round n p g rn w out cp cg k Hne Hp Hg Hc Hk Hrp Hmh Hrg Hap Hag)
      as (hit1 & dmg1 & w1 & h1 & E1 & Hw1 & Ht1 & Hh1 & Hhit1 & Hmiss1 & Hex1 & Hcases).
    rewrite (rolls_none_hit _ _ Hmiss) in Hex1. specialize (Hmiss1 Hex1).
    destruct Hcases as
        [(Hz & _) |
         (Hpos & w2 & cp2 & k2 & Hw2 & Hr2 & Hs2 & Hk2 & Hal2 & Hwhy &
          hit2 & dmg2 & w3 & h3 & E2 & Hw3 & Ht3 & Hh3 & Hmiss2 & Hex2 & Hcases)];
      [lia|].
    assert (Hmiss2' : never_hits (random w2)).
    { intros i. rewrite Hr2, Ht1. apply Hmiss. }
    rewrite (rolls_none_hit _ _ Hmiss2') in Hex2. specialize (Hmiss2 Hex2).
    assert (Hhp : 0 < health cp2) by (unfold alive in Hal2; now apply Z.ltb_lt in Hal2).
    destruct Hcases as [(Hz3 & _) | (Hpos3 & o3 & ->)]; [lia|].
    destruct (fighters_next p g w w1 w2 w3 cp cp2 cg k k2 h1 h3
                Hne Hp Hg Hc Hk Hrp Hmh Hrg Hw1 Hw2 Hs2 Hk2 Hw3) as (Hp3 & Hg3 & Hf3).
    apply IH; [exact Hf3 | | |].
    + intros i. rewrite Ht3. apply Hmiss2'.
    + exists (set_health cp2 h3). split; [exact Hp3|]. now apply Z.ltb_lt.
    + exists (set_health cg h1). split; [exact Hg3|]. now apply Z.ltb_lt.
Qed.

Lemma X17_fight_runs_on_when_dice_miss_witness :
  fighters 1 2 (arena 0) /\ never_hits (random (arena 0)) /\
  exists w' out', fight 1000 1 2 1 (arena 0, []) = (Ok None, (w', out')).
Proof.
  assert (Hm : never_hits (random (arena 0))) by (intros i; vm_compute; reflexivity).
  split; [apply fighters_arena|]. split; [exact Hm|].
  destruct (X17_fight_runs_on_when_dice_miss 1000 1 2 1 (arena 0) [] (fighters_arena 0) Hm)
    as (w' & out' & Heq & _).
  - exists hero. split; [vm_compute; reflexivity | reflexivity].
  - exists goblin. split; [vm_compute; reflexivity | reflexivity].
  - exists w', out'. exact Heq.
Defined.

(** ** The script *)

(** The two constructor calls of the script succeed in every store: the
    objects are new, and the fight starts on them after the banner. *)
Lemma main_setup fuel w out :
  let p := fresh (dom (heap w)) in
  let w1 := with_heap w (<[p := hero]> (heap w)) in
  let g := fresh (dom (heap w1)) in
  let w2 := with_heap w1 (<[g := goblin]> (heap w1)) in
  main fuel (w, out) = fight fuel p g 1 (w2, app out ["--- Бой начинается ---"]).
Proof. reflexivity. Qed.

Lemma main_fighters w :
  let p := fresh (dom (heap w)) in
  let w1 := with_heap w (<[p := hero]> (heap w)) in
  let g := fresh (dom (heap w1)) in
  let w2 := with_heap w1 (<[g := goblin]> (heap w1)) in
  heap w2 !! p = Some hero /\ heap w2 !! g = Some goblin /\ fighters p g w2.
Proof.
  intros p w1 g w2.
  assert (Hne : p <> g).
  { intros E. pose proof (is_fresh (dom (heap w1))) as Hfr. fold g in Hfr.
    apply Hfr. rewrite <- E. subst w1. cbn. rewrite dom_insert. set_solver. }
  assert (Hp : heap w2 !! p = Some hero).
  { subst w2 w1. cbn. rewrite lookup_insert_ne by congruence. apply lookup_insert_eq. }
  assert (Hg : heap w2 !! g = Some goblin).
  { subst w2. cbn. apply lookup_insert_eq. }
  split; [exact Hp|]. split; [exact Hg|].
  split; [exact Hne|]. split.
  - exists hero, 0. repeat split; try (cbn; lia); try exact Hp.
  - exists goblin. repeat split; try (cbn; lia); exact Hg.
Qed.

(** X18: the script, for every seed and in every store.  It never raises;
    when its loop ends, the last line printed is ["Гоблин пал!"] or
    ["Игрок погиб!"]; and if every die shows 5 or 6 the loop ends in round 8
    at the latest. *)
Theorem X18_script_runs (fuel : nat) (w : world) (out : list string) :
  is_ok (fst (main fuel (w, out))) = true /\
  (forall rn w' out',
      main fuel (w, out) = (Ok (Some rn), (w', out')) ->
      1 <= rn /\
      (last out' = Some "Гоблин пал!" \/ last out' = Some "Игрок погиб!")) /\
  (always_hits (random w) -> (8 < fuel)%nat ->
   exists rn st', main fuel (w, out) = (Ok (Some rn), st') /\ 1 <= rn <= 8).
Proof.
  rewrite main_setup. cbv zeta.
  destruct (main_fighters w) as (Hp & Hg & Hf). cbv zeta in Hp, Hg, Hf.
  split; [now apply fight_is_ok|]. split.
  - intros rn w' out' H.
    eapply fight_end in H as [Hle [(_ & _ & Hl) | (_ & _ & Hl)]]; eauto.
    + exists hero. split; [exact Hp | reflexivity].
    + exists goblin. split; [exact Hg | reflexivity].
  - intros Hhits Hfuel.
    destruct (fight_ends_hits fuel 8 _ _ 1 _ (app out ["--- Бой начинается ---"])
                hero goblin Hf Hhits Hp Hg)
      as (rn & st' & Heq & Hb); [cbn; lia | cbn; lia | lia |].
    exists rn, st'. split; [exact Heq | cbn in Hb; lia].
Qed.

Lemma X18_script_runs_witness :
  is_ok (fst (main 9 (empty_world 4, []))) = true /\
  exists rn st', main 9 (empty_world 4, []) = (Ok (Some rn), st') /\ 1 <= rn <= 8.
Proof.
  destruct (X18_script_runs 9 (empty_world 4) []) as (Hok & _ & Hend).
  split; [exact Hok|]. apply Hend; [|lia].
  intros i. vm_compute. discriminate.
Defined.

(** ** The tests *)

Lemma bind_eval {A B} (m : M A) (k : A -> M B) w a w' :
  m w = (Ok a, w') -> bind m k w = k a w'.
Proof. intros H. unfold bind. now rewrite H. Qed.

Lemma heal_amount_100 : heal_amount 100 = Ok 30.
Proof. vm_compute. reflexivity. Qed.

(** A heal of the player of the first test, with heals left. *)
Lemma heal_test_hero h g p hp k :
  0 < hp -> k < MAX_HEALS ->
  heal p {| heap := <[p := set_heals_used (set_health test_hero hp) k]> h; random := g |} =
    (Ok (Z.min 100 (hp + 30) - hp),
     {| heap := <[p := set_heals_used (set_health test_hero (Z.min 100 (hp + 30))) (k + 1)]> h;
        random := g |}).
Proof.
  intros Hhp Hk.
  rewrite (heal_player _ p (set_heals_used (set_health test_hero hp) k) k
             (lookup_insert_eq _ _ _) eq_refl eq_refl).
  change (alive _) with (0 <? hp).
  destruct (Z.ltb_spec 0 hp); [|lia]. cbn [negb].
  destruct (Z.leb_spec MAX_HEALS k); [lia|].
  change (max_health _) with 100. rewrite heal_amount_100. cbv zeta.
  unfold with_heap. cbn [heap random health set_heals_used set_health].
  now rewrite insert_insert_eq.
Qed.

Lemma heal_test_hero_exhausted h g p hp :
  0 < hp ->
  heal p {| heap := <[p := set_heals_used (set_health test_hero hp) 4]> h; random := g |} =
    (Raise (ArgumentError "no heals left"),
     {| heap := <[p := set_heals_used (set_health test_hero hp) 4]> h; random := g |}).
Proof.
  intros Hhp.
  rewrite (heal_player _ p (set_heals_used (set_health test_hero hp) 4) 4
             (lookup_insert_eq _ _ _) eq_refl eq_refl).
  change (alive _) with (0 <? hp).
  destruct (Z.ltb_spec 0 hp); [|lia]. reflexivity.
Qed.

Lemma test_player_heal_limits_passes w : fst (test_player_heal_limits w) = Ok true.
Proof.
  unfold test_player_heal_limits.
  set (p := fresh (dom (heap w))).
  rewrite (bind_eval _ _ w p
             (with_heap w (<[p := set_health test_hero 100]> (heap w)))) by reflexivity.
  rewrite (bind_eval _ _ _ tt
             {| heap := <[p := set_heals_used (set_health test_hero 50) 0]> (heap w);
                random := random w |}).
  2:{ unfold modify, with_heap. cbn [heap random]. rewrite lookup_insert_eq.
      now rewrite insert_insert_eq. }
  rewrite (bind_eval _ _ _ _ _ (heal_test_hero _ _ p 50 0 ltac:(lia) ltac:(reflexivity))).
  change (Z.min 100 (50 + 30)) with 80. change (0 + 1) with 1.
  change (0 <? 80 - 50) with true. unfold assert_ at 1.
  rewrite (bind_eval _ _ _ (set_heals_used (set_health test_hero 80) 1) _
             (deref_at _ p _ (lookup_insert_eq _ _ _))).
  change (50 <? health _) with true. unfold assert_ at 1.
  cbn [seq forM_].
  rewrite (bind_eval _ _ _ tt
             {| heap := <[p := set_heals_used (set_health test_hero 100) 4]> (heap w);
                random := random w |}).
  2:{ rewrite (bind_eval _ _ _ _ _
                 (bind_eval _ _ _ _ _
                    (heal_test_hero _ _ p 80 1 ltac:(lia) ltac:(reflexivity)))).
      unfold ret at 1.
      change (Z.min 100 (80 + 30)) with 100. change (1 + 1) with 2.
      rewrite (bind_eval _ _ _ _ _
                 (bind_eval _ _ _ _ _
                    (heal_test_hero _ _ p 100 2 ltac:(lia) ltac:(reflexivity)))).
      unfold ret at 1.
      change (Z.min 100 (100 + 30)) with 100. change (2 + 1) with 3.
      rewrite (bind_eval _ _ _ _ _
                 (bind_eval _ _ _ _ _
                    (heal_test_hero _ _ p 100 3 ltac:(lia) ltac:(reflexivity)))).
      reflexivity. }
  unfold pytest_raises_ArgumentError.
  rewrite (heal_test_hero_exhausted _ _ p 100 ltac:(lia)). reflexivity.
Qed.

Lemma fresh_two w c1 c2 :
  let p := fresh (dom (heap w)) in
  let w1 := with_heap w (<[p := c1]> (heap w)) in
  let g := fresh (dom (heap w1)) in
  let w2 := with_heap w1 (<[g := c2]> (heap w1)) in
  p <> g /\ heap w2 !! p = Some c1 /\ heap w2 !! g = Some c2.
Proof.
  intros p w1 g w2.
  assert (Hne : p <> g).
  { intros E. pose proof (is_fresh (dom (heap w1))) as Hfr. fold g in Hfr.
    apply Hfr. rewrite <- E. subst w1. cbn. rewrite dom_insert. set_solver. }
  split; [exact Hne|]. split.
  - subst w2 w1. cbn. rewrite lookup_insert_ne by congruence. apply lookup_insert_eq.
  - subst w2. cbn. apply lookup_insert_eq.
Qed.

Lemma test_attack_damage_and_death_passes w :
  fst (test_attack_damage_and_death w) = Ok true.
Proof.
  unfold test_attack_damage_and_death.
  set (cp := {| cls := CPlayer; name := "Hero"; attack := 30; defense := 1;
                max_health := 10; health := 10; damage_range := (5, 5);
                _heals_used := Some 0 |}).
  set (cm := {| cls := CMonster; name := "Orc"; attack := 1; defense := 1;
                max_health := 5; health := 5; damage_range := (1, 1);
                _heals_used := None |}).
  destruct (fresh_two w cp cm) as (Hne & Hp & Hm). cbv zeta in Hne, Hp, Hm.
  set (p := fresh (dom (heap w))) in *.
  set (w1 := with_heap w (<[p := cp]> (heap w))) in *.
  set (m := fresh (dom (heap w1))) in *.
  set (w2 := with_heap w1 (<[m := cm]> (heap w1))) in *.
  rewrite (bind_eval _ _ w p w1) by reflexivity.
  rewrite (bind_eval _ _ w1 m w2) by reflexivity.
  unfold bind at 1.
  rewrite (attack_target_alive w2 p m cp cm Hp Hm eq_refl eq_refl). cbv zeta.
  destruct (existsb _ _).
  - change (snd (damage_range cp) <? fst (damage_range cp)) with false. cbv iota.
    change (snd (damage_range cp) - fst (damage_range cp) + 1) with 1.
    rewrite Z.mod_1_r. change (fst (damage_range cp) + 0) with 5.
    change (5 <? 0) with false. cbv iota. cbn [fst snd].
    change (5 =? 5) with true. unfold assert_ at 1.
    rewrite (bind_eval _ _ _ (set_health cm 0) _ (deref_at _ m _ (lookup_insert_eq _ _ _))).
    reflexivity.
  - reflexivity.
Qed.

Lemma test_invalid_arguments_passes w : fst (test_invalid_arguments w) = Ok true.
Proof. reflexivity. Qed.

(** X19: the three tests of [src/test_game.py] pass for every seed and
    in every store: none of them depends on the dice. *)
Theorem X19_tests_pass (w : world) :
  fst (test_player_heal_limits w) = Ok true /\
  fst (test_attack_damage_and_death w) = Ok true /\
  fst (test_invalid_arguments w) = Ok true.
Proof.
  split; [apply test_player_heal_limits_passes|].
  split; [apply test_attack_damage_and_death_passes | apply test_invalid_arguments_passes].
Qed.
